(** * pdfchat-demo: configuration, vector-store manager, query engine and
      web interface

    A shallow embedding of
    - [app/utils/config.py]            (the [Config] class),
    - [app/database/pgvector_store.py] ([PGVectorManager]),
    - [app/core/retriever.py]          ([RAGQueryEngine]),
    - [app/web/gradio_interface.py]    ([GradioInterface]),
    - [app/main.py]                    ([parse_args], [main]),
    followed by the properties of these components.

    Python objects are records, attribute slots that may be absent or [None]
    are options, the database behind the auxiliary connection is a finite map
    from table names to rows, and every call into an external client
    (psycopg2, the vector-store client, the index and query framework) takes
    its outcome from an explicit fault plan, or from the client passed in as
    a record of functions, so that each [try]/[except] of the source has
    both of its branches in the model. *)

From Stdlib Require Import ZArith QArith Ascii String List Bool Lia.
From Stdlib Require Import DecimalString DecimalPos DecimalZ.
From stdpp Require Import base option list strings gmap.

Local Open Scope string_scope.
Local Open Scope Z_scope.
Local Open Scope list_scope.

(** ** Exceptions, results and the log *)

(** A Python exception, identified by its message ([str(e)]). *)
Definition exn := string.

(** Outcome of a call: a value, or a raised exception. *)
Inductive result (A : Type) : Type :=
| Ok (a : A)
| Raise (e : exn).
Arguments Ok {A} a.
Arguments Raise {A} e.

Definition is_ok {A} (r : result A) : bool :=
  match r with Ok _ => true | Raise _ => false end.

Inductive level := INFO | WARNING | ERROR.

Global Instance level_eq_dec : EqDecision level.
Proof. solve_decision. Defined.

(** ** State and exception monad

    A method is a function from the state before the call to its outcome
    and the state after it; a raised exception keeps the state reached. *)

Definition exec (St A : Type) : Type := St -> result A * St.

#[global] Instance exec_ret {St} : MRet (exec St) := fun A a s => (Ok a, s).
#[global] Instance exec_bind {St} : MBind (exec St) := fun A B k m s =>
  match m s with
  | (Ok a, s') => k a s'
  | (Raise e, s') => (Raise e, s')
  end.

(** [raise e] *)
Definition raise {St A} (e : exn) : exec St A := fun s => (Raise e, s).

(** [try: body / except Exception as e: handler e] *)
Definition try_except {St A} (body : exec St A) (handler : exn -> exec St A)
  : exec St A :=
  fun s =>
    match body s with
    | (Ok a, s') => (Ok a, s')
    | (Raise e, s') => handler e s'
    end.

Definition get {St} : exec St St := fun s => (Ok s, s).
Definition modify {St} (g : St -> St) : exec St unit := fun s => (Ok tt, g s).

(** An external call that raises [e] when its fault is [Some e]. *)
Definition may_fail {St} (fault : option exn) : exec St unit :=
  match fault with
  | Some e => raise e
  | None => mret tt
  end.

(** Judgements on computations. [returns m]: [m] never raises.
    [stable P m]: once [P] holds it still holds after [m], whether [m]
    returns or raises. [preserves proj m]: [m] leaves the component [proj]
    of the state as it found it. *)
Definition returns {St A} (m : exec St A) : Prop :=
  forall s, exists a, fst (m s) = Ok a.

Definition stable {St A} (P : St -> Prop) (m : exec St A) : Prop :=
  forall s, P s -> P (snd (m s)).

Definition preserves {St X A} (proj : St -> X) (m : exec St A) : Prop :=
  forall s, proj (snd (m s)) = proj s.

(** ** Python strings

    A [str] is a sequence of code points. A string read from the
    environment or typed into the interface is kept as the bytes of its
    UTF-8 encoding, and [decode] gives its code points as Python reads
    them from the environment ([os.fsdecode]): a byte that does not belong
    to a well-formed sequence becomes the lone surrogate U+DC00 + byte. *)

Module Text.

Definition within (lo hi c : N) : bool := ((lo <=? c) && (c <=? hi))%N.

(** A continuation byte, 80..BF. *)
Definition continuation (b : N) : bool := within 128 191 b.

(** Well-formed sequences of two, three and four bytes: no overlong
    form, no surrogate, nothing above U+10FFFF. *)
Definition two (b0 b1 : N) : bool := within 194 223 b0 && continuation b1.

Definition three (b0 b1 b2 : N) : bool :=
  ((b0 =? 224)%N && within 160 191 b1
   || within 225 236 b0 && continuation b1
   || (b0 =? 237)%N && within 128 159 b1
   || within 238 239 b0 && continuation b1)
  && continuation b2.

Definition four (b0 b1 b2 b3 : N) : bool :=
  ((b0 =? 240)%N && within 144 191 b1
   || within 241 243 b0 && continuation b1
   || (b0 =? 244)%N && within 128 143 b1)
  && continuation b2 && continuation b3.

(** The code point for an undecodable byte. *)
Definition escape (b : N) : N := (56320 + b)%N.

Fixpoint decode_bytes (bs : list N) : list N :=
  match bs with
  | [] => []
  | b0 :: r =>
      if (b0 <? 128)%N then b0 :: decode_bytes r
      else
        match r with
        | b1 :: r1 =>
            if two b0 b1
            then ((b0 - 192) * 64 + (b1 - 128))%N :: decode_bytes r1
            else
              match r1 with
              | b2 :: r2 =>
                  if three b0 b1 b2
                  then ((b0 - 224) * 4096 + (b1 - 128) * 64 + (b2 - 128))%N
                       :: decode_bytes r2
                  else
                    match r2 with
                    | b3 :: r3 =>
                        if four b0 b1 b2 b3
                        then ((b0 - 240) * 262144 + (b1 - 128) * 4096
                              + (b2 - 128) * 64 + (b3 - 128))%N
                             :: decode_bytes r3
                        else escape b0 :: decode_bytes r
                    | [] => escape b0 :: decode_bytes r
                    end
              | [] => escape b0 :: decode_bytes r
              end
        | [] => escape b0 :: decode_bytes r
        end
  end.

(** The bytes of a string, and its code points. *)
Definition bytes (s : string) : list N := map N_of_ascii (list_ascii_of_string s).

Definition decode (s : string) : list N := decode_bytes (bytes s).

End Text.

(** ** [app/utils/config.py]: the embedding dimension *)

Module Config.

(** The white space of Unicode outside ASCII: NEL, NBSP, the Ogham space
    mark, U+2000..U+200A, the line and paragraph separators, U+202F,
    U+205F and the ideographic space. *)
Definition unicode_space (c : N) : bool :=
  ((c =? 133) || (c =? 160) || (c =? 5760) || Text.within 8192 8202 c
   || (c =? 8232) || (c =? 8233) || (c =? 8239) || (c =? 8287)
   || (c =? 12288))%N.

(** [c.isspace()], the characters removed by [str.strip()]: TAB, LF, VT,
    FF, CR, FS, GS, RS, US, the space, and the white space of Unicode. *)
Definition py_isspace (c : N) : bool :=
  Text.within 9 13 c || Text.within 28 32 c || unicode_space c.

(** The characters skipped by [int()] around a numeral: those of
    [str.strip()] but FS, GS, RS and US. *)
Definition int_space (c : N) : bool :=
  Text.within 9 13 c || (c =? 32)%N || unicode_space c.

Fixpoint lstrip (space : N -> bool) (s : list N) : list N :=
  match s with
  | c :: r => if space c then lstrip space r else s
  | [] => []
  end.

Definition strip_of (space : N -> bool) (s : list N) : list N :=
  rev (lstrip space (rev (lstrip space s))).

(** [s.strip()] *)
Definition strip (s : list N) : list N := strip_of py_isspace s.

(** [c.lower()] for a character of ASCII. A character outside ASCII is
    left as it is: none has a lower case written with the letters n, o and
    e, so this decides [s.lower() == "none"] as Python does. *)
Definition lower_ascii (c : N) : N :=
  if Text.within 65 90 c then (c + 32)%N else c.

Definition lower (s : list N) : list N := map lower_ascii s.

(** The code points of the digit zero in each script of Unicode 14.0,
    the database of Python 3.11; the nine digits that follow a zero are
    the digits 1 to 9 of its script. *)
Definition decimal_zeros : list N :=
  [ 48; 1632; 1776; 1984; 2406; 2534; 2662; 2790; 2918; 3046;
    3174; 3302; 3430; 3558; 3664; 3792; 3872; 4160; 4240; 6112;
    6160; 6470; 6608; 6784; 6800; 6992; 7088; 7232; 7248; 42528;
    43216; 43264; 43472; 43504; 43600; 44016; 65296; 66720; 68912; 69734;
    69872; 69942; 70096; 70384; 70736; 70864; 71248; 71360; 71472; 71904;
    72016; 72784; 73040; 73120; 92768; 92864; 93008; 120782; 120792; 120802;
    120812; 120822; 123200; 123632; 125264; 130032 ]%N.

(** The value of a decimal digit of any script. *)
Definition digit_of (c : N) : option Z :=
  match find (fun z => Text.within z (z + 9) c) decimal_zeros with
  | Some z => Some (Z.of_N (c - z))
  | None => None
  end.

(** Decimal digits of an [int()] literal: at least one digit, and single
    underscores allowed between two digits. [prev] tells whether the
    previous character was a digit. *)
Fixpoint digits_value (prev : bool) (acc : Z) (s : list N) : option Z :=
  match s with
  | [] => if prev then Some acc else None
  | c :: r =>
      match digit_of c with
      | Some d => digits_value true (acc * 10 + d) r
      | None =>
          if ((c =? 95)%N && prev)%bool then digits_value false acc r
          else None
      end
  end.

(** The number of digits in a literal. *)
Definition digit_count (s : list N) : N :=
  N.of_nat (length (List.filter
                      (fun c => match digit_of c with Some _ => true | None => false end)
                      s)).

(** The interpreter's limit on the digits of a numeral
    ([sys.get_int_max_str_digits()], 4300 unless set otherwise). *)
Definition int_max_str_digits : N := 4300.

(** [int(s)] for a string [s] in base 10: [None] stands for [ValueError].
    Surrounding white space is skipped, one sign is accepted, and a literal
    of more digits than the limit is refused. *)
Definition py_int (s : string) : option Z :=
  match strip_of int_space (Text.decode s) with
  | c :: r =>
      let literal := if ((c =? 45) || (c =? 43))%N then r else c :: r in
      if (int_max_str_digits <? digit_count literal)%N then None
      else if (c =? 45)%N then Z.opp <$> digits_value false 0 literal
      else digits_value false 0 literal
  | [] => None
  end.

(** What the class body writes to standard output with [print]. *)
Inductive printed :=
| WarnDimNotPositive (n : Z)      (* line 51 *)
| WarnDimNotInteger (s : string). (* line 54 *)

Definition DEFAULT_EMBEDDING_DIM : Z := 1536.

(** The test of line 44: the variable is unset, spells "none" in any
    letter case, or is blank. *)
Definition use_default (e : option string) : bool :=
  match e with
  | None => true
  | Some s =>
      let cs := Text.decode s in
      bool_decide (lower cs = Text.decode "none")
      || bool_decide (strip cs = [])
  end.

(** Lines 43-55: the value bound to [Config.OPENAI_EMBEDDING_MODEL_DIM]
    and the lines printed while computing it, from the result of
    [os.getenv("OPENAI_EMBEDDING_MODEL_DIM")]. *)
Definition OPENAI_EMBEDDING_MODEL_DIM (_embed_dim_str : option string)
  : Z * list printed :=
  match _embed_dim_str with
  | None => (DEFAULT_EMBEDDING_DIM, [])
  | Some s =>
      if use_default (Some s) then (DEFAULT_EMBEDDING_DIM, [])
      else
        match py_int s with
        | Some n =>
            if n <=? 0 then (DEFAULT_EMBEDDING_DIM, [WarnDimNotPositive n])
            else (n, [])
        | None => (DEFAULT_EMBEDDING_DIM, [WarnDimNotInteger s])
        end
  end.

End Config.

(** ** Document chunks *)

(** A chunk ("node"): identifier, text, owning document and free-form
    metadata. *)
Record BaseNode := {
  node_id : string;
  text : string;
  ref_doc_id : string;
  metadata : gmap string string;
}.

(** ** [app/database/pgvector_store.py]: [PGVectorManager] *)

Module PGVector.

(** *** Objects *)

(** The value held by [self.embed_dim]: an [int], or anything else. *)
Inductive dim_value :=
| DimInt (n : Z)
| DimOther (repr : string).

(** A psycopg2 connection, as far as the manager looks at it. *)
Record connection := {
  closed : bool;
  autocommit : bool;
}.

(** The handle returned by [PGVectorStore.from_params], with the
    arguments of lines 77-91. *)
Record PGVectorStore := {
  vs_table_name : string;
  vs_embed_dim : dim_value;
  vs_hybrid_search : bool;
  vs_text_search_config : string;
}.

Record StorageContext := {
  sc_vector_store : option PGVectorStore;
}.

(** Opaque service context handed through to the framework. *)
Record ServiceContext := { service_name : string }.

(** The handle returned by the [VectorStoreIndex] constructor. *)
Record VectorStoreIndex := {
  idx_nodes : list BaseNode;
  idx_storage_context : option StorageContext;
  idx_service_context : option ServiceContext;
}.

Record PGVectorManager := {
  table_name : string;
  connection_string : string;
  embed_dim : dim_value;
  vector_store : option PGVectorStore;
  storage_context : option StorageContext;
  index : option VectorStoreIndex;
  conn : option connection;
}.

(** *** The world outside the manager *)

(** Statements sent over the auxiliary connection. *)
Inductive sql :=
| CreateExtension                          (* line 64 *)
| SelectTableExists (t : string)           (* lines 103-106, 206-209 *)
| CreateTable (t : string) (dim : dim_value) (* lines 114-124 *)
| TruncateTable (t : string)               (* line 190 *)
| SelectCount (t : string).                (* line 217 *)

(** The messages handed to [logger], one constructor per call site. *)
Inductive log_msg :=
| EmbedDimUsed (d : dim_value)             (* line 36 *)
| InvalidEmbedDim (d : dim_value)          (* line 49 *)
| InitStart                                (* line 52 *)
| AuxConnectionOpened                      (* line 59 *)
| ExtensionEnsured                         (* line 65 *)
| ExtensionFailed (e : exn)                (* line 67 *)
| AuxConnectionFailed (e : exn)            (* line 69 *)
| FromParamsStart                          (* line 74 *)
| FromParamsDone                           (* line 93 *)
| FromParamsFailed (e : exn)               (* line 95 *)
| TableMissingCreating (t : string)        (* line 110 *)
| TableCreated (t : string)                (* line 125 *)
| CreateTableFailed (e : exn)              (* line 127 *)
| TableCheckFailed (e : exn)               (* line 129 *)
| InitDone (t : string) (d : dim_value)    (* line 135 *)
| InitFailed (e : exn)                     (* line 137 *)
| IndexCreated (n : nat)                   (* line 168 *)
| IndexFailed (e : exn)                    (* line 171 *)
| DataCleared (t : string)                 (* line 183 *)
| ClearFailed (e : exn)                    (* line 185 *)
| TruncateDone (t : string)                (* line 191 *)
| TruncateFailed (e : exn)                 (* line 193 *)
| TableMissingFirstRun (t : string)        (* line 213 *)
| CountQueryFailed (e : exn)               (* line 221 *)
| CountUnavailable                         (* line 228 *)
| CountApiFailed (e : exn)                 (* line 231 *)
| CountFailed (e : exn)                    (* line 235 *)
| ConnectionClosed                         (* line 243 *)
| CloseFailed (e : exn).                   (* line 245 *)

(** What the manager does to the outside, in order. *)
Inductive event :=
| Log (l : level) (m : log_msg)
| Connect (url : string)                   (* psycopg2.connect *)
| Cursor                                   (* self.conn.cursor() *)
| Execute (q : sql)                        (* cursor.execute *)
| FromParams (t : string) (d : dim_value)  (* PGVectorStore.from_params *)
| StoreDeleteAll                           (* vector_store.delete(delete_all=True) *)
| BuildIndex (n : nat)                     (* VectorStoreIndex(nodes=...) *)
| Close.                                   (* self.conn.close() *)

(** The manager object, the database reached through the connections,
    and the history of calls made so far. *)
Record state := {
  self : PGVectorManager;
  tables : gmap string (list BaseNode);
  vector_extension : bool;
  trace : list event;
}.

(** *** Effects *)

Abbreviation M := (exec state).

Definition emit (ev : event) : M unit :=
  modify (fun s => {| self := self s; tables := tables s;
                      vector_extension := vector_extension s;
                      trace := trace s ++ [ev] |}).

Definition log (l : level) (m : log_msg) : M unit := emit (Log l m).

Definition set_self (g : PGVectorManager -> PGVectorManager) : M unit :=
  modify (fun s => {| self := g (self s); tables := tables s;
                      vector_extension := vector_extension s;
                      trace := trace s |}).

Definition set_tables (g : gmap string (list BaseNode) -> gmap string (list BaseNode))
  : M unit :=
  modify (fun s => {| self := self s; tables := g (tables s);
                      vector_extension := vector_extension s;
                      trace := trace s |}).

Definition set_vector_extension (b : bool) : M unit :=
  modify (fun s => {| self := self s; tables := tables s;
                      vector_extension := b;
                      trace := trace s |}).

(** Attribute updates [self.x = v]. *)
Definition with_embed_dim (d : dim_value) (m : PGVectorManager) :=
  {| table_name := table_name m; connection_string := connection_string m;
     embed_dim := d; vector_store := vector_store m;
     storage_context := storage_context m; index := index m; conn := conn m |}.
Definition with_vector_store (v : option PGVectorStore) (m : PGVectorManager) :=
  {| table_name := table_name m; connection_string := connection_string m;
     embed_dim := embed_dim m; vector_store := v;
     storage_context := storage_context m; index := index m; conn := conn m |}.
Definition with_storage_context (c : option StorageContext) (m : PGVectorManager) :=
  {| table_name := table_name m; connection_string := connection_string m;
     embed_dim := embed_dim m; vector_store := vector_store m;
     storage_context := c; index := index m; conn := conn m |}.
Definition with_index (i : option VectorStoreIndex) (m : PGVectorManager) :=
  {| table_name := table_name m; connection_string := connection_string m;
     embed_dim := embed_dim m; vector_store := vector_store m;
     storage_context := storage_context m; index := i; conn := conn m |}.
Definition with_conn (c : option connection) (m : PGVectorManager) :=
  {| table_name := table_name m; connection_string := connection_string m;
     embed_dim := embed_dim m; vector_store := vector_store m;
     storage_context := storage_context m; index := index m; conn := c |}.

(** [self.conn and not self.conn.closed] *)
Definition conn_usable (c : option connection) : bool :=
  match c with
  | Some c => negb (closed c)
  | None => false
  end.

(** *** The external clients *)

(** [self.conn.cursor()] *)
Definition cursor (fault : option exn) : M unit :=
  emit Cursor;; may_fail fault.

(** [cursor.execute("CREATE EXTENSION IF NOT EXISTS vector;")] *)
Definition execute_create_extension (fault : option exn) : M unit :=
  emit (Execute CreateExtension);;
  may_fail fault;;
  set_vector_extension true.

(** [cursor.execute("SELECT EXISTS (...)", (t,))] and
    [cursor.fetchone()[0]]. *)
Definition execute_table_exists (t : string) (fault : option exn) : M bool :=
  emit (Execute (SelectTableExists t));;
  may_fail fault;;
  s ← get;
  mret (bool_decide (is_Some (tables s !! t))).

(** [cursor.execute(create_table_sql)]: the statement needs the [VECTOR]
    type of the extension and leaves an existing table alone. *)
Definition execute_create_table (t : string) (d : dim_value) (fault : option exn)
  : M unit :=
  emit (Execute (CreateTable t d));;
  may_fail fault;;
  s ← get;
  if vector_extension s then
    match tables s !! t with
    | Some _ => mret tt
    | None => set_tables (fun tb => <[t := []]> tb)
    end
  else raise "type vector does not exist".

(** [cursor.execute(f"TRUNCATE TABLE {t}")] *)
Definition execute_truncate (t : string) (fault : option exn) : M unit :=
  emit (Execute (TruncateTable t));;
  may_fail fault;;
  s ← get;
  match tables s !! t with
  | Some _ => set_tables (fun tb => <[t := []]> tb)
  | None => raise "relation does not exist"
  end.

(** [cursor.execute(f"SELECT COUNT(*) FROM {t}")] and
    [cursor.fetchone()[0]]. *)
Definition execute_count (t : string) (fault : option exn) : M Z :=
  emit (Execute (SelectCount t));;
  may_fail fault;;
  s ← get;
  match tables s !! t with
  | Some rows => mret (Z.of_nat (length rows))
  | None => raise "relation does not exist"
  end.

(** Modelled from the spec: the store client's bulk delete
    ([PGVectorStore.delete], framework code) "deletes all rows for the
    table's collection" when it does not raise. *)
Definition store_delete_all (vs : PGVectorStore) (fault : option exn) : M unit :=
  emit StoreDeleteAll;;
  may_fail fault;;
  s ← get;
  match tables s !! vs_table_name vs with
  | Some _ => set_tables (fun tb => <[vs_table_name vs := []]> tb)
  | None => mret tt
  end.

(** *** Fault plans: which external call raises, and with what *)

Record init_faults := {
  connect_fails : option exn;          (* psycopg2.connect, line 56 *)
  extension_cursor_fails : option exn; (* self.conn.cursor(), line 63 *)
  extension_fails : option exn;        (* CREATE EXTENSION, line 64 *)
  from_params_fails : option exn;      (* make_url + from_params, lines 75-92 *)
  check_cursor_fails : option exn;     (* self.conn.cursor(), line 101 *)
  table_check_fails : option exn;      (* SELECT EXISTS, lines 103-107 *)
  create_table_fails : option exn;     (* CREATE TABLE, line 124 *)
  storage_context_fails : option exn;  (* StorageContext.from_defaults, line 131 *)
}.

Record index_faults := {
  index_init : init_faults;            (* the nested initialize(), line 152 *)
  build_fails : option exn;            (* VectorStoreIndex(...), lines 157-166 *)
}.

Record clear_faults := {
  delete_fails : option exn;           (* vector_store.delete, line 182 *)
  clear_cursor_fails : option exn;     (* self.conn.cursor(), line 189 *)
  truncate_fails : option exn;         (* TRUNCATE, line 190 *)
}.

Record count_faults := {
  count_cursor_fails : option exn;     (* self.conn.cursor(), line 204 *)
  exists_fails : option exn;           (* SELECT EXISTS, lines 206-210 *)
  count_fails : option exn;            (* SELECT COUNT, lines 217-218 *)
}.

(** *** The methods *)

(** [PGVectorManager.__init__], lines 22-42; [url] and [dim] are
    [Config.PGVECTOR_URL] and [Config.OPENAI_EMBEDDING_MODEL_DIM]. *)
Definition __init__ (table : string) (url : option string) (dim : Z)
  : result PGVectorManager * list event :=
  match url with
  | None | Some EmptyString => (Raise "PGVECTOR_URL is not set", [])
  | Some u =>
      (Ok {| table_name := table; connection_string := u;
             embed_dim := DimInt dim; vector_store := None;
             storage_context := None; index := None; conn := None |},
       [Log INFO (EmbedDimUsed (DimInt dim))])
  end.

(** [isinstance(d, int) and d > 0] *)
Definition valid_embed_dim (d : dim_value) : bool :=
  match d with
  | DimInt n => 0 <? n
  | DimOther _ => false
  end.

(** Lines 47-50. *)
Definition validate_embed_dim : M unit :=
  s ← get;
  if valid_embed_dim (embed_dim (self s)) then mret tt
  else
    log WARNING (InvalidEmbedDim (embed_dim (self s)));;
    set_self (with_embed_dim (DimInt 1536)).

(** Lines 55-70: the auxiliary connection and the extension. *)
Definition open_aux_connection (f : init_faults) : M unit :=
  try_except
    (s ← get;
     emit (Connect (connection_string (self s)));;
     may_fail (connect_fails f);;
     set_self (with_conn (Some {| closed := false; autocommit := true |}));;
     log INFO AuxConnectionOpened;;
     try_except
       (cursor (extension_cursor_fails f);;
        execute_create_extension (extension_fails f);;
        log INFO ExtensionEnsured)
       (fun e => log WARNING (ExtensionFailed e)))
    (fun conn_err =>
       log WARNING (AuxConnectionFailed conn_err);;
       set_self (with_conn None)).

(** Lines 73-96: the vector-store client. *)
Definition create_vector_store (f : init_faults) : M unit :=
  try_except
    (log INFO FromParamsStart;;
     s ← get;
     emit (FromParams (table_name (self s)) (embed_dim (self s)));;
     may_fail (from_params_fails f);;
     set_self (with_vector_store
                 (Some {| vs_table_name := table_name (self s);
                          vs_embed_dim := embed_dim (self s);
                          vs_hybrid_search := true;
                          vs_text_search_config := "chinese" |}));;
     log INFO FromParamsDone)
    (fun e => log WARNING (FromParamsFailed e);; raise e).

(** Lines 99-129: check the table and create it when absent. *)
Definition ensure_table (f : init_faults) : M unit :=
  s ← get;
  match conn (self s) with
  | Some _ =>
      try_except
        (cursor (check_cursor_fails f);;
         table_exists ← execute_table_exists (table_name (self s)) (table_check_fails f);
         if negb table_exists then
           log INFO (TableMissingCreating (table_name (self s)));;
           try_except
             (execute_create_table (table_name (self s)) (embed_dim (self s))
                                   (create_table_fails f);;
              log INFO (TableCreated (table_name (self s))))
             (fun table_err => log WARNING (CreateTableFailed table_err))
         else mret tt)
        (fun check_err => log ERROR (TableCheckFailed check_err))
  | None => mret tt
  end.

(** [PGVectorManager.initialize], lines 44-138. *)
Definition initialize (f : init_faults) : M unit :=
  try_except
    (validate_embed_dim;;
     log INFO InitStart;;
     open_aux_connection f;;
     create_vector_store f;;
     ensure_table f;;
     may_fail (storage_context_fails f);;
     s ← get;
     set_self (with_storage_context
                 (Some {| sc_vector_store := vector_store (self s) |}));;
     log INFO (InitDone (table_name (self s)) (embed_dim (self s))))
    (fun e => log ERROR (InitFailed e);; raise e).

(** The [VectorStoreIndex] constructor (framework code): raises, or
    hands back a handle over the nodes, bound to the storage context. *)
Definition VectorStoreIndex_new (nodes : list BaseNode)
    (storage : option StorageContext) (service : option ServiceContext)
    (fault : option exn) : M VectorStoreIndex :=
  emit (BuildIndex (length nodes));;
  may_fail fault;;
  mret {| idx_nodes := nodes; idx_storage_context := storage;
          idx_service_context := service |}.

(** Lines 154-172: build the index and keep it in [self.index]. *)
Definition build_index (nodes : list BaseNode)
    (service_context : option ServiceContext) (fault : option exn)
  : M VectorStoreIndex :=
  try_except
    (s ← get;
     idx ← (match service_context with
            | Some sc =>
                VectorStoreIndex_new nodes (storage_context (self s)) (Some sc) fault
            | None =>
                VectorStoreIndex_new nodes (storage_context (self s)) None fault
            end);
     set_self (with_index (Some idx));;
     log INFO (IndexCreated (length nodes));;
     mret idx)
    (fun e => log ERROR (IndexFailed e);; raise e).

(** [PGVectorManager.create_index_from_nodes], lines 140-172. *)
Definition create_index_from_nodes (nodes : list BaseNode)
    (service_context : option ServiceContext) (f : index_faults)
  : M VectorStoreIndex :=
  s ← get;
  (match storage_context (self s) with
   | None => initialize (index_init f)
   | Some _ => mret tt
   end);;
  build_index nodes service_context (build_fails f).

(** [PGVectorManager.get_index], lines 174-176. *)
Definition get_index : M (option VectorStoreIndex) :=
  s ← get; mret (index (self s)).

(** [PGVectorManager.clear_data], lines 178-193. *)
Definition clear_data (f : clear_faults) : M unit :=
  s ← get;
  match vector_store (self s) with
  | Some vs =>
      try_except
        (store_delete_all vs (delete_fails f);;
         log INFO (DataCleared (table_name (self s))))
        (fun e =>
           log ERROR (ClearFailed e);;
           s ← get;
           if conn_usable (conn (self s)) then
             try_except
               (cursor (clear_cursor_fails f);;
                execute_truncate (table_name (self s)) (truncate_fails f);;
                log INFO (TruncateDone (table_name (self s))))
               (fun sql_err => log ERROR (TruncateFailed sql_err))
           else mret tt)
  | None => mret tt
  end.

(** [PGVectorManager.get_document_count], lines 195-236. *)
Definition get_document_count (f : count_faults) : M Z :=
  s ← get;
  match vector_store (self s) with
  | None => mret 0
  | Some _ =>
      try_except
        (if conn_usable (conn (self s)) then
           try_except
             (cursor (count_cursor_fails f);;
              table_exists ← execute_table_exists (table_name (self s)) (exists_fails f);
              if negb table_exists then
                log INFO (TableMissingFirstRun (table_name (self s)));;
                mret 0
              else
                count ← execute_count (table_name (self s)) (count_fails f);
                mret count)
             (fun sql_err => log ERROR (CountQueryFailed sql_err);; mret 0)
         else
           try_except
             (log WARNING CountUnavailable;;
              mret 0)
             (fun api_err => log ERROR (CountApiFailed api_err);; mret 0))
        (fun e => log ERROR (CountFailed e);; mret 0)
  end.

(** What [__del__] is run on: a manager whose constructor has returned,
    or the object left behind by a constructor that raised at line 32,
    which has no attribute but [table_name] and [connection_string]. *)
Inductive finalized := Constructed | Abandoned.

(** [PGVectorManager.__del__], lines 238-245. On an abandoned object
    reading [self.conn] raises, and the manager of the state is not looked
    at. *)
Definition __del__ (obj : finalized) (close_fails : option exn) : M unit :=
  try_except
    (s ← get;
     conn ← match obj with
            | Constructed => mret (conn (self s))
            | Abandoned =>
                raise "AttributeError: 'PGVectorManager' object has no attribute 'conn'"
            end;
     match conn with
     | Some c =>
         if negb (closed c) then
           emit Close;;
           may_fail close_fails;;
           set_self (with_conn (Some {| closed := true; autocommit := autocommit c |}));;
           log INFO ConnectionClosed
         else mret tt
     | None => mret tt
     end)
    (fun e => log ERROR (CloseFailed e)).

(** A manager on which [initialize] has completed: it holds the store
    handle for its table and the storage context around that handle. *)
Definition initialized (m : PGVectorManager) : Prop :=
  exists vs, vector_store m = Some vs /\ vs_table_name vs = table_name m /\
             storage_context m = Some {| sc_vector_store := Some vs |}.

(** The rows of the manager's table; [None] when the table does not
    exist. *)
Definition table_rows (s : state) : option (list BaseNode) :=
  tables s !! table_name (self s).

Definition aux_conn (s : state) : option connection := conn (self s).

(** The count query is sent and answered: the manager holds its store
    handle and a usable connection, and neither the cursor nor one of the
    two statements raises. *)
Definition count_query_succeeds (f : count_faults) (s : state) : Prop :=
  is_Some (vector_store (self s)) /\ conn_usable (conn (self s)) = true /\
  count_cursor_fails f = None /\ exists_fails f = None /\ count_fails f = None.

(** Some step of the count query raises. *)
Definition count_query_fails (f : count_faults) : Prop :=
  is_Some (count_cursor_fails f) \/ is_Some (exists_fails f) \/
  is_Some (count_fails f).

(** The caller's view of a call: the exception, if any, is caught. *)
Definition attempt {A} (m : M A) : M (result A) :=
  fun s => (Ok (fst (m s)), snd (m s)).

Record index_call := {
  call_nodes : list BaseNode;
  call_service_context : option ServiceContext;
  call_faults : index_faults;
}.

(** A series of [create_index_from_nodes] calls on one manager, with the
    outcome of each. *)
Fixpoint create_indexes (calls : list index_call)
  : M (list (result VectorStoreIndex)) :=
  match calls with
  | [] => mret []
  | c :: rest =>
      r ← attempt (create_index_from_nodes (call_nodes c)
                     (call_service_context c) (call_faults c));
      rs ← create_indexes rest;
      mret (r :: rs)
  end.

(** The handle of the last call that returned, if any did. *)
Fixpoint last_built (rs : list (result VectorStoreIndex))
  : option VectorStoreIndex :=
  match rs with
  | [] => None
  | r :: rest =>
      match last_built rest with
      | Some i => Some i
      | None => match r with Ok i => Some i | Raise _ => None end
      end
  end.


#[global] Instance dim_value_eq_dec : EqDecision dim_value.
Proof. solve_decision. Defined.
#[global] Instance sql_eq_dec : EqDecision sql.
Proof. solve_decision. Defined.
#[global] Instance log_msg_eq_dec : EqDecision log_msg.
Proof. solve_decision. Defined.
#[global] Instance event_eq_dec : EqDecision event.
Proof. solve_decision. Defined.

(** The state in which a freshly constructed manager meets a database. *)
Definition fresh (m : PGVectorManager) (tb : gmap string (list BaseNode))
    (ext : bool) : state :=
  {| self := m; tables := tb; vector_extension := ext; trace := [] |}.

End PGVector.

(** ** [app/core/retriever.py]: [RAGQueryEngine] *)

Module Retriever.

(** *** Objects *)

(** A metadata filter predicate: field, required value. *)
Record MetadataFilters := {
  required : list (string * string);
}.

(** A retrieved chunk with its similarity score, a float in the source and
    a rational here. *)
Record NodeWithScore := {
  node : BaseNode;
  score : Q;
}.

(** The framework's response object; [source_nodes] is [None] when the
    object has no such attribute ([getattr] default of line 120). *)
Record Response := {
  response_str : string;                     (* str(response) *)
  source_nodes : option (list NodeWithScore);
}.

(** The built index as the engine sees it: the store's ranking of the
    chunks matching a query, best first, under a search mode, the store
    options and the active filter; the store may raise. *)
Record VectorStoreIndex := {
  ranked_matches :
    string -> gmap string Z -> option MetadataFilters -> string ->
    result (list NodeWithScore);
}.

(** The language-model client: answer a query from the given chunks. *)
Record LLM := {
  complete : string -> list NodeWithScore -> result string;
}.

Record BaseEmbedding := { model_name : string }.
Record ServiceContext := { service_name : string }.

Record SimilarityPostprocessor := {
  similarity_cutoff : Q;
}.

(** The retriever of a query engine; [filters] is [None] when the object
    has no attribute of that name, [Some None] when the attribute holds
    [None]. *)
Record BaseRetriever := {
  filters : option (option MetadataFilters);
}.

(** The object returned by [vector_index.as_query_engine(...)];
    [retriever] is [None] when the object has no such attribute. *)
Record QueryEngine := {
  retriever : option BaseRetriever;
  qe_index : VectorStoreIndex;
  qe_llm : LLM;
  similarity_top_k : nat;
  vector_store_query_mode : string;
  vector_store_kwargs : gmap string Z;
  node_postprocessors : list SimilarityPostprocessor;
}.

Record RAGQueryEngine := {
  vector_index : VectorStoreIndex;
  llm : LLM;
  embed_model : BaseEmbedding;
  service_context : option ServiceContext;
  pgvector_options : gmap string Z;
  query_engine : QueryEngine;
}.

(** The returned dictionaries; a [dict] keeps its keys in insertion
    order. The values of a citation, and the values of the result. *)
Inductive citation_value :=
| CStr (s : string)
| CFloat (q : Q)
| CMetadata (m : gmap string string).

Inductive result_value :=
| RStr (s : string)
| RList (l : list (list (string * citation_value))).

(** [d[k]] *)
Fixpoint dict_get {V} (k : string) (d : list (string * V)) : option V :=
  match d with
  | [] => None
  | (k', v) :: r => if String.eqb k k' then Some v else dict_get k r
  end.

Inductive log_msg :=
| QueryModeUsed (mode : string)            (* line 58 *)
| OptionsUsed (o : gmap string Z)          (* line 59 *)
| EngineCreated (mode : string)            (* line 73 *)
| EngineFailed (e : exn)                   (* line 75 *)
| FilterApplied (f : MetadataFilters)      (* line 88 *)
| FilterUnsupported                        (* line 90 *)
| QueryReceived (q : string)               (* line 104 *)
| QueryFailed (e : exn).                   (* line 137 *)

Record state := {
  self : RAGQueryEngine;
  log : list (level * log_msg);
}.

Abbreviation M := (exec state).

Definition logger (l : level) (m : log_msg) : M unit :=
  modify (fun s => {| self := self s; log := (log s ++ [(l, m)])%list |}).

(** *** The framework's query engine *)

(** The filter under which the engine retrieves. *)
Definition active_filters (qe : QueryEngine) : option MetadataFilters :=
  match retriever qe with
  | Some r =>
      match filters r with
      | Some f => f
      | None => None
      end
  | None => None
  end.

(** Modelled from the spec: the similarity postprocessor (framework code)
    "discard[s] any chunk whose similarity score is below the configured
    cutoff". *)
Definition postprocess (p : SimilarityPostprocessor) (ns : list NodeWithScore)
  : list NodeWithScore :=
  List.filter (fun n => Qle_bool (similarity_cutoff p) (score n)) ns.

(** Modelled from the spec: [query_engine.query] (framework code) is to
    "retrieve up to top-K chunks matching [text] under the active search
    mode, discard any chunk whose similarity score is below the configured
    cutoff, then generate an answer conditioned on the surviving chunks";
    a failure of retrieval or generation is raised. *)
Definition engine_query (qe : QueryEngine) (query_str : string) : result Response :=
  match ranked_matches (qe_index qe) (vector_store_query_mode qe)
                       (vector_store_kwargs qe) (active_filters qe) query_str with
  | Raise e => Raise e
  | Ok ranked =>
      let retrieved := firstn (similarity_top_k qe) ranked in
      let surviving :=
        fold_left (fun ns p => postprocess p ns) (node_postprocessors qe) retrieved in
      match complete (qe_llm qe) query_str surviving with
      | Raise e => Raise e
      | Ok answer =>
          Ok {| response_str := answer; source_nodes := Some surviving |}
      end
  end.

(** *** The methods *)

Definition default_pgvector_options : gmap string Z :=
  {[ "ivfflat_probes" := 10; "hnsw_ef_search" := 100 ]}.

Definition default_similarity_top_k : nat := 4.
Definition default_similarity_cutoff : Q := 7 # 10.
Definition default_vector_store_query_mode : string := "hybrid".

(** [vector_index.as_query_engine(...)] of lines 64-72 (framework code).
    [built] is what the framework does with the call: it raises, or it
    returns an engine over the index with the keyword arguments it was
    given, and with the retriever object [built] describes. *)
Definition as_query_engine (vector_index : VectorStoreIndex) (llm : LLM)
    (similarity_top_k : nat) (vector_store_query_mode : string)
    (vector_store_kwargs : gmap string Z)
    (node_postprocessors : list SimilarityPostprocessor)
    (built : result (option BaseRetriever)) : result QueryEngine :=
  match built with
  | Raise e => Raise e
  | Ok r =>
      Ok {| retriever := r;
            qe_index := vector_index; qe_llm := llm;
            similarity_top_k := similarity_top_k;
            vector_store_query_mode := vector_store_query_mode;
            vector_store_kwargs := vector_store_kwargs;
            node_postprocessors := node_postprocessors |}
  end.

(** [RAGQueryEngine.__init__], lines 20-76: the constructed engine or the
    exception, and the log lines written. *)
Definition __init__ (vector_index : VectorStoreIndex) (llm : LLM)
    (embed_model : BaseEmbedding) (service_context : option ServiceContext)
    (similarity_top_k : nat) (similarity_cutoff : Q)
    (vector_store_query_mode : string)
    (pgvector_options : option (gmap string Z))
    (built : result (option BaseRetriever))
  : result RAGQueryEngine * list (level * log_msg) :=
  let options := default (∅ : gmap string Z) pgvector_options ∪ default_pgvector_options in
  let log0 := [(INFO, QueryModeUsed vector_store_query_mode);
               (INFO, OptionsUsed options)] in
  match as_query_engine vector_index llm similarity_top_k
                        vector_store_query_mode options
                        [ {| similarity_cutoff := similarity_cutoff |} ] built with
  | Ok qe =>
      (Ok {| vector_index := vector_index; llm := llm;
             embed_model := embed_model; service_context := service_context;
             pgvector_options := options; query_engine := qe |},
       (log0 ++ [(INFO, EngineCreated vector_store_query_mode)])%list)
  | Raise e => (Raise e, (log0 ++ [(ERROR, EngineFailed e)])%list)
  end.

(** [hasattr(self.query_engine, "retriever") and
     hasattr(self.query_engine.retriever, "filters")] *)
Definition has_filter_slot (qe : QueryEngine) : bool :=
  match retriever qe with
  | Some r => bool_decide (is_Some (filters r))
  | None => false
  end.

(** The engine with [v] in the filter slot of its retriever. *)
Definition with_filters (v : option MetadataFilters) (qe : QueryEngine)
  : QueryEngine :=
  {| retriever := Some {| filters := Some v |};
     qe_index := qe_index qe; qe_llm := qe_llm qe;
     similarity_top_k := similarity_top_k qe;
     vector_store_query_mode := vector_store_query_mode qe;
     vector_store_kwargs := vector_store_kwargs qe;
     node_postprocessors := node_postprocessors qe |}.

Definition with_query_engine (qe : QueryEngine) (e : RAGQueryEngine)
  : RAGQueryEngine :=
  {| vector_index := vector_index e; llm := llm e;
     embed_model := embed_model e; service_context := service_context e;
     pgvector_options := pgvector_options e; query_engine := qe |}.

(** [self.query_engine.retriever.filters = v] *)
Definition set_filters (v : option MetadataFilters) : M unit :=
  modify (fun s =>
    {| self := with_query_engine (with_filters v (query_engine (self s))) (self s);
       log := log s |}).

(** [RAGQueryEngine.apply_filter], lines 78-90. *)
Definition apply_filter (metadata_filters : MetadataFilters) : M unit :=
  s ← get;
  if has_filter_slot (query_engine (self s)) then
    set_filters (Some metadata_filters);;
    logger INFO (FilterApplied metadata_filters)
  else logger WARNING FilterUnsupported.

(** The citation dictionary of lines 125-129. *)
Definition citation (n : NodeWithScore) : list (string * citation_value) :=
  [ ("content", CStr (text (node n)));
    ("score", CFloat (score n));
    ("metadata", CMetadata (metadata (node n))) ].

(** [RAGQueryEngine.query], lines 92-138. A [MetadataFilters] object is
    truthy, so [if filters] tells [None] from a filter; [original_filters]
    is [None] both when nothing was saved and when the saved slot held
    [None]. *)
Definition query (query_str : string) (filters : option MetadataFilters)
  : M (list (string * result_value)) :=
  try_except
    (logger INFO (QueryReceived query_str);;
     s ← get;
     original_filters ←
       (match filters with
        | Some f =>
            if has_filter_slot (query_engine (self s)) then
              let saved := active_filters (query_engine (self s)) in
              set_filters (Some f);;
              mret saved
            else mret None
        | None => mret None
        end);
     s ← get;
     response ←
       (match engine_query (query_engine (self s)) query_str with
        | Ok r => mret r
        | Raise e => raise e
        end);
     s ← get;
     (match filters, original_filters, retriever (query_engine (self s)) with
      | Some _, Some saved, Some _ => set_filters (Some saved)
      | _, _, _ => mret tt
      end);;
     let source_nodes := default [] (source_nodes response) in
     let formatted_citations := map citation source_nodes in
     mret [ ("response", RStr (response_str response));
            ("citations", RList formatted_citations) ])
    (fun e => logger ERROR (QueryFailed e);; raise e).

(** The filter slot [query_engine.retriever.filters] of an engine. *)
Definition filter_slot (e : RAGQueryEngine) : option (option MetadataFilters) :=
  match retriever (query_engine e) with
  | Some r => filters r
  | None => None
  end.

(** The framework engine a call [query(query_str, filters)] runs on: the
    per-call filter is in place when the engine has a filter slot. *)
Definition engine_at_query (filters : option MetadataFilters) (qe : QueryEngine)
  : QueryEngine :=
  match filters with
  | Some f => if has_filter_slot qe then with_filters (Some f) qe else qe
  | None => qe
  end.

(** What a caller does with an engine. *)
Inductive call :=
| CallQuery (query_str : string) (filters : option MetadataFilters)
| CallApplyFilter (metadata_filters : MetadataFilters).

(** The engine and its log after a call, whether the call returned or
    raised. *)
Definition after_call (c : call) (s : state) : state :=
  match c with
  | CallQuery q fs => snd (query q fs s)
  | CallApplyFilter f => snd (apply_filter f s)
  end.

Definition after_calls (history : list call) (s : state) : state :=
  fold_left (fun s c => after_call c s) history s.

(** An engine that retrieves at most [k] chunks and discards those scored
    below [c]. *)
Definition configured (k : nat) (c : Q) (e : RAGQueryEngine) : Prop :=
  similarity_top_k (query_engine e) = k /\
  node_postprocessors (query_engine e) = [ {| similarity_cutoff := c |} ].

End Retriever.

(** ** Classes of configured dimensions *)




(** ** Concrete inputs used by the examples below *)

Module Fixtures.
Import PGVector.

Definition chunk (id body doc : string) : BaseNode :=
  {| node_id := id; text := body; ref_doc_id := doc;
     metadata := {[ "file_name" := doc ]} |}.

Definition chunk_a := chunk "n1" "alpha" "a.pdf".
Definition chunk_b := chunk "n2" "beta" "a.pdf".
Definition chunk_c := chunk "n3" "gamma" "b.pdf".

Definition url : string := "postgresql://u:p@localhost:5432/kb".

(** A manager as [__init__] leaves it. *)
Definition new_manager : PGVectorManager :=
  {| table_name := "pdf_documents"; connection_string := url;
     embed_dim := DimInt 1536; vector_store := None;
     storage_context := None; index := None; conn := None |}.

(** A database holding the table with two rows, extension installed. *)
Definition two_rows : gmap string (list BaseNode) :=
  {[ "pdf_documents" := [chunk_a; chunk_b] ]}.

Definition no_init_faults : init_faults :=
  {| connect_fails := None; extension_cursor_fails := None;
     extension_fails := None; from_params_fails := None;
     check_cursor_fails := None; table_check_fails := None;
     create_table_fails := None; storage_context_fails := None |}.

Definition no_clear_faults : clear_faults :=
  {| delete_fails := None; clear_cursor_fails := None; truncate_fails := None |}.

Definition no_count_faults : count_faults :=
  {| count_cursor_fails := None; exists_fails := None; count_fails := None |}.

(** The bulk delete raises; the fallback is free to work. *)
Definition delete_raises : clear_faults :=
  {| delete_fails := Some "delete() got an unexpected keyword argument";
     clear_cursor_fails := None; truncate_fails := None |}.

(** Both the bulk delete and the truncate raise. *)
Definition delete_and_truncate_raise : clear_faults :=
  {| delete_fails := Some "delete() got an unexpected keyword argument";
     clear_cursor_fails := None;
     truncate_fails := Some "permission denied for table pdf_documents" |}.

(** The vector-store client cannot be constructed. *)
Definition client_fails : init_faults :=
  {| connect_fails := None; extension_cursor_fails := None;
     extension_fails := None;
     from_params_fails := Some "could not connect to server";
     check_cursor_fails := None; table_check_fails := None;
     create_table_fails := None; storage_context_fails := None |}.

(** The extension and the table cannot be created. *)
Definition extension_and_table_fail : init_faults :=
  {| connect_fails := None; extension_cursor_fails := None;
     extension_fails := Some "permission denied to create extension";
     from_params_fails := None;
     check_cursor_fails := None; table_check_fails := None;
     create_table_fails := Some "permission denied for schema public";
     storage_context_fails := None |}.

Definition no_index_faults : index_faults :=
  {| index_init := no_init_faults; build_fails := None |}.

Definition connection_failure : init_faults :=
  {| connect_fails := Some "connection refused";
     extension_cursor_fails := None;
     extension_fails := None; from_params_fails := None;
     check_cursor_fails := None; table_check_fails := None;
     create_table_fails := None; storage_context_fails := None |}.

Definition store_handle : PGVectorStore :=
  {| vs_table_name := "pdf_documents"; vs_embed_dim := DimInt 1536;
     vs_hybrid_search := true; vs_text_search_config := "chinese" |}.

(** The manager as a fault-free [initialize] leaves it. *)
Definition ready_manager : PGVectorManager :=
  {| table_name := "pdf_documents"; connection_string := url;
     embed_dim := DimInt 1536; vector_store := Some store_handle;
     storage_context := Some {| sc_vector_store := Some store_handle |};
     index := None;
     conn := Some {| closed := false; autocommit := true |} |}.

(** The manager as [initialize] leaves it when the auxiliary connection
    could not be opened. *)
Definition ready_manager_without_connection : PGVectorManager :=
  {| table_name := "pdf_documents"; connection_string := url;
     embed_dim := DimInt 1536; vector_store := Some store_handle;
     storage_context := Some {| sc_vector_store := Some store_handle |};
     index := None; conn := None |}.

Definition ready : state := fresh ready_manager two_rows true.
Definition ready_without_connection : state :=
  fresh ready_manager_without_connection two_rows true.

(** Three retrieved chunks, as in the end-to-end scenario: scores 0.9,
    0.75 and 0.5. *)
Definition hit_a : Retriever.NodeWithScore :=
  {| Retriever.node := chunk_a; Retriever.score := 9 # 10 |}.
Definition hit_b : Retriever.NodeWithScore :=
  {| Retriever.node := chunk_b; Retriever.score := 3 # 4 |}.
Definition hit_c : Retriever.NodeWithScore :=
  {| Retriever.node := chunk_c; Retriever.score := 1 # 2 |}.

(** A chunk passes a filter when its metadata has every required value. *)
Definition passes (f : option Retriever.MetadataFilters)
    (n : Retriever.NodeWithScore) : bool :=
  match f with
  | None => true
  | Some f =>
      forallb (fun kv => bool_decide (metadata (Retriever.node n) !! fst kv = Some (snd kv)))
              (Retriever.required f)
  end.

(** An index over the three chunks that honours the active filter. *)
Definition small_index : Retriever.VectorStoreIndex :=
  {| Retriever.ranked_matches := fun _ _ f _ =>
       Ok (List.filter (passes f) [hit_a; hit_b; hit_c]) |}.

Definition fixed_llm : Retriever.LLM :=
  {| Retriever.complete := fun _ _ => Ok "an answer" |}.

Definition failing_llm : Retriever.LLM :=
  {| Retriever.complete := fun _ _ => Raise "rate limit exceeded" |}.

Definition embedder : Retriever.BaseEmbedding :=
  {| Retriever.model_name := "text-embedding-3-small" |}.

Definition only_b_pdf : Retriever.MetadataFilters :=
  {| Retriever.required := [("file_name", "b.pdf")] |}.
Definition only_a_pdf : Retriever.MetadataFilters :=
  {| Retriever.required := [("file_name", "a.pdf")] |}.

(** The retriever of a framework engine built without filters: a filter
    slot that holds [None]. *)
Definition unfiltered_retriever : Retriever.BaseRetriever :=
  {| Retriever.filters := Some None |}.

(** The engine built by [RAGQueryEngine.__init__] with its default
    arguments over [small_index], answering through [l]. *)
Definition engine_over (l : Retriever.LLM) : result Retriever.RAGQueryEngine :=
  fst (Retriever.__init__ small_index l embedder None
         Retriever.default_similarity_top_k Retriever.default_similarity_cutoff
         Retriever.default_vector_store_query_mode None
         (Ok (Some unfiltered_retriever))).

(** The same engine, written out. *)
Definition default_engine (l : Retriever.LLM) : Retriever.RAGQueryEngine :=
  {| Retriever.vector_index := small_index;
     Retriever.llm := l;
     Retriever.embed_model := embedder;
     Retriever.service_context := None;
     Retriever.pgvector_options := Retriever.default_pgvector_options;
     Retriever.query_engine :=
       {| Retriever.retriever := Some unfiltered_retriever;
          Retriever.qe_index := small_index;
          Retriever.qe_llm := l;
          Retriever.similarity_top_k := 4;
          Retriever.vector_store_query_mode := "hybrid";
          Retriever.vector_store_kwargs := Retriever.default_pgvector_options;
          Retriever.node_postprocessors :=
            [ {| Retriever.similarity_cutoff := 7 # 10 |} ] |} |}.

Definition started (e : Retriever.RAGQueryEngine) : Retriever.state :=
  {| Retriever.self := e; Retriever.log := [] |}.

End Fixtures.

(** ** Decimal numerals *)

(** [str(n)] for an [int]: its decimal numeral. *)
Definition py_str (n : Z) : string := NilEmpty.string_of_int (Z.to_int n).

(** The number of digits of the numeral of [n]. *)
Definition nb_digits (n : Z) : nat := String.length (py_str (Z.abs n)).

Module Numeral.

(** The code points of an unsigned numeral. *)
Definition digits (d : Decimal.uint) : list N :=
  Text.bytes (NilEmpty.string_of_uint d).

(** The ten digits of ASCII. *)
Definition is_digit (c : N) : Prop := (48 <= c <= 57)%N.

End Numeral.

(** ** [app/utils/config.py]: the [Config] class *)

Module Settings.

(** Lines 16-23. *)
Definition VALID_OPENAI_MODELS : list string :=
  [ "gpt-4"; "gpt-4-32k"; "gpt-4-1106-preview"; "gpt-4-0125-preview";
    "gpt-4-turbo-preview"; "gpt-4-vision-preview"; "gpt-4-0613";
    "gpt-4-32k-0613"; "gpt-4-0314"; "gpt-4-32k-0314"; "gpt-3.5-turbo";
    "gpt-3.5-turbo-16k"; "gpt-3.5-turbo-0125"; "gpt-3.5-turbo-1106";
    "gpt-3.5-turbo-0613"; "gpt-3.5-turbo-16k-0613"; "gpt-3.5-turbo-0301";
    "text-davinci-003"; "text-davinci-002"; "gpt-3.5-turbo-instruct" ].

Definition DEFAULT_OPENAI_MODEL : string := "gpt-3.5-turbo".

(** The class attributes once the class body has run. *)
Record Config := {
  PGVECTOR_URL : option string;
  OPENAI_API_KEY : option string;
  OPENAI_MODEL_NAME : string;
  OPENAI_EMBEDDING_MODEL_NAME : string;
  OPENAI_EMBEDDING_MODEL_DIM : Z;
  APP_PORT : Z;
  APP_HOST : string;
  CHUNK_SIZE : Z;
  CHUNK_OVERLAP : Z;
}.

(** What the class writes to standard output. *)
Inductive printed :=
| DimWarning (w : Config.printed)          (* lines 51, 54 *)
| InvalidModelName (name : string).        (* line 76 *)

(** [os.getenv(k, d)] on the environment [env], the variables of the
    process once [load_dotenv()] has added those of the [.env] file. *)
Definition getenv (env : gmap string string) (k : string) (d : string) : string :=
  default d (env !! k).

(** [x in VALID_OPENAI_MODELS] *)
Definition valid_model (name : string) : bool :=
  bool_decide (name ∈ VALID_OPENAI_MODELS).

(** [int(os.getenv(k, d))]: the value, or the [ValueError] of [int]. *)
Definition getenv_int (env : gmap string string) (k d : string) : result Z :=
  match Config.py_int (getenv env k d) with
  | Some n => Ok n
  | None => Raise "invalid literal for int() with base 10"
  end.

(** The class body, lines 15-63: the attributes, or the exception that
    stops the import, and what was printed. *)
Definition load (env : gmap string string) : result Config * list printed :=
  let _model_name := getenv env "OPENAI_MODEL_NAME" DEFAULT_OPENAI_MODEL in
  let model := if valid_model _model_name then _model_name else DEFAULT_OPENAI_MODEL in
  let dim := Config.OPENAI_EMBEDDING_MODEL_DIM (env !! "OPENAI_EMBEDDING_MODEL_DIM") in
  let out := map DimWarning (snd dim) in
  match getenv_int env "APP_PORT" "7860" with
  | Raise e => (Raise e, out)
  | Ok port =>
      match getenv_int env "CHUNK_SIZE" "1000" with
      | Raise e => (Raise e, out)
      | Ok size =>
          match getenv_int env "CHUNK_OVERLAP" "200" with
          | Raise e => (Raise e, out)
          | Ok overlap =>
              (Ok {| PGVECTOR_URL := env !! "PGVECTOR_URL";
                     OPENAI_API_KEY := env !! "OPENAI_API_KEY";
                     OPENAI_MODEL_NAME := model;
                     OPENAI_EMBEDDING_MODEL_NAME :=
                       getenv env "OPENAI_EMBEDDING_MODEL_NAME" "text-embedding-3-small";
                     OPENAI_EMBEDDING_MODEL_DIM := fst dim;
                     APP_PORT := port;
                     APP_HOST := getenv env "APP_HOST" "0.0.0.0";
                     CHUNK_SIZE := size;
                     CHUNK_OVERLAP := overlap |}, out)
          end
      end
  end.

(** [not x] for an attribute read with [os.getenv]: unset or empty. *)
Definition unset (x : option string) : bool :=
  match x with
  | None | Some EmptyString => true
  | Some _ => false
  end.

Definition with_model_name (name : string) (c : Config) : Config :=
  {| PGVECTOR_URL := PGVECTOR_URL c; OPENAI_API_KEY := OPENAI_API_KEY c;
     OPENAI_MODEL_NAME := name;
     OPENAI_EMBEDDING_MODEL_NAME := OPENAI_EMBEDDING_MODEL_NAME c;
     OPENAI_EMBEDDING_MODEL_DIM := OPENAI_EMBEDDING_MODEL_DIM c;
     APP_PORT := APP_PORT c; APP_HOST := APP_HOST c;
     CHUNK_SIZE := CHUNK_SIZE c; CHUNK_OVERLAP := CHUNK_OVERLAP c |}.

(** [Config.validate_config], lines 65-78: the outcome, the class
    attributes afterwards, and what was printed. *)
Definition validate_config (c : Config) : result unit * Config * list printed :=
  if unset (OPENAI_API_KEY c) then (Raise "OPENAI_API_KEY is not set", c, [])
  else if unset (PGVECTOR_URL c) then (Raise "PGVECTOR_URL is not set", c, [])
  else if negb (valid_model (OPENAI_MODEL_NAME c)) then
    (Ok tt, with_model_name DEFAULT_OPENAI_MODEL c,
     [InvalidModelName (OPENAI_MODEL_NAME c)])
  else (Ok tt, c, []).

(** [Config.get_active_llm_config], lines 80-92. *)
Definition get_active_llm_config (c : Config) : result (list (string * string)) :=
  if unset (OPENAI_API_KEY c) then Raise "no LLM configuration found"
  else Ok [ ("api_key", default EmptyString (OPENAI_API_KEY c));
            ("model_name", OPENAI_MODEL_NAME c);
            ("provider", "openai") ].

End Settings.

(** ** States of the manager *)

Module PGVectorStates.
Import PGVector.

(** The rows of a table, and the name of the manager's table. *)
Definition holds_rows (t : string) (rows : list BaseNode) (s : state) : Prop :=
  tables s !! t = Some rows.

Definition absent_or_new (n t : string) (s : state) : Prop :=
  table_name (self s) = n /\
  (tables s !! t = None \/ (t = n /\ tables s !! t = Some [])).

(** The connection [initialize] leaves in [self.conn]. *)
Definition connection_after (f : init_faults) : option connection :=
  match connect_fails f with
  | None => Some {| closed := false; autocommit := true |}
  | Some _ => None
  end.

Definition never_closed (s : state) : Prop := Close ∉ trace s.

(** The manager a fault-free [initialize] leaves. *)
Definition after_initialize (m : PGVectorManager) : PGVectorManager :=
  let d := if valid_embed_dim (embed_dim m) then embed_dim m else DimInt 1536 in
  let vs := {| vs_table_name := table_name m; vs_embed_dim := d;
               vs_hybrid_search := true; vs_text_search_config := "chinese" |} in
  {| table_name := table_name m; connection_string := connection_string m;
     embed_dim := d; vector_store := Some vs;
     storage_context := Some {| sc_vector_store := Some vs |};
     index := index m;
     conn := Some {| closed := false; autocommit := true |} |}.

(** The tables a fault-free [initialize] leaves. *)
Definition with_table (t : string) (tb : gmap string (list BaseNode))
  : gmap string (list BaseNode) :=
  match tb !! t with
  | Some _ => tb
  | None => <[t := []]> tb
  end.

Definition repaired_dim (m : PGVectorManager) : dim_value :=
  if valid_embed_dim (embed_dim m) then embed_dim m else DimInt 1536.

(** The manager works with dimension [n] and has never complained about
    its dimension. *)
Definition uses_dim (n : Z) (s : state) : Prop :=
  embed_dim (self s) = DimInt n /\
  (forall vs, vector_store (self s) = Some vs -> vs_embed_dim vs = DimInt n) /\
  (forall d, Log WARNING (InvalidEmbedDim d) ∉ trace s).

End PGVectorStates.

(** ** [app/web/gradio_interface.py]: [GradioInterface] *)

Module Web.

(** *** Names and paths of uploaded files

    A file name is a Python [str], here the list of the code points of its
    characters ([ord(c)]). *)

Definition of_string (s : string) : list N :=
  map N_of_ascii (list_ascii_of_string s).

Definition underscore : N := 95.

(** The separator of [os.path]. *)
Definition sep : N := 47.

(** Line 113: every character outside ASCII becomes an underscore. *)
Definition safe_filename (filename : list N) : list N :=
  map (fun c => if (c <? 128)%N then c else underscore) filename.

Fixpoint lstrip_char (ch : N) (s : list N) : list N :=
  match s with
  | c :: r => if (c =? ch)%N then lstrip_char ch r else s
  | [] => []
  end.

(** [s.strip(ch)] for a single character [ch]. *)
Definition strip_char (ch : N) (s : list N) : list N :=
  rev (lstrip_char ch (rev (lstrip_char ch s))).

(** [s.lower()] on a name of ASCII characters, which the name is where
    line 129 lowers it. *)
Definition lower (s : list N) : list N :=
  map (fun c => if ((65 <=? c) && (c <=? 90))%N then (c + 32)%N else c) s.

(** [s.endswith(suffix)] *)
Definition endswith (s suffix : list N) : bool :=
  bool_decide (suffix `suffix_of` s).

(** The names built from [int(time.time())], lines 107, 121. *)
Definition stamped (prefix : string) (timestamp : Z) : list N :=
  of_string prefix ++ of_string (py_str timestamp) ++ of_string ".pdf".

(** Lines 110-130, for a name that is a [str] (nothing in the [try] of
    lines 111-122 raises on one): the name under which the file is saved.
    [timestamp] is the clock where line 120 reads it. *)
Definition pdf_name (timestamp : Z) (filename : list N) : list N :=
  let filename :=
    if bool_decide (safe_filename filename <> filename)
    then safe_filename filename else filename in
  let filename :=
    if bool_decide (strip_char underscore filename = [])
    then stamped "chinese_filename_" timestamp else filename in
  if negb (endswith (lower filename) (of_string ".pdf"))
  then filename ++ of_string ".pdf" else filename.

(** What [upload_pdf] looks at in an uploaded object to name it. *)
Inductive file_obj :=
| WithName (name : list N)            (* an object with a [name] attribute *)
| PathTuple (items : list (list N))   (* a tuple (of paths) *)
| Mapping (name : option (list N))    (* a dict, with its ['name'] entry if any *)
| Unnamed.                            (* anything else *)

(** [os.path.basename(p)]: what follows the last separator. *)
Definition basename (p : list N) : list N :=
  fold_left (fun acc c => if (c =? sep)%N then [] else acc ++ [c]) p [].

(** Lines 95-108. *)
Definition file_name (timestamp : Z) (f : file_obj) : list N :=
  match f with
  | WithName name => name
  | PathTuple (_ :: p :: _) => basename p
  | Mapping (Some name) => name
  | _ => stamped "uploaded_file_" timestamp
  end.

(** [os.path.join(a, b)] *)
Definition path_join (a b : list N) : list N :=
  match b with
  | c :: _ =>
      if (c =? sep)%N then b
      else if bool_decide (a = []) || endswith a [sep] then a ++ b
      else a ++ [sep] ++ b
  | [] => if bool_decide (a = []) || endswith a [sep] then a else a ++ [sep]
  end.

(** Line 133: where the upload is saved. At most one of the two clock
    readings of lines 106 and 120 happens for a file (a generated name is
    not made of underscores), so one [timestamp] stands for both. *)
Definition file_path (temp_dir : list N) (timestamp : Z) (f : file_obj) : list N :=
  path_join temp_dir (pdf_name timestamp (file_name timestamp f)).

(** A name of ASCII characters. *)
Definition ascii_only (s : list N) : Prop := Forall (fun c => (c < 128)%N) s.

(** Two names that differ at most where neither has an ASCII character. *)
Definition same_ascii (s1 s2 : list N) : Prop :=
  Forall2 (fun a b => a = b \/ ((128 <= a)%N /\ (128 <= b)%N)) s1 s2.

(** A name without a path separator. *)
Definition no_sep (s : list N) : Prop := Forall (fun c => c <> sep) s.

(** *** The interface object and what surrounds it

    The knowledge base ([app.core.knowledge_base.KnowledgeBase]), the file
    system, the clock and the Gradio server are outside this class: their
    operations are taken as given, each one free to return or to raise and
    to change the world [W] it lives in. A knowledge base, of type [K], is
    an object that is true in a condition. [read_upload] stands for lines
    142-192, which pick a way to read the upload by the type it has at run
    time, log which, and end with its content or with an exception. *)

Record Outside (K W : Type) := {
  KnowledgeBase : bool -> exec W K;                   (* [KnowledgeBase(rebuild=b)] *)
  get_status : K -> exec W (option Z);                (* [get_status()], then its ['document_count'] entry if any *)
  add_pdf_document : K -> list N -> exec W unit;
  add_pdf_documents_from_dir : K -> string -> exec W unit;
  kb_query : K -> string -> exec W (list (string * Retriever.result_value));
  kb_clear_knowledge_base : K -> exec W unit;
  mkdtemp : exec W (list N);                          (* [tempfile.mkdtemp()] *)
  clock : W -> Z;                                     (* [int(time.time())] *)
  read_upload : file_obj -> exec W string;            (* the content of an upload *)
  write_file : list N -> string -> exec W unit;       (* [open(path, "wb")], [f.write(content)] *)
  blocks : exec W unit;                               (* the [gr.Blocks] of [create_gradio_interface] *)
  gr_launch : option string -> Z -> exec W unit;      (* [interface.launch(server_name, server_port, share=True)] *)
  gr_close_all : exec W unit;
  gr_queue : exec W unit;                             (* [interface.queue(concurrency_count=1)] *)
}.
Arguments KnowledgeBase {K W} o rebuild.
Arguments get_status {K W} o k.
Arguments add_pdf_document {K W} o k path.
Arguments add_pdf_documents_from_dir {K W} o k dir.
Arguments kb_query {K W} o k q.
Arguments kb_clear_knowledge_base {K W} o k.
Arguments mkdtemp {K W} o.
Arguments clock {K W} o w.
Arguments read_upload {K W} o f.
Arguments write_file {K W} o path content.
Arguments blocks {K W} o.
Arguments gr_launch {K W} o host port.
Arguments gr_close_all {K W} o.
Arguments gr_queue {K W} o.

Inductive status_word := Success | Failure | PartialSuccess.

(** The texts under ["message"]. *)
Inductive notice :=
| InitDone (count : Z)                        (* line 53 *)
| InitFailed (e : exn)                        (* line 57 *)
| NoFilesChosen                               (* line 70 *)
| CannotUpload                                (* line 85 *)
| AllFilesFailed                              (* line 232 *)
| UploadedNoStatus (n : nat)                  (* line 237 *)
| Uploaded (n : nat) (count : Z)              (* line 243 *)
| UploadedStatusFailed (n : nat) (e : exn)    (* line 249 *)
| UploadFailed (e : exn)                      (* line 253 *)
| NoDirectory                                 (* line 266 *)
| DirectoryDone (dir : string) (count : Z)    (* line 278 *)
| DirectoryFailed (e : exn)                   (* line 282 *)
| NotInitialized                              (* line 334 *)
| Cleared                                     (* line 337 *)
| ClearFailed (e : exn).                      (* line 340 *)

(** The dictionary [{"status": ..., "message": ...}]. *)
Record info := { status : status_word; message : notice }.

Inductive log_msg :=
| TempDir (d : list N)                        (* lines 24-25 *)
| Initializing                                (* lines 40-41 *)
| Initialized (count : Z)                     (* lines 50-51 *)
| InitializeFailed (e : exn)                  (* lines 55-56 *)
| TryingToInitialize                          (* lines 75-76 *)
| CannotUploadUninitialized                   (* lines 83-84 *)
| FileObjectType (f : file_obj)               (* lines 90-91 *)
| NameFromAttribute (n : list N)              (* line 97 *)
| NameFromTuple (n : list N)                  (* line 100 *)
| NameFromDict (n : list N)                   (* line 103 *)
| NameGenerated (n : list N)                  (* line 108 *)
| NameSanitised (old new : list N)            (* line 115 *)
| NameReplaced (n : list N)                   (* line 122 *)
| SavingTo (p : list N)                       (* line 134 *)
| FileObjectDetails (f : file_obj)            (* line 140 *)
| ReadFailed (e : exn)                        (* line 194 *)
| FileSaved (p : list N)                      (* line 201 *)
| SavedAt (p : list N)                        (* lines 205-206 *)
| KnowledgeBaseGone                           (* lines 210-211 *)
| ReinitializeFailed                          (* lines 215-216 *)
| AddingDocument (p : list N)                 (* lines 220-221 *)
| DocumentAdded                               (* lines 223-224 *)
| FileFailed (e : exn)                        (* lines 227-228 *)
| NoStatusAfterUpload                         (* line 236 *)
| StatusFailed (e : exn)                      (* line 247 *)
| UploadError (e : exn)                       (* line 252 *)
| DirectoryError (e : exn)                    (* line 281 *)
| QueryError (e : exn)                        (* line 322 *)
| ClearError (e : exn)                        (* line 339 *)
| Launching (host : string) (port : Z)        (* line 429 *)
| LaunchFailed (e : exn)                      (* line 440 *)
| TryingFallback.                             (* line 442 *)

(** Calls that leave the class. *)
Inductive call :=
| NewKnowledgeBase (rebuild : bool)
| GetStatus
| AddPdfDocument (path : list N)
| AddPdfDocumentsFromDir (dir : string)
| Query (q : string)
| ClearKnowledgeBase
| Mkdtemp
| ReadUpload (f : file_obj)
| WriteFile (path : list N)
| Blocks
| Launch (host : option string) (port : Z)
| CloseAll
| Queue.

Inductive event :=
| Log (l : level) (m : log_msg)
| Printed (m : log_msg)
| Called (c : call).

(** The attributes of a [GradioInterface]; [temp_dir] is unset until
    [__init__] has made the directory. *)
Record GradioInterface (K : Type) := {
  knowledge_base : option K;
  temp_dir : option (list N);
}.
Arguments knowledge_base {K} g.
Arguments temp_dir {K} g.

(** The object, the world outside, what has been logged, printed and
    called so far, and the list [file_paths] of [upload_pdf]: a path
    appended to it at line 202 stays in it when a later line of the same
    iteration raises. *)
Record state (K W : Type) := {
  self : GradioInterface K;
  outside : W;
  trace : list event;
  file_paths : list (list N);
}.
Arguments self {K W} s.
Arguments outside {K W} s.
Arguments trace {K W} s.
Arguments file_paths {K W} s.

(** What [query_knowledge_base] returns first: the answer, or one of its
    own texts. *)
Inductive answer :=
| Answer (v : Retriever.result_value)         (* the ["response"] entry of the result *)
| EnterQuery                                  (* line 295 *)
| UploadFirst                                 (* line 299 *)
| QueryFailed (e : exn).                      (* line 323 *)

(** The pieces of [formatted_citations], in the order they are appended:
    the heading of line 312, and for each citation the title of line 317
    with its number and file name ([None]: the "unknown file" default) and
    the body of line 318 with its content ([None]: the empty default). *)
Inductive piece :=
| Heading
| Title (number : nat) (file_name : option string)
| Body (content : option Retriever.citation_value).

Section Interface.
Context {K W : Type} (o : Outside K W).

Abbreviation M := (exec (state K W)).

Definition emit (e : event) : M unit :=
  modify (fun s => {| self := self s; outside := outside s;
                      trace := trace s ++ [e]; file_paths := file_paths s |}).

Definition log (l : level) (m : log_msg) : M unit := emit (Log l m).

(** A [logger] call followed by the [print] of the same line. *)
Definition say (l : level) (m : log_msg) : M unit := log l m;; emit (Printed m).

(** A call [c] to an operation of the outside. *)
Definition outside_call {A} (c : call) (op : exec W A) : M A :=
  fun s =>
    let r := op (outside s) in
    (fst r, {| self := self s; outside := snd r;
               trace := trace s ++ [Called c]; file_paths := file_paths s |}).

Definition set_knowledge_base (k : K) : M unit :=
  modify (fun s => {| self := {| knowledge_base := Some k;
                                 temp_dir := temp_dir (self s) |};
                      outside := outside s; trace := trace s;
                      file_paths := file_paths s |}).

Definition set_temp_dir (d : list N) : M unit :=
  modify (fun s => {| self := {| knowledge_base := knowledge_base (self s);
                                 temp_dir := Some d |};
                      outside := outside s; trace := trace s;
                      file_paths := file_paths s |}).

Definition set_file_paths (l : list (list N)) : M unit :=
  modify (fun s => {| self := self s; outside := outside s; trace := trace s;
                      file_paths := l |}).

(** [kb.get_status()['document_count']] *)
Definition document_count (k : K) : M Z :=
  st ← outside_call GetStatus (get_status o k);
  match st with
  | Some n => mret n
  | None => raise "KeyError: 'document_count'"
  end.

(** [initialize_knowledge_base], lines 28-57. *)
Definition initialize_knowledge_base (rebuild : bool) : M info :=
  try_except
    (say INFO Initializing;;
     k ← outside_call (NewKnowledgeBase rebuild) (KnowledgeBase o rebuild);
     set_knowledge_base k;;
     s ← get;
     match knowledge_base (self s) with
     | None => raise "knowledge base is None after initialization"
     | Some k =>
         count ← document_count k;
         say INFO (Initialized count);;
         mret {| status := Success; message := InitDone count |}
     end)
    (fun e =>
       say ERROR (InitializeFailed e);;
       mret {| status := Failure; message := InitFailed e |}).

(** [GradioInterface()], lines 20-26, on the object before its attributes
    are set. *)
Definition __init__ : M unit :=
  modify (fun s => {| self := {| knowledge_base := None; temp_dir := temp_dir (self s) |};
                      outside := outside s; trace := trace s;
                      file_paths := file_paths s |});;
  d ← outside_call Mkdtemp (mkdtemp o);
  set_temp_dir d;;
  say INFO (TempDir d);;
  initialize_knowledge_base false;;
  mret tt.

(** Lines 95-130 with their log lines: the name of the upload, which is
    [pdf_name] of [file_name]. *)
Definition choose_name (f : file_obj) : M (list N) :=
  s ← get;
  let timestamp := clock o (outside s) in
  let filename := file_name timestamp f in
  log INFO (match f with
            | WithName _ => NameFromAttribute filename
            | PathTuple (_ :: _ :: _) => NameFromTuple filename
            | Mapping (Some _) => NameFromDict filename
            | _ => NameGenerated filename
            end);;
  let safe := safe_filename filename in
  filename ←
    (if bool_decide (safe <> filename)
     then log INFO (NameSanitised filename safe);; mret safe
     else mret filename);
  filename ←
    (if bool_decide (strip_char underscore filename = [])
     then s ← get;
          let filename := stamped "chinese_filename_" (clock o (outside s)) in
          log INFO (NameReplaced filename);; mret filename
     else mret filename);
  mret (if negb (endswith (lower filename) (of_string ".pdf"))
        then filename ++ of_string ".pdf" else filename).

(** One iteration of the loop of [upload_pdf], lines 88-229. An iteration
    that reaches [continue] ends like one that reaches its last line. *)
Definition upload_file (file_obj : file_obj) : M unit :=
  say INFO (FileObjectType file_obj);;
  try_except
    (filename ← choose_name file_obj;
     s ← get;
     dir ← match temp_dir (self s) with
           | Some d => mret d
           | None => raise "AttributeError: 'GradioInterface' object has no attribute 'temp_dir'"
           end;
     let file_path := path_join dir filename in
     log INFO (SavingTo file_path);;
     log INFO (FileObjectDetails file_obj);;
     file_content ←
       try_except (outside_call (ReadUpload file_obj) (read_upload o file_obj))
                  (fun e => log ERROR (ReadFailed e);; raise e);
     outside_call (WriteFile file_path) (write_file o file_path file_content);;
     log INFO (FileSaved file_path);;
     s ← get;
     set_file_paths (file_paths s ++ [file_path]);;
     say INFO (SavedAt file_path);;
     s ← get;
     usable ←
       match knowledge_base (self s) with
       | Some _ => mret true
       | None =>
           say ERROR KnowledgeBaseGone;;
           initialize_knowledge_base false;;
           s ← get;
           match knowledge_base (self s) with
           | Some _ => mret true
           | None => say ERROR ReinitializeFailed;; mret false
           end
       end;
     if usable : bool then
       s ← get;
       say INFO (AddingDocument file_path);;
       match knowledge_base (self s) with
       | Some k =>
           outside_call (AddPdfDocument file_path) (add_pdf_document o k file_path)
       | None => raise "AttributeError: 'NoneType' object has no attribute 'add_pdf_document'"
       end;;
       say INFO DocumentAdded
     else mret tt)
    (fun e => say ERROR (FileFailed e)).

(** The loop of lines 88-229. *)
Fixpoint upload_files (files : list file_obj) : M unit :=
  match files with
  | [] => mret tt
  | file_obj :: rest => upload_file file_obj;; upload_files rest
  end.

(** [upload_pdf], lines 59-253. [files] is [None] when nothing was chosen. *)
Definition upload_pdf (files : option (list file_obj)) : M info :=
  match files with
  | None | Some [] => mret {| status := Failure; message := NoFilesChosen |}
  | Some files =>
      try_except
        (s ← get;
         refused ←
           match knowledge_base (self s) with
           | Some _ => mret None
           | None =>
               say INFO TryingToInitialize;;
               init_result ← initialize_knowledge_base false;
               mret (match status init_result with
                     | Failure => Some init_result
                     | _ => None
                     end)
           end;
         match refused with
         | Some init_result => mret init_result
         | None =>
             s ← get;
             match knowledge_base (self s) with
             | None =>
                 say ERROR CannotUploadUninitialized;;
                 mret {| status := Failure; message := CannotUpload |}
             | Some _ =>
                 set_file_paths [];;
                 upload_files files;;
                 s ← get;
                 match file_paths s with
                 | [] => mret {| status := Failure; message := AllFilesFailed |}
                 | _ :: _ =>
                     match knowledge_base (self s) with
                     | None =>
                         log ERROR NoStatusAfterUpload;;
                         mret {| status := PartialSuccess;
                                 message := UploadedNoStatus (length (file_paths s)) |}
                     | Some k =>
                         try_except
                           (count ← document_count k;
                            mret {| status := Success;
                                    message := Uploaded (length (file_paths s)) count |})
                           (fun e =>
                              log ERROR (StatusFailed e);;
                              mret {| status := PartialSuccess;
                                      message := UploadedStatusFailed
                                                   (length (file_paths s)) e |})
                     end
                 end
             end
         end)
        (fun e =>
           log ERROR (UploadError e);;
           mret {| status := Failure; message := UploadFailed e |})
  end.

(** [process_directory], lines 255-282. *)
Definition process_directory (dir_path : option string) : M info :=
  match dir_path with
  | None | Some EmptyString => mret {| status := Failure; message := NoDirectory |}
  | Some dir_path =>
      try_except
        (s ← get;
         match knowledge_base (self s) with
         | Some _ => mret tt
         | None => initialize_knowledge_base false;; mret tt
         end;;
         s ← get;
         k ← match knowledge_base (self s) with
             | Some k => mret k
             | None =>
                 raise "AttributeError: 'NoneType' object has no attribute 'add_pdf_documents_from_dir'"
             end;
         outside_call (AddPdfDocumentsFromDir dir_path)
                      (add_pdf_documents_from_dir o k dir_path);;
         s ← get;
         k ← match knowledge_base (self s) with
             | Some k => mret k
             | None => raise "AttributeError: 'NoneType' object has no attribute 'get_status'"
             end;
         count ← document_count k;
         mret {| status := Success; message := DirectoryDone dir_path count |})
        (fun e =>
           log ERROR (DirectoryError e);;
           mret {| status := Failure; message := DirectoryFailed e |})
  end.

(** [not query or query.strip() == '']: the query is empty or made of
    white space. *)
Definition blank (query : string) : bool :=
  bool_decide (query = EmptyString)
  || bool_decide (Config.strip (Text.decode query) = []).

(** Lines 313-318: the two pieces of citation number [i + 1]. A citation
    or a metadata value that is no [dict] has no [get]. *)
Definition citation_pieces (i : nat) (citation : list (string * Retriever.citation_value))
  : result (list piece) :=
  match default (Retriever.CMetadata ∅) (Retriever.dict_get "metadata" citation) with
  | Retriever.CMetadata metadata =>
      Ok [ Title (i + 1) (metadata !! "file_name");
           Body (Retriever.dict_get "content" citation) ]
  | Retriever.CStr _ => Raise "AttributeError: 'str' object has no attribute 'get'"
  | Retriever.CFloat _ => Raise "AttributeError: 'float' object has no attribute 'get'"
  end.

(** The loop of lines 313-318 from citation number [i + 1] on. *)
Fixpoint format_citations (i : nat)
    (citations : list (list (string * Retriever.citation_value)))
    (formatted_citations : list piece) : result (list piece) :=
  match citations with
  | [] => Ok formatted_citations
  | citation :: rest =>
      match citation_pieces i citation with
      | Ok ps => format_citations (S i) rest (formatted_citations ++ ps)
      | Raise e => Raise e
      end
  end.

(** [query_knowledge_base], lines 284-323. *)
Definition query_knowledge_base (query : string) : M (answer * list piece) :=
  if blank query then mret (EnterQuery, [])
  else
    try_except
      (s ← get;
       match knowledge_base (self s) with
       | None => mret (UploadFirst, [])
       | Some k =>
           result ← outside_call (Query query) (kb_query o k query);
           let response :=
             default (Retriever.RStr EmptyString) (Retriever.dict_get "response" result) in
           let citations :=
             default (Retriever.RList []) (Retriever.dict_get "citations" result) in
           formatted_citations ←
             match citations with
             | Retriever.RList [] | Retriever.RStr EmptyString => mret []
             | Retriever.RList l =>
                 match format_citations 0 l [Heading] with
                 | Ok ps => mret ps
                 | Raise e => raise e
                 end
             | Retriever.RStr _ =>
                 raise "AttributeError: 'str' object has no attribute 'get'"
             end;
           mret (Answer response, formatted_citations)
       end)
      (fun e => log ERROR (QueryError e);; mret (QueryFailed e, []))
  .

(** [clear_knowledge_base], lines 325-340. *)
Definition clear_knowledge_base : M info :=
  try_except
    (s ← get;
     match knowledge_base (self s) with
     | None => mret {| status := Success; message := NotInitialized |}
     | Some k =>
         outside_call ClearKnowledgeBase (kb_clear_knowledge_base o k);;
         mret {| status := Success; message := Cleared |}
     end)
    (fun e =>
       log ERROR (ClearError e);;
       mret {| status := Failure; message := ClearFailed e |}).

(** [x or d] for a port: [None] and [0] give way to [d]. *)
Definition port_or (x : option Z) (d : Z) : Z :=
  match x with
  | None | Some 0 => d
  | Some p => p
  end.

(** [x or d] for a host: [None] and the empty string give way to [d]. *)
Definition host_or (x : option string) (d : string) : string :=
  match x with
  | None | Some EmptyString => d
  | Some h => h
  end.

(** [launch], lines 416-447; [cfg] holds the attributes of [Config]. *)
Definition launch (cfg : Settings.Config) (server_port : option Z)
    (server_host : option string) : M unit :=
  outside_call Blocks (blocks o);;
  let port := port_or server_port (Settings.APP_PORT cfg) in
  let host := host_or server_host (Settings.APP_HOST cfg) in
  log INFO (Launching host port);;
  try_except
    (outside_call (Launch (Some host) port) (gr_launch o (Some host) port))
    (fun e =>
       log ERROR (LaunchFailed e);;
       log INFO TryingFallback;;
       outside_call CloseAll (gr_close_all o);;
       outside_call Queue (gr_queue o);;
       outside_call (Launch None port) (gr_launch o None port)).

(** The handlers wired to the four buttons, lines 390-412, with their
    inputs. *)
Inductive click :=
| ClickUpload (files : option (list file_obj))
| ClickProcessDirectory (dir_path : option string)
| ClickClear
| ClickQuery (query : string).

Definition handle (c : click) : M unit :=
  match c with
  | ClickUpload files => upload_pdf files;; mret tt
  | ClickProcessDirectory d => process_directory d;; mret tt
  | ClickClear => clear_knowledge_base;; mret tt
  | ClickQuery q => query_knowledge_base q;; mret tt
  end.

(** A session: clicks handled one after the other. *)
Fixpoint session (cs : list click) : M unit :=
  match cs with
  | [] => mret tt
  | c :: rest => handle c;; session rest
  end.

End Interface.

(** What the interface shows for source chunk number [i + 1]. *)
Definition rendered (i : nat) (n : Retriever.NodeWithScore) : list piece :=
  [ Title (i + 1) (metadata (Retriever.node n) !! "file_name");
    Body (Some (Retriever.CStr (text (Retriever.node n)))) ].

Fixpoint rendered_from (i : nat) (nodes : list Retriever.NodeWithScore) : list piece :=
  match nodes with
  | [] => []
  | n :: rest => rendered i n ++ rendered_from (S i) rest
  end.

(** No knowledge base has been asked to rebuild. *)
Definition never_rebuilt {K W} (s : state K W) : Prop :=
  Called (NewKnowledgeBase true) ∉ trace s.

(** The interface has a knowledge base. *)
Definition has_knowledge_base {K W} (s : state K W) : Prop :=
  is_Some (knowledge_base (self s)).

End Web.

(** ** [app/main.py] *)

Module App.

(** The options given on the command line; [argparse] has read the port
    as an integer. *)
Record command_line := {
  cli_port : option Z;
  cli_host : option string;
  cli_rebuild : bool;
}.

Record args := { port : Z; host : string; rebuild : bool }.

(** [parse_args], lines 27-51. *)
Definition parse_args (cfg : Settings.Config) (cl : command_line) : args :=
  {| port := default (Settings.APP_PORT cfg) (cli_port cl);
     host := default (Settings.APP_HOST cfg) (cli_host cl);
     rebuild := cli_rebuild cl |}.

Inductive log_msg :=
| ConfigInvalid (e : exn)                   (* line 62 *)
| Starting                                  (* line 65 *)
| Address (host : string) (port : Z)        (* line 66 *)
| Model (name : string)                     (* line 67 *)
| Embedding (name : string) (dim : Z)       (* line 68 *)
| StartFailed (e : exn).                    (* line 77 *)

(** The process: the attributes of [Config], what [Config] has printed,
    the log of this module, and the interface with the world around it. *)
Record process (K W : Type) := {
  config : Settings.Config;
  stdout : list Settings.printed;
  log : list (level * log_msg);
  app : Web.state K W;
}.
Arguments config {K W} p.
Arguments stdout {K W} p.
Arguments log {K W} p.
Arguments app {K W} p.

Section Main.
Context {K W : Type} (o : Web.Outside K W).

Abbreviation M := (exec (process K W)).

Definition logger (l : level) (m : log_msg) : M unit :=
  modify (fun p => {| config := config p; stdout := stdout p;
                      log := log p ++ [(l, m)]; app := app p |}).

(** The class method [Config.validate_config] on the attributes of the
    class. *)
Definition validate_config : M unit :=
  fun p =>
    let r := Settings.validate_config (config p) in
    (fst (fst r), {| config := snd (fst r); stdout := stdout p ++ snd r;
                     log := log p; app := app p |}).

(** A computation of the interface, run in the process. *)
Definition in_app {A} (m : exec (Web.state K W) A) : M A :=
  fun p =>
    let r := m (app p) in
    (fst r, {| config := config p; stdout := stdout p; log := log p;
               app := snd r |}).

(** [GradioInterface()]: a new object, and [__init__] on it. *)
Definition GradioInterface : exec (Web.state K W) unit :=
  modify (fun s => {| Web.self := {| Web.knowledge_base := None; Web.temp_dir := None |};
                      Web.outside := Web.outside s; Web.trace := Web.trace s;
                      Web.file_paths := Web.file_paths s |});;
  Web.__init__ o.

(** [main], lines 53-78. *)
Definition main (cl : command_line) : M unit :=
  p ← get;
  let args := parse_args (config p) cl in
  checked ← try_except (validate_config;; mret true)
                       (fun e => logger ERROR (ConfigInvalid e);; mret false);
  if checked : bool then
    logger INFO Starting;;
    logger INFO (Address (host args) (port args));;
    p ← get;
    logger INFO (Model (Settings.OPENAI_MODEL_NAME (config p)));;
    logger INFO (Embedding (Settings.OPENAI_EMBEDDING_MODEL_NAME (config p))
                           (Settings.OPENAI_EMBEDDING_MODEL_DIM (config p)));;
    try_except
      (in_app GradioInterface;;
       p ← get;
       in_app (Web.launch o (config p) (Some (port args)) (Some (host args))))
      (fun e => logger ERROR (StartFailed e);; raise e)
  else mret tt.

End Main.

End App.

(** ** More sample data *)

Module Samples.

(** A framework engine that exposes no retriever, hence no filter slot. *)
Definition slotless_engine : Retriever.RAGQueryEngine :=
  {| Retriever.vector_index := Fixtures.small_index;
     Retriever.llm := Fixtures.fixed_llm;
     Retriever.embed_model := Fixtures.embedder;
     Retriever.service_context := None;
     Retriever.pgvector_options := Retriever.default_pgvector_options;
     Retriever.query_engine :=
       {| Retriever.retriever := None;
          Retriever.qe_index := Fixtures.small_index;
          Retriever.qe_llm := Fixtures.fixed_llm;
          Retriever.similarity_top_k := 4;
          Retriever.vector_store_query_mode := "hybrid";
          Retriever.vector_store_kwargs := Retriever.default_pgvector_options;
          Retriever.node_postprocessors :=
            [ {| Retriever.similarity_cutoff := 7 # 10 |} ] |} |}.

(** A world in which the knowledge base exists and reports [count]
    documents, files can be read and written, and the server starts; the
    knowledge base answers a question with [answer] and adds a document
    with the outcome [added]. *)
Definition outside_with (count : Z) (added : result unit)
    (answer : string -> result (list (string * Retriever.result_value)))
  : Web.Outside unit unit :=
  {| Web.KnowledgeBase := fun _ w => (Ok tt, w);
     Web.get_status := fun _ w => (Ok (Some count), w);
     Web.add_pdf_document := fun _ _ w => (added, w);
     Web.add_pdf_documents_from_dir := fun _ _ w => (Ok tt, w);
     Web.kb_query := fun _ q w => (answer q, w);
     Web.kb_clear_knowledge_base := fun _ w => (Ok tt, w);
     Web.mkdtemp := fun w => (Ok (Web.of_string "/tmp/tmpab12"), w);
     Web.clock := fun _ => 1700000000;
     Web.read_upload := fun _ w => (Ok "%PDF-1.4", w);
     Web.write_file := fun _ _ w => (Ok tt, w);
     Web.blocks := fun w => (Ok tt, w);
     Web.gr_launch := fun _ _ w => (Ok tt, w);
     Web.gr_close_all := fun w => (Ok tt, w);
     Web.gr_queue := fun w => (Ok tt, w) |}.

(** The same world without a database: no knowledge base can be
    constructed. *)
Definition outside_without_database : Web.Outside unit unit :=
  {| Web.KnowledgeBase := fun _ w => (Raise "could not connect to server", w);
     Web.get_status := fun _ w => (Ok (Some 0), w);
     Web.add_pdf_document := fun _ _ w => (Ok tt, w);
     Web.add_pdf_documents_from_dir := fun _ _ w => (Ok tt, w);
     Web.kb_query := fun _ _ w => (Ok [], w);
     Web.kb_clear_knowledge_base := fun _ w => (Ok tt, w);
     Web.mkdtemp := fun w => (Ok (Web.of_string "/tmp/tmpab12"), w);
     Web.clock := fun _ => 1700000000;
     Web.read_upload := fun _ w => (Ok "%PDF-1.4", w);
     Web.write_file := fun _ _ w => (Ok tt, w);
     Web.blocks := fun w => (Ok tt, w);
     Web.gr_launch := fun _ _ w => (Ok tt, w);
     Web.gr_close_all := fun w => (Ok tt, w);
     Web.gr_queue := fun w => (Ok tt, w) |}.

(** The knowledge base hands a question to the sample engine. *)
Definition engine_answer (q : string)
  : result (list (string * Retriever.result_value)) :=
  fst (Retriever.query q None
         (Fixtures.started (Fixtures.default_engine Fixtures.fixed_llm))).

(** An interface with its directory, with or without a knowledge base. *)
Definition interface (kb : option unit) : Web.state unit unit :=
  {| Web.self := {| Web.knowledge_base := kb;
                    Web.temp_dir := Some (Web.of_string "/tmp/tmpab12") |};
     Web.outside := tt; Web.trace := []; Web.file_paths := [] |}.

(** An object before [__init__] has run. *)
Definition blank_interface : Web.state unit unit :=
  {| Web.self := {| Web.knowledge_base := None; Web.temp_dir := None |};
     Web.outside := tt; Web.trace := []; Web.file_paths := [] |}.

(** The attributes of [Config] for an environment with a key and a URL,
    and for one without the key. *)
Definition valid_config : Settings.Config :=
  {| Settings.PGVECTOR_URL := Some "postgresql://localhost/pdf";
     Settings.OPENAI_API_KEY := Some "sk-test";
     Settings.OPENAI_MODEL_NAME := "gpt-4";
     Settings.OPENAI_EMBEDDING_MODEL_NAME := "text-embedding-3-small";
     Settings.OPENAI_EMBEDDING_MODEL_DIM := 1536;
     Settings.APP_PORT := 7860;
     Settings.APP_HOST := "0.0.0.0";
     Settings.CHUNK_SIZE := 1000;
     Settings.CHUNK_OVERLAP := 200 |}.

Definition config_without_key : Settings.Config :=
  {| Settings.PGVECTOR_URL := Some "postgresql://localhost/pdf";
     Settings.OPENAI_API_KEY := None;
     Settings.OPENAI_MODEL_NAME := "gpt-4";
     Settings.OPENAI_EMBEDDING_MODEL_NAME := "text-embedding-3-small";
     Settings.OPENAI_EMBEDDING_MODEL_DIM := 1536;
     Settings.APP_PORT := 7860;
     Settings.APP_HOST := "0.0.0.0";
     Settings.CHUNK_SIZE := 1000;
     Settings.CHUNK_OVERLAP := 200 |}.

(** The process as [main] finds it. *)
Definition process_with (cfg : Settings.Config) : App.process unit unit :=
  {| App.config := cfg; App.stdout := []; App.log := []; App.app := blank_interface |}.

(** [--port 0 --rebuild] *)
Definition port_zero_rebuild : App.command_line :=
  {| App.cli_port := Some 0; App.cli_host := None; App.cli_rebuild := true |}.

End Samples.

(** * Properties *)

(** ** Running the monad *)

Lemma run_bind {St A B} (m : exec St A) (k : A -> exec St B) (s : St) :
  (m ≫= k) s =
  match m s with
  | (Ok a, s') => k a s'
  | (Raise e, s') => (Raise e, s')
  end.
Proof. reflexivity. Qed.

Lemma run_try_except {St A} (m : exec St A) (h : exn -> exec St A) (s : St) :
  try_except m h s =
  match m s with
  | (Ok a, s') => (Ok a, s')
  | (Raise e, s') => h e s'
  end.
Proof. reflexivity. Qed.

(** ** Rules for [returns], [stable] and [preserves] *)

Section Rules.
Context {St : Type}.

Lemma returns_ret {A} (a : A) : returns (St := St) (mret a).
Proof. intros s. eexists. reflexivity. Qed.

Lemma returns_get : returns (St := St) get.
Proof. intros s. eexists. reflexivity. Qed.

Lemma returns_modify (g : St -> St) : returns (modify g).
Proof. intros s. eexists. reflexivity. Qed.

Lemma returns_may_fail_none : returns (St := St) (may_fail None).
Proof. intros s. eexists. reflexivity. Qed.

Lemma returns_bind {A B} (m : exec St A) (k : A -> exec St B) :
  returns m -> (forall a, returns (k a)) -> returns (m ≫= k).
Proof.
  intros Hm Hk s. rewrite run_bind.
  destruct (Hm s) as [a Ha]. destruct (m s) as [r s1]. simpl in Ha. subst r.
  apply Hk.
Qed.

(** A handler that returns makes the whole [try] return. *)
Lemma returns_try_except {A} (m : exec St A) (h : exn -> exec St A) :
  (forall e, returns (h e)) -> returns (try_except m h).
Proof.
  intros Hh s. rewrite run_try_except.
  destruct (m s) as [[a|e] s1]; [eexists; reflexivity | apply Hh].
Qed.

(** What a returning computation leaves is what the rest starts from. *)
Lemma returns_run {A} (m : exec St A) (s : St) :
  returns m -> exists a, m s = (Ok a, snd (m s)).
Proof.
  intros Hm. destruct (Hm s) as [a Ha]. exists a.
  destruct (m s) as [r s1]. simpl in *. congruence.
Qed.

Lemma stable_ret {A} P (a : A) : stable (St := St) P (mret a).
Proof. intros s H. exact H. Qed.

Lemma stable_raise {A} P (e : exn) : stable (St := St) P (raise (A := A) e).
Proof. intros s H. exact H. Qed.

Lemma stable_get P : stable (St := St) P get.
Proof. intros s H. exact H. Qed.

Lemma stable_may_fail P (o : option exn) : stable (St := St) P (may_fail o).
Proof. intros s H. destruct o; exact H. Qed.

Lemma stable_modify (P : St -> Prop) (g : St -> St) :
  (forall s, P s -> P (g s)) -> stable P (modify g).
Proof. intros H s. apply H. Qed.

Lemma stable_bind {A B} P (m : exec St A) (k : A -> exec St B) :
  stable P m -> (forall a, stable P (k a)) -> stable P (m ≫= k).
Proof.
  intros Hm Hk s H. rewrite run_bind.
  specialize (Hm s H). destruct (m s) as [[a|e] s1]; simpl in *.
  - apply Hk. exact Hm.
  - exact Hm.
Qed.

Lemma stable_try_except {A} P (m : exec St A) (h : exn -> exec St A) :
  stable P m -> (forall e, stable P (h e)) -> stable P (try_except m h).
Proof.
  intros Hm Hh s H. rewrite run_try_except.
  specialize (Hm s H). destruct (m s) as [[a|e] s1]; simpl in *.
  - exact Hm.
  - apply Hh. exact Hm.
Qed.

(** Inside a [try], a first statement that returns hands its state to
    the rest of the body. *)
Lemma try_except_bind_returns {A B} (m : exec St A) (k : A -> exec St B)
    (h : exn -> exec St B) (s : St) :
  returns m ->
  exists a, try_except (m ≫= k) h s = try_except (k a) h (snd (m s)).
Proof.
  intros Hm. destruct (returns_run m s Hm) as [a E]. exists a.
  rewrite !run_try_except, run_bind, E. reflexivity.
Qed.

(** A frame is stability of every value of the component. *)
Lemma preserves_stable {X A} (proj : St -> X) (m : exec St A) :
  (forall x, stable (fun s => proj s = x) m) -> preserves proj m.
Proof. intros H s. apply (H (proj s)). reflexivity. Qed.
End Rules.

(** Decompose a computation along its binds, handlers and branches. *)
Ltac stable_step :=
  first
    [ apply stable_ret | apply stable_raise | apply stable_get
    | apply stable_may_fail
    | apply stable_bind; [| intros ?]
    | apply stable_try_except; [| intros ?]
    | match goal with
      | |- stable _ (match ?x with _ => _ end) => destruct x
      end ].

Ltac returns_step :=
  first
    [ apply returns_ret | apply returns_get | apply returns_modify
    | apply returns_may_fail_none
    | apply returns_try_except; intros ?
    | apply returns_bind; [| intros ?]
    | match goal with
      | |- returns (match ?x with _ => _ end) => destruct x
      end ].

(** ** The embedding dimension *)

(** The dimension computed by the configuration is a positive integer,
    whatever the environment holds. *)
Lemma config_dim_positive (e : option string) :
  0 < fst (Config.OPENAI_EMBEDDING_MODEL_DIM e).
Proof.
  unfold Config.OPENAI_EMBEDDING_MODEL_DIM, Config.DEFAULT_EMBEDDING_DIM.
  destruct e as [s|]; [|simpl; lia].
  destruct (Config.use_default (Some s)); [simpl; lia|].
  destruct (Config.py_int s) as [n|]; [|simpl; lia].
  destruct (Z.leb_spec n 0); simpl; lia.
Qed.



Example py_int_examples :
  Config.py_int "abc" = None /\ Config.py_int "-5" = Some (-5) /\
  Config.py_int " 1_024 " = Some 1024 /\ Config.py_int "+7" = Some 7 /\
  Config.py_int "1__0" = None /\ Config.py_int "12_" = None /\
  Config.py_int "3.5" = None /\
  Config.py_int "７６８" = Some 768 /\ Config.py_int "　42　" = Some 42 /\
  Config.py_int (String (ascii_of_N 28) "5") = None.
Proof. vm_compute. repeat split. Qed.

Example configured_dimension_examples :
  Config.OPENAI_EMBEDDING_MODEL_DIM None = (1536, []) /\
  Config.OPENAI_EMBEDDING_MODEL_DIM (Some "None") = (1536, []) /\
  Config.OPENAI_EMBEDDING_MODEL_DIM (Some "   ") = (1536, []) /\
  Config.OPENAI_EMBEDDING_MODEL_DIM (Some "　") = (1536, []) /\
  Config.OPENAI_EMBEDDING_MODEL_DIM (Some "abc")
    = (1536, [Config.WarnDimNotInteger "abc"]) /\
  Config.OPENAI_EMBEDDING_MODEL_DIM (Some "-5")
    = (1536, [Config.WarnDimNotPositive (-5)]) /\
  Config.OPENAI_EMBEDDING_MODEL_DIM (Some (String (ascii_of_N 28) "5"))
    = (1536, [Config.WarnDimNotInteger (String (ascii_of_N 28) "5")]) /\
  Config.OPENAI_EMBEDDING_MODEL_DIM (Some "768") = (768, []) /\
  Config.OPENAI_EMBEDDING_MODEL_DIM (Some "７６８") = (768, []).
Proof. vm_compute. repeat split. Qed.

(** ** The vector-store manager *)

Module PGVectorProofs.
Import PGVector.

Ltac unfold_state_ops :=
  unfold log, emit, set_self, set_tables, set_vector_extension.

Ltac unfold_ops :=
  unfold open_aux_connection, create_vector_store, ensure_table, build_index,
    execute_create_extension, execute_table_exists, execute_create_table,
    execute_truncate, execute_count, store_delete_all, VectorStoreIndex_new,
    cursor;
  unfold_state_ops.

(** Evaluate the monad on the state at hand. *)
Ltac run :=
  unfold try_except, modify, get, may_fail, raise, mbind, mret, exec_bind, exec_ret;
  cbn.

(** [stable P m] for a block of straight-line code; [closer] shows that
    one update of the state keeps [P]. *)
Ltac stable_block closer :=
  unfold_ops;
  repeat first [ stable_step
               | apply stable_modify; intros [? ? ? ?] ?; cbn in *; closer ].

Ltac returns_block := unfold_ops; repeat returns_step.

(** An event of the trace stays in the trace. *)
Ltac keep_event :=
  first [ assumption | rewrite elem_of_app; left; assumption ].

(** Step into a [try] past a first statement that returns. *)
Ltac enter_try Hret :=
  lazymatch goal with
  | |- context [try_except (?m ≫= ?k) ?h ?s] =>
      let a := fresh "a" in
      destruct (try_except_bind_returns m k h s Hret) as [a ->]; try clear a
  end.

(** *** The blocks of [initialize] *)

Lemma log_returns l m : returns (log l m).
Proof. returns_block. Qed.

Lemma validate_embed_dim_returns : returns validate_embed_dim.
Proof. unfold validate_embed_dim. returns_block. Qed.

Lemma open_aux_connection_returns f : returns (open_aux_connection f).
Proof. returns_block. Qed.

Lemma ensure_table_returns f : returns (ensure_table f).
Proof. returns_block. Qed.

Lemma validate_embed_dim_valid s :
  valid_embed_dim (embed_dim (self s)) = true ->
  validate_embed_dim s = (Ok tt, s).
Proof. intros H. unfold validate_embed_dim. run. rewrite H. reflexivity. Qed.

(** The validation keeps whatever is indifferent to a new log line and
    to the repaired dimension. *)
Lemma stable_validate_embed_dim (P : state -> Prop) :
  (forall m tb ext tr ev,
      P {| self := m; tables := tb; vector_extension := ext; trace := tr |} ->
      P {| self := m; tables := tb; vector_extension := ext;
           trace := tr ++ [ev] |}) ->
  (forall m tb ext tr,
      P {| self := m; tables := tb; vector_extension := ext; trace := tr |} ->
      P {| self := with_embed_dim (DimInt 1536) m; tables := tb;
           vector_extension := ext; trace := tr |}) ->
  stable P validate_embed_dim.
Proof.
  intros Hev Hdim [m tb ext tr] H. unfold validate_embed_dim. run.
  destruct (valid_embed_dim (embed_dim m)); cbn; [exact H|].
  apply Hdim, Hev, H.
Qed.

Lemma create_vector_store_raises f s e :
  from_params_fails f = Some e ->
  fst (create_vector_store f s) = Raise e.
Proof. intros H. unfold_ops. run. rewrite H. reflexivity. Qed.

Lemma create_vector_store_ok f s :
  from_params_fails f = None ->
  exists s' vs,
    create_vector_store f s = (Ok tt, s') /\
    vector_store (self s') = Some vs /\
    vs_table_name vs = table_name (self s') /\
    vs_embed_dim vs = embed_dim (self s).
Proof.
  intros H. unfold_ops. run. rewrite H. cbn.
  eexists _, _. split; [reflexivity|]. cbn. auto.
Qed.

Lemma create_vector_store_returns f :
  from_params_fails f = None -> returns (create_vector_store f).
Proof.
  intros H s. destruct (create_vector_store_ok f s H) as (s' & vs & E & _).
  exists tt. rewrite E. reflexivity.
Qed.

(** *** Frames *)

Lemma validate_embed_dim_frame : preserves table_rows validate_embed_dim.
Proof.
  apply preserves_stable. intros x.
  apply stable_validate_embed_dim; intros; cbn in *; assumption.
Qed.

Lemma log_frame l m : preserves table_rows (log l m).
Proof. apply preserves_stable. intros x. stable_block assumption. Qed.

Lemma open_aux_connection_frame f : preserves table_rows (open_aux_connection f).
Proof. apply preserves_stable. intros x. stable_block assumption. Qed.

Lemma create_vector_store_frame f : preserves table_rows (create_vector_store f).
Proof. apply preserves_stable. intros x. stable_block assumption. Qed.

Lemma create_vector_store_keeps_conn f : preserves aux_conn (create_vector_store f).
Proof. apply preserves_stable. intros x. stable_block assumption. Qed.

Lemma ensure_table_keeps_store f :
  preserves (fun s => (vector_store (self s), table_name (self s))) (ensure_table f).
Proof. apply preserves_stable. intros x. stable_block assumption. Qed.

Lemma initialize_preserves_index f :
  preserves (fun s => index (self s)) (initialize f).
Proof.
  apply preserves_stable. intros x. unfold initialize.
  apply stable_try_except; [|intros e; stable_block assumption].
  apply stable_bind;
    [apply stable_validate_embed_dim; intros; cbn in *; assumption | intros _].
  stable_block assumption.
Qed.

Lemma initialize_keeps_events f ev :
  stable (fun s => ev ∈ trace s) (initialize f).
Proof.
  unfold initialize.
  apply stable_try_except; [|intros e; stable_block keep_event].
  apply stable_bind;
    [apply stable_validate_embed_dim; intros; cbn in *; keep_event | intros _].
  stable_block keep_event.
Qed.

Lemma open_aux_connection_connects f s :
  connect_fails f = None ->
  is_Some (aux_conn (snd (open_aux_connection f s))).
Proof.
  intros Hc. unfold aux_conn. unfold_ops. rewrite Hc.
  destruct (extension_cursor_fails f), (extension_fails f); run; eauto.
Qed.

(** *** Outcome of [initialize] *)

(** A failure to construct the vector-store client leaves [initialize]
    by that exception. *)
Lemma initialize_raises f s e :
  from_params_fails f = Some e ->
  fst (initialize f s) = Raise e.
Proof.
  intros H. unfold initialize.
  enter_try validate_embed_dim_returns.
  enter_try (log_returns INFO InitStart).
  enter_try (open_aux_connection_returns f).
  rewrite run_try_except, run_bind.
  match goal with
  | |- context [create_vector_store f ?t] =>
      pose proof (create_vector_store_raises f t e H) as Hc;
      destruct (create_vector_store f t) as [r s4]
  end.
  simpl in Hc. subst r. reflexivity.
Qed.

Lemma initialize_raises_storage_context f s e :
  from_params_fails f = None ->
  storage_context_fails f = Some e ->
  fst (initialize f s) = Raise e.
Proof.
  intros Hp Hs. unfold initialize.
  enter_try validate_embed_dim_returns.
  enter_try (log_returns INFO InitStart).
  enter_try (open_aux_connection_returns f).
  enter_try (create_vector_store_returns f Hp).
  enter_try (ensure_table_returns f).
  rewrite Hs. reflexivity.
Qed.

Lemma initialize_returns f s :
  from_params_fails f = None ->
  storage_context_fails f = None ->
  exists s', initialize f s = (Ok tt, s') /\ initialized (self s').
Proof.
  intros Hp Hs. unfold initialize.
  enter_try validate_embed_dim_returns.
  enter_try (log_returns INFO InitStart).
  enter_try (open_aux_connection_returns f).
  rewrite run_try_except, run_bind.
  match goal with
  | |- context [create_vector_store f ?t] =>
      destruct (create_vector_store_ok f t Hp) as (s4 & vs & E4 & Hv & Hn & _)
  end.
  rewrite E4.
  pose proof (ensure_table_keeps_store f s4) as Hf. cbn beta in Hf.
  injection Hf as Hfv Hfn.
  destruct (returns_run (ensure_table f) s4 (ensure_table_returns f)) as [[] E5].
  rewrite run_bind, E5, Hs. unfold_state_ops. run.
  eexists. split; [reflexivity|]. exists vs. cbn.
  rewrite Hfv, Hfn, Hv. auto.
Qed.

(** [initialize] returns exactly when it leaves the manager initialized. *)
Lemma initialize_ok_initialized f s :
  fst (initialize f s) = Ok tt -> initialized (self (snd (initialize f s))).
Proof.
  intros H.
  destruct (from_params_fails f) as [e|] eqn:Hp.
  { rewrite (initialize_raises f s e Hp) in H. discriminate. }
  destruct (storage_context_fails f) as [e|] eqn:Hs.
  { rewrite (initialize_raises_storage_context f s e Hp Hs) in H. discriminate. }
  destruct (initialize_returns f s Hp Hs) as (s' & E & Hi).
  rewrite E. exact Hi.
Qed.

(** *** What [initialize] logs *)

Lemma extension_failure_logged f s e :
  connect_fails f = None ->
  extension_cursor_fails f = None ->
  extension_fails f = Some e ->
  Log WARNING (ExtensionFailed e) ∈ trace (snd (initialize f s)).
Proof.
  intros Hc Hxc Hx. unfold initialize.
  enter_try validate_embed_dim_returns.
  enter_try (log_returns INFO InitStart).
  enter_try (open_aux_connection_returns f).
  match goal with
  | |- context [open_aux_connection f ?t] => set (s2 := t)
  end.
  assert (H3 : Log WARNING (ExtensionFailed e)
                 ∈ trace (snd (open_aux_connection f s2))).
  { clearbody s2. unfold_ops. rewrite Hc, Hxc, Hx. run.
    rewrite elem_of_app. right. apply list_elem_of_singleton. reflexivity. }
  revert H3. apply (stable_try_except (fun s => _ ∈ trace s)).
  - stable_block keep_event.
  - intros e'. stable_block keep_event.
Qed.

Lemma create_table_failure_logged f s e :
  connect_fails f = None ->
  from_params_fails f = None ->
  check_cursor_fails f = None ->
  table_check_fails f = None ->
  table_rows s = None ->
  create_table_fails f = Some e ->
  Log WARNING (CreateTableFailed e) ∈ trace (snd (initialize f s)).
Proof.
  intros Hc Hp Hcc Ht Hnone Hct. unfold initialize.
  enter_try validate_embed_dim_returns.
  enter_try (log_returns INFO InitStart).
  enter_try (open_aux_connection_returns f).
  enter_try (create_vector_store_returns f Hp).
  enter_try (ensure_table_returns f).
  match goal with
  | |- context [ensure_table f ?t] => set (s4 := t)
  end.
  assert (Hrows : table_rows s4 = None).
  { subst s4.
    rewrite (create_vector_store_frame f _), (open_aux_connection_frame f _),
      (log_frame _ _ _), (validate_embed_dim_frame _). exact Hnone. }
  assert (Hconn : is_Some (aux_conn s4)).
  { subst s4. rewrite (create_vector_store_keeps_conn f _).
    apply open_aux_connection_connects, Hc. }
  destruct Hconn as [c Hconn].
  unfold table_rows in Hrows. unfold aux_conn in Hconn.
  assert (H5 : Log WARNING (CreateTableFailed e)
                 ∈ trace (snd (ensure_table f s4))).
  { clearbody s4. unfold_ops. run. rewrite Hconn, Hcc, Ht. cbn.
    rewrite Hrows. cbn. rewrite Hct. cbn.
    rewrite elem_of_app. right. apply list_elem_of_singleton. reflexivity. }
  revert H5. apply (stable_try_except (fun s => _ ∈ trace s)).
  - stable_block keep_event.
  - intros e'. stable_block keep_event.
Qed.

(** C8. In [initialize], a failure to construct the vector-store client
    is raised to the caller, whereas a failure to create the extension or
    to create the table by hand is logged as a warning and [initialize]
    goes on: it returns normally and leaves the manager initialized. *)
Theorem initialize_failure_modes (f : init_faults) (s : state) :
  (forall e, from_params_fails f = Some e -> fst (initialize f s) = Raise e) /\
  (from_params_fails f = None -> storage_context_fails f = None ->
   fst (initialize f s) = Ok tt /\
   initialized (self (snd (initialize f s))) /\
   (forall e, connect_fails f = None -> extension_cursor_fails f = None ->
              extension_fails f = Some e ->
              Log WARNING (ExtensionFailed e) ∈ trace (snd (initialize f s))) /\
   (forall e, connect_fails f = None -> check_cursor_fails f = None ->
              table_check_fails f = None -> table_rows s = None ->
              create_table_fails f = Some e ->
              Log WARNING (CreateTableFailed e) ∈ trace (snd (initialize f s)))).
Proof.
  split; [intros e He; apply initialize_raises, He|].
  intros Hp Hs.
  destruct (initialize_returns f s Hp Hs) as (s' & E & Hi).
  split; [rewrite E; reflexivity|].
  split; [rewrite E; exact Hi|].
  split.
  - intros e Hc Hxc Hx. apply extension_failure_logged; assumption.
  - intros e Hc Hcc Ht Hrows Hct. apply create_table_failure_logged; assumption.
Qed.

Lemma initialize_failure_modes_witness :
  fst (initialize Fixtures.client_fails (fresh Fixtures.new_manager ∅ false))
    = Raise "could not connect to server" /\
  fst (initialize Fixtures.extension_and_table_fail
         (fresh Fixtures.new_manager ∅ false)) = Ok tt /\
  Log WARNING (ExtensionFailed "permission denied to create extension")
    ∈ trace (snd (initialize Fixtures.extension_and_table_fail
                    (fresh Fixtures.new_manager ∅ false))) /\
  Log WARNING (CreateTableFailed "permission denied for schema public")
    ∈ trace (snd (initialize Fixtures.extension_and_table_fail
                    (fresh Fixtures.new_manager ∅ false))).
Proof.
  destruct (initialize_failure_modes Fixtures.client_fails
              (fresh Fixtures.new_manager ∅ false)) as [Hfatal _].
  destruct (initialize_failure_modes Fixtures.extension_and_table_fail
              (fresh Fixtures.new_manager ∅ false)) as [_ Hsoft].
  split; [apply Hfatal; reflexivity|].
  destruct Hsoft as (Hok & _ & Hext & Htab); [reflexivity | reflexivity |].
  split; [exact Hok|].
  split; [apply Hext; reflexivity | apply Htab; reflexivity].
Defined.

(** *** The dimension the manager works with *)




(** The manager's own check repairs a dimension that is no positive
    integer, with a warning. *)
Lemma validate_embed_dim_repairs s :
  valid_embed_dim (embed_dim (self s)) = false ->
  exists s', validate_embed_dim s = (Ok tt, s') /\
             embed_dim (self s') = DimInt 1536 /\
             trace s' = trace s ++ [Log WARNING (InvalidEmbedDim (embed_dim (self s)))].
Proof.
  intros H. unfold validate_embed_dim. unfold_state_ops. run. rewrite H. cbn.
  eexists. split; [reflexivity|]. split; reflexivity.
Qed.




(** *** [clear_data] and [get_document_count] *)

(** C10. On a manager whose store handle is unset, [clear_data] returns
    without attempting a deletion and [get_document_count] returns 0
    without a query: neither raises, and the manager, the tables and the
    trace are as before, whatever the tables hold. *)
Theorem uninitialized_is_inert (fc : clear_faults) (fq : count_faults) (s : state) :
  vector_store (self s) = None ->
  clear_data fc s = (Ok tt, s) /\ get_document_count fq s = (Ok 0, s).
Proof.
  intros H. unfold clear_data, get_document_count. run. rewrite H.
  split; reflexivity.
Qed.

Lemma uninitialized_is_inert_witness :
  table_rows (fresh Fixtures.new_manager Fixtures.two_rows true)
    = Some [Fixtures.chunk_a; Fixtures.chunk_b] /\
  clear_data Fixtures.no_clear_faults
             (fresh Fixtures.new_manager Fixtures.two_rows true)
    = (Ok tt, fresh Fixtures.new_manager Fixtures.two_rows true) /\
  get_document_count Fixtures.no_count_faults
                     (fresh Fixtures.new_manager Fixtures.two_rows true)
    = (Ok 0, fresh Fixtures.new_manager Fixtures.two_rows true).
Proof.
  split; [reflexivity|].
  apply (uninitialized_is_inert Fixtures.no_clear_faults Fixtures.no_count_faults
           (fresh Fixtures.new_manager Fixtures.two_rows true)).
  reflexivity.
Defined.

(** C3. [get_document_count] never raises. It returns 0 when the table
    does not exist, the number of rows of the table when the table exists
    and the count query is sent and answered, and 0 when a step of the
    query raises. *)
Theorem get_document_count_total (f : count_faults) (s : state) :
  exists n,
    fst (get_document_count f s) = Ok n /\
    (table_rows s = None -> n = 0) /\
    (forall rows, table_rows s = Some rows -> count_query_succeeds f s ->
                  n = Z.of_nat (length rows)) /\
    (count_query_fails f -> n = 0).
Proof.
  destruct s as [m tb ext tr], f as [fc fe fn].
  unfold count_query_succeeds, count_query_fails, table_rows,
    get_document_count. unfold_ops. run.
  destruct (vector_store m) as [vs|]; cbn.
  2:{ exists 0. split; [reflexivity|]. split; [auto|]. split; [|auto].
      intros rows _ ([? [=]] & _). }
  destruct (conn_usable (conn m)); cbn.
  2:{ exists 0. split; [reflexivity|]. split; [auto|]. split; [|auto].
      intros rows _ (_ & [=] & _). }
  destruct fc as [ec|]; cbn.
  { exists 0. split; [reflexivity|]. split; [auto|]. split; [|auto].
    intros rows _ (_ & _ & [=] & _). }
  destruct fe as [ee|]; cbn.
  { exists 0. split; [reflexivity|]. split; [auto|]. split; [|auto].
    intros rows _ (_ & _ & _ & [=] & _). }
  destruct (tb !! table_name m) as [rows|] eqn:Hrows; cbn.
  2:{ exists 0. split; [reflexivity|]. split; [auto|]. split; [|auto].
      intros rows [=]. }
  destruct fn as [en|]; cbn; rewrite ?Hrows; cbn.
  { exists 0. split; [reflexivity|]. split; [auto|]. split; [|auto].
    intros rows' _ (_ & _ & _ & _ & [=]). }
  exists (Z.of_nat (length rows)). split; [reflexivity|].
  split; [intros [=]|]. split.
  - intros rows' [= <-] _. reflexivity.
  - intros [[? [=]] | [[? [=]] | [? [=]]]].
Qed.

Lemma get_document_count_total_witness :
  fst (get_document_count Fixtures.no_count_faults Fixtures.ready) = Ok 2.
Proof.
  destruct (get_document_count_total Fixtures.no_count_faults Fixtures.ready)
    as (n & Hn & _ & Hrows & _).
  rewrite Hn. f_equal.
  apply (Hrows [Fixtures.chunk_a; Fixtures.chunk_b]).
  - reflexivity.
  - split; [eexists; reflexivity|]. repeat (split; [reflexivity|]). reflexivity.
Defined.

(** C4, amended. On a manager that holds its store handle, [clear_data]
    first calls the store client's bulk delete, which empties the store's
    table; if that raises and the auxiliary connection is there and open,
    it truncates the table over that connection, and a failure of the
    truncate is logged; if that raises and there is no open auxiliary
    connection, nothing else is attempted and the rows stay. In every
    case [clear_data] returns normally. *)
Theorem clear_data_best_effort (f : clear_faults) (s : state) (vs : PGVectorStore) :
  vector_store (self s) = Some vs ->
  exists s',
    clear_data f s = (Ok tt, s') /\
    self s' = self s /\
    (delete_fails f = None ->
     tables s' !! vs_table_name vs
       = (fun _ => []) <$> (tables s !! vs_table_name vs) /\
     trace s' = trace s ++ [StoreDeleteAll;
                            Log INFO (DataCleared (table_name (self s)))]) /\
    (forall e, delete_fails f = Some e -> conn_usable (conn (self s)) = true ->
       clear_cursor_fails f = None ->
       (truncate_fails f = None -> is_Some (table_rows s) ->
        table_rows s' = Some [] /\
        trace s' = trace s ++ [StoreDeleteAll; Log ERROR (ClearFailed e); Cursor;
                               Execute (TruncateTable (table_name (self s)));
                               Log INFO (TruncateDone (table_name (self s)))]) /\
       (forall e', truncate_fails f = Some e' ->
        tables s' = tables s /\
        trace s' = trace s ++ [StoreDeleteAll; Log ERROR (ClearFailed e); Cursor;
                               Execute (TruncateTable (table_name (self s)));
                               Log ERROR (TruncateFailed e')])) /\
    (forall e, delete_fails f = Some e -> conn_usable (conn (self s)) = false ->
       tables s' = tables s /\
       trace s' = trace s ++ [StoreDeleteAll; Log ERROR (ClearFailed e)]).
Proof.
  destruct s as [m tb ext tr], f as [fd fc ft]. cbn [self tables trace].
  intros Hvs. unfold table_rows, clear_data. unfold_ops. run. rewrite Hvs. cbn.
  destruct fd as [e|]; cbn.
  - destruct (conn_usable (conn m)) eqn:Hu; cbn.
    + destruct fc as [ec|]; cbn.
      { eexists. split; [reflexivity|]. split; [reflexivity|].
        split; [intros [=]|]. split; [intros e0 _ _ [=] | intros e0 _ [=]]. }
      destruct ft as [et|]; cbn.
      { eexists. split; [reflexivity|]. split; [reflexivity|].
        split; [intros [=]|]. split; [|intros e0 _ [=]].
        intros e0 [= <-] _ _. split; [intros [=]|].
        intros e' [= <-]. cbn. rewrite <- !app_assoc. auto. }
      destruct (tb !! table_name m) as [rows|] eqn:Hrows; cbn.
      * eexists. split; [reflexivity|]. split; [reflexivity|].
        split; [intros [=]|]. split; [|intros e0 _ [=]].
        intros e0 [= <-] _ _. split; [|intros e' [=]].
        intros _ _. cbn. rewrite lookup_insert_eq, <- !app_assoc. auto.
      * eexists. split; [reflexivity|]. split; [reflexivity|].
        split; [intros [=]|]. split; [|intros e0 _ [=]].
        intros e0 [= <-] _ _. split; [|intros e' [=]].
        intros _ [rows [=]].
    + eexists. split; [reflexivity|]. split; [reflexivity|].
      split; [intros [=]|]. split; [intros e0 _ [=]|].
      intros e0 [= <-] _. cbn. rewrite <- !app_assoc. auto.
  - destruct (tb !! vs_table_name vs) as [rows|] eqn:Hrows; cbn.
    + eexists. split; [reflexivity|]. split; [reflexivity|].
      split; [|split; [intros e0 [=] | intros e0 [=]]].
      intros _. cbn. rewrite lookup_insert_eq, <- !app_assoc. auto.
    + eexists. split; [reflexivity|]. split; [reflexivity|].
      split; [|split; [intros e0 [=] | intros e0 [=]]].
      intros _. cbn. rewrite ?Hrows, <- !app_assoc. auto.
Qed.

Lemma clear_data_best_effort_witness :
  exists s', clear_data Fixtures.delete_raises Fixtures.ready = (Ok tt, s') /\
             table_rows s' = Some [].
Proof.
  destruct (clear_data_best_effort Fixtures.delete_raises Fixtures.ready
              Fixtures.store_handle eq_refl) as (s' & E & _ & _ & Hfallback & _).
  exists s'. split; [exact E|].
  destruct (Hfallback _ eq_refl eq_refl eq_refl) as [Htruncated _].
  apply Htruncated; [reflexivity | eexists; reflexivity].
Defined.

(** C4, as stated, fails on an initialized manager whose auxiliary
    connection could not be opened: the bulk delete raises, no TRUNCATE is
    sent, and the rows are still there when [clear_data] returns. *)
Lemma clear_data_without_connection_no_truncate :
  initialized (self Fixtures.ready_without_connection) /\
  is_Some (delete_fails Fixtures.delete_raises) /\
  fst (clear_data Fixtures.delete_raises Fixtures.ready_without_connection) = Ok tt /\
  (Execute (TruncateTable "pdf_documents")
     ∉ trace (snd (clear_data Fixtures.delete_raises
                     Fixtures.ready_without_connection))) /\
  table_rows (snd (clear_data Fixtures.delete_raises
                     Fixtures.ready_without_connection))
    = Some [Fixtures.chunk_a; Fixtures.chunk_b].
Proof.
  split; [eexists; repeat split; reflexivity|].
  split; [eexists; reflexivity|].
  split; [reflexivity|].
  split; [|reflexivity].
  intros Hin. apply list_elem_of_In in Hin. vm_compute in Hin.
  repeat (destruct Hin as [Hin|Hin]; [discriminate Hin|]).
  exact Hin.
Qed.

(** Once the table is gone or empty, the count is 0. *)
Lemma count_zero_when_empty (f : count_faults) (s : state) :
  table_rows s = None \/ table_rows s = Some [] ->
  exists s', get_document_count f s = (Ok 0, s').
Proof.
  destruct s as [m tb ext tr], f as [fc fe fn].
  unfold table_rows, get_document_count. unfold_ops. run. intros Hrows.
  destruct (vector_store m); cbn; [|eauto].
  destruct (conn_usable (conn m)); cbn; [|eauto].
  destruct fc; cbn; [eauto|].
  destruct fe; cbn; [eauto|].
  destruct (tb !! table_name m) as [rows|] eqn:E; cbn; [|eauto].
  destruct Hrows as [[=] | [= ->]].
  destruct fn; cbn; rewrite ?E; cbn; eauto.
Qed.

(** Either path of [clear_data], when it goes through, leaves the table
    empty, or absent as it was. *)
Lemma clear_data_empties (f : clear_faults) (s : state) :
  initialized (self s) ->
  delete_fails f = None \/
  (conn_usable (conn (self s)) = true /\ clear_cursor_fails f = None /\
   truncate_fails f = None) ->
  exists s', clear_data f s = (Ok tt, s') /\
             (table_rows s' = None \/ table_rows s' = Some []).
Proof.
  destruct s as [m tb ext tr], f as [fd fc ft]. cbn [self].
  intros (vs & Hvs & Hname & _) Hpath.
  unfold table_rows, clear_data. unfold_ops. run. rewrite Hvs, Hname. cbn.
  destruct fd as [e|]; cbn.
  - destruct Hpath as [[=] | (Hu & Hc & Ht)]. cbn in Hu, Hc, Ht. subst fc ft.
    rewrite Hu. cbn.
    destruct (tb !! table_name m) eqn:Hrows; cbn.
    + eexists. split; [reflexivity|]. cbn. rewrite lookup_insert_eq. auto.
    + eexists. split; [reflexivity|]. cbn. auto.
  - destruct (tb !! table_name m) eqn:Hrows; cbn.
    + eexists. split; [reflexivity|]. cbn. rewrite lookup_insert_eq. auto.
    + eexists. split; [reflexivity|]. cbn. auto.
Qed.

(** C5. On an initialized manager, in any state of the store,
    [clear_data] followed by [get_document_count] gives 0, whether the
    bulk delete went through or, after its failure, the fallback truncate
    did; the count query itself may then fail or not. *)
Theorem clear_then_count_zero (fc : clear_faults) (fq : count_faults) (s : state) :
  initialized (self s) ->
  delete_fails fc = None \/
  (conn_usable (conn (self s)) = true /\ clear_cursor_fails fc = None /\
   truncate_fails fc = None) ->
  exists s1 s2,
    clear_data fc s = (Ok tt, s1) /\ get_document_count fq s1 = (Ok 0, s2).
Proof.
  intros Hi Hpath.
  destruct (clear_data_empties fc s Hi Hpath) as (s1 & E1 & Hempty).
  destruct (count_zero_when_empty fq s1 Hempty) as (s2 & E2).
  exists s1, s2. split; assumption.
Qed.

Lemma clear_then_count_zero_witness :
  (exists s1 s2,
      clear_data Fixtures.no_clear_faults Fixtures.ready = (Ok tt, s1) /\
      get_document_count Fixtures.no_count_faults s1 = (Ok 0, s2)) /\
  (exists s1 s2,
      clear_data Fixtures.delete_raises Fixtures.ready = (Ok tt, s1) /\
      get_document_count Fixtures.no_count_faults s1 = (Ok 0, s2)).
Proof.
  assert (Hi : initialized (self Fixtures.ready)).
  { eexists. split; [reflexivity|]. split; reflexivity. }
  split.
  - apply (clear_then_count_zero Fixtures.no_clear_faults
             Fixtures.no_count_faults Fixtures.ready Hi).
    left. reflexivity.
  - apply (clear_then_count_zero Fixtures.delete_raises
             Fixtures.no_count_faults Fixtures.ready Hi).
    right. split; [reflexivity|]. split; reflexivity.
Defined.

(** When the bulk delete and the truncate both fail, nothing has emptied
    the table, and the count that follows is the number of rows. *)
Example clear_data_both_paths_fail :
  fst (clear_data Fixtures.delete_and_truncate_raise Fixtures.ready) = Ok tt /\
  fst (get_document_count Fixtures.no_count_faults
         (snd (clear_data Fixtures.delete_and_truncate_raise Fixtures.ready)))
    = Ok 2.
Proof. split; reflexivity. Qed.

(** *** [create_index_from_nodes] and [get_index] *)

Lemma build_index_ok nodes sc s :
  exists s',
    build_index nodes sc None s
      = (Ok {| idx_nodes := nodes; idx_storage_context := storage_context (self s);
               idx_service_context := sc |}, s') /\
    self s'
      = with_index
          (Some {| idx_nodes := nodes; idx_storage_context := storage_context (self s);
                   idx_service_context := sc |}) (self s).
Proof.
  unfold_ops. run. destruct sc; cbn; eexists; split; reflexivity.
Qed.

Lemma build_index_raises nodes sc e s :
  exists s', build_index nodes sc (Some e) s = (Raise e, s') /\
             index (self s') = index (self s).
Proof.
  unfold_ops. run. destruct sc; cbn; eexists; split; reflexivity.
Qed.

Lemma build_index_keeps_events nodes sc fault ev :
  stable (fun s => ev ∈ trace s) (build_index nodes sc fault).
Proof. stable_block keep_event. Qed.

Lemma initialize_logs_start f s :
  Log INFO InitStart ∈ trace (snd (initialize f s)).
Proof.
  unfold initialize.
  enter_try validate_embed_dim_returns.
  enter_try (log_returns INFO InitStart).
  match goal with
  | |- context [log INFO InitStart ?t] => set (s1 := t)
  end.
  assert (H : Log INFO InitStart ∈ trace (snd (log INFO InitStart s1))).
  { unfold_state_ops. run. rewrite elem_of_app. right.
    apply list_elem_of_singleton. reflexivity. }
  revert H. apply (stable_try_except (fun s => _ ∈ trace s)).
  - stable_block keep_event.
  - intros e. stable_block keep_event.
Qed.

(** One call: [self.index] afterwards is the new handle when the call
    returns, and the former one when it raises. *)
Lemma create_index_from_nodes_index nodes sc f s :
  index (self (snd (create_index_from_nodes nodes sc f s)))
  = match fst (create_index_from_nodes nodes sc f s) with
    | Ok idx => Some idx
    | Raise _ => index (self s)
    end.
Proof.
  unfold create_index_from_nodes. rewrite run_bind. cbn [get].
  rewrite run_bind.
  assert (Hbuild : forall s1, index (self s1) = index (self s) ->
            index (self (snd (build_index nodes sc (build_fails f) s1)))
            = match fst (build_index nodes sc (build_fails f) s1) with
              | Ok idx => Some idx
              | Raise _ => index (self s)
              end).
  { intros s1 H1. destruct (build_fails f) as [e|].
    - destruct (build_index_raises nodes sc e s1) as (s' & -> & Hi).
      cbn. congruence.
    - destruct (build_index_ok nodes sc s1) as (s' & -> & Hi).
      cbn. rewrite Hi. reflexivity. }
  destruct (storage_context (self s)).
  - cbn. apply Hbuild. reflexivity.
  - pose proof (initialize_preserves_index (index_init f) s) as Hi. cbn beta in Hi.
    destruct (initialize (index_init f) s) as [[[]|e] s1]; cbn in *.
    + apply Hbuild, Hi.
    + exact Hi.
Qed.

(** A series of calls: [self.index] afterwards is the handle of the last
    call that returned, and the former handle if none did. *)
Lemma create_indexes_index calls : forall s,
  exists rs,
    fst (create_indexes calls s) = Ok rs /\
    index (self (snd (create_indexes calls s)))
    = match last_built rs with
      | Some i => Some i
      | None => index (self s)
      end.
Proof.
  induction calls as [|c rest IH]; intros s.
  - exists []. split; reflexivity.
  - set (m := create_index_from_nodes (call_nodes c) (call_service_context c)
                                      (call_faults c)).
    pose proof (create_index_from_nodes_index (call_nodes c)
                  (call_service_context c) (call_faults c) s) as H1.
    fold m in H1.
    destruct (IH (snd (m s))) as (rs & Hrs & Hidx).
    assert (E : create_indexes (c :: rest) s
                = (Ok (fst (m s) :: rs), snd (create_indexes rest (snd (m s))))).
    { cbn [create_indexes]. fold m. rewrite run_bind. unfold attempt.
      rewrite run_bind.
      destruct (create_indexes rest (snd (m s))) as [r s2]. cbn in Hrs.
      subst r. reflexivity. }
    rewrite E. cbn [fst snd].
    exists (fst (m s) :: rs). split; [reflexivity|].
    cbn [last_built]. rewrite Hidx.
    destruct (last_built rs); [reflexivity|].
    rewrite H1. destruct (fst (m s)); reflexivity.
Qed.

Lemma create_index_from_nodes_ok nodes sc f s idx s' :
  create_index_from_nodes nodes sc f s = (Ok idx, s') ->
  exists s1,
    (match storage_context (self s) with
     | None => initialize (index_init f) s = (Ok tt, s1)
     | Some _ => s1 = s
     end) /\
    idx = {| idx_nodes := nodes; idx_storage_context := storage_context (self s1);
             idx_service_context := sc |} /\
    self s' = with_index (Some idx) (self s1).
Proof.
  unfold create_index_from_nodes. rewrite run_bind. cbn [get]. rewrite run_bind.
  intros H.
  assert (Hbuild : forall s1,
            build_index nodes sc (build_fails f) s1 = (Ok idx, s') ->
            idx = {| idx_nodes := nodes;
                     idx_storage_context := storage_context (self s1);
                     idx_service_context := sc |} /\
            self s' = with_index (Some idx) (self s1)).
  { intros s1 Hb. destruct (build_fails f) as [e|].
    - destruct (build_index_raises nodes sc e s1) as (s2 & E & _).
      rewrite E in Hb. discriminate.
    - destruct (build_index_ok nodes sc s1) as (s2 & E & Hs).
      rewrite E in Hb. injection Hb as <- <-. auto. }
  destruct (storage_context (self s)).
  - exists s. split; [reflexivity|]. apply Hbuild, H.
  - destruct (initialize (index_init f) s) as [[[]|e] s1]; [|discriminate].
    exists s1. split; [reflexivity|]. apply Hbuild, H.
Qed.

(** C9. [create_index_from_nodes] runs [initialize] first when the manager
    has no storage context, builds an index over the given nodes bound to
    the manager's storage context, and returns that handle; [get_index]
    returns the handle of the most recent call that returned, and [None]
    on a manager on which no index has been built. *)
Theorem create_index_and_get_index :
  (forall nodes sc f s,
      (storage_context (self s) = None ->
       create_index_from_nodes nodes sc f s
         = (initialize (index_init f);; build_index nodes sc (build_fails f)) s /\
       Log INFO InitStart ∈ trace (snd (create_index_from_nodes nodes sc f s)) /\
       forall idx s', create_index_from_nodes nodes sc f s = (Ok idx, s') ->
                      initialized (self s')) /\
      (forall idx s',
          create_index_from_nodes nodes sc f s = (Ok idx, s') ->
          idx_nodes idx = nodes /\ idx_service_context idx = sc /\
          is_Some (storage_context (self s')) /\
          idx_storage_context idx = storage_context (self s') /\
          get_index s' = (Ok (Some idx), s')) /\
      (forall e s',
          create_index_from_nodes nodes sc f s = (Raise e, s') ->
          get_index s' = (Ok (index (self s)), s'))) /\
  (forall calls s, exists rs,
      fst (create_indexes calls s) = Ok rs /\
      fst (get_index (snd (create_indexes calls s)))
      = Ok (match last_built rs with
            | Some i => Some i
            | None => index (self s)
            end)) /\
  (forall table url dim m evs tb ext,
      __init__ table url dim = (Ok m, evs) ->
      get_index (fresh m tb ext) = (Ok None, fresh m tb ext)).
Proof.
  split; [|split].
  - intros nodes sc f s. split; [|split].
    + intros Hnone. split; [|split].
      * unfold create_index_from_nodes. rewrite run_bind. cbn [get].
        rewrite Hnone. reflexivity.
      * unfold create_index_from_nodes. rewrite run_bind. cbn [get].
        rewrite Hnone, run_bind.
        pose proof (initialize_logs_start (index_init f) s) as Hstart.
        destruct (initialize (index_init f) s) as [[[]|e] s1]; cbn in *.
        -- apply (build_index_keeps_events nodes sc (build_fails f)), Hstart.
        -- exact Hstart.
      * intros idx s' H.
        destruct (create_index_from_nodes_ok _ _ _ _ _ _ H) as (s1 & Hinit & _ & Hs).
        rewrite Hnone in Hinit.
        pose proof (initialize_ok_initialized (index_init f) s) as Hi.
        rewrite Hinit in Hi. specialize (Hi eq_refl). cbn in Hi.
        destruct Hi as (vs & Hv & Hn & Hc). exists vs. rewrite Hs. cbn. auto.
    + intros idx s' H.
      destruct (create_index_from_nodes_ok _ _ _ _ _ _ H) as (s1 & Hinit & Hidx & Hs).
      assert (Hsc : is_Some (storage_context (self s1))).
      { destruct (storage_context (self s)) eqn:Hctx.
        - subst s1. rewrite Hctx. eauto.
        - pose proof (initialize_ok_initialized (index_init f) s) as Hi.
          rewrite Hinit in Hi. cbn in Hi.
          destruct (Hi eq_refl) as (vs & _ & _ & Hc). rewrite Hc. eauto. }
      unfold get_index. run. rewrite Hs. cbn. subst idx. cbn. auto.
    + intros e s' H.
      pose proof (create_index_from_nodes_index nodes sc f s) as Hi.
      rewrite H in Hi. cbn in Hi. unfold get_index. run. rewrite Hi. reflexivity.
  - intros calls s. destruct (create_indexes_index calls s) as (rs & Hrs & Hi).
    exists rs. split; [exact Hrs|]. unfold get_index. run. rewrite Hi. reflexivity.
  - intros table url dim m evs tb ext H. unfold __init__ in H.
    destruct url as [[|c u]|]; try discriminate.
    injection H as <- _. reflexivity.
Qed.

Lemma create_index_and_get_index_witness :
  (exists idx s',
      create_index_from_nodes [Fixtures.chunk_a] None Fixtures.no_index_faults
        Fixtures.ready = (Ok idx, s') /\
      idx_nodes idx = [Fixtures.chunk_a] /\
      get_index s' = (Ok (Some idx), s')) /\
  Log INFO InitStart
    ∈ trace (snd (create_index_from_nodes [Fixtures.chunk_a] None
                    Fixtures.no_index_faults
                    (fresh Fixtures.new_manager Fixtures.two_rows true))) /\
  get_index (fresh Fixtures.new_manager Fixtures.two_rows true)
    = (Ok None, fresh Fixtures.new_manager Fixtures.two_rows true).
Proof.
  destruct create_index_and_get_index as (Hcall & _ & Hnew).
  split; [|split].
  - destruct (Hcall [Fixtures.chunk_a] None Fixtures.no_index_faults
                Fixtures.ready) as (_ & Hok & _).
    eexists _, _. split; [reflexivity|].
    destruct (Hok _ _ eq_refl) as (Hnodes & _ & _ & _ & Hget).
    split; [exact Hnodes | exact Hget].
  - destruct (Hcall [Fixtures.chunk_a] None Fixtures.no_index_faults
                (fresh Fixtures.new_manager Fixtures.two_rows true))
      as (Hauto & _ & _).
    destruct (Hauto eq_refl) as (_ & Hstart & _). exact Hstart.
  - apply (Hnew "pdf_documents" (Some Fixtures.url) 1536 Fixtures.new_manager
             [Log INFO (EmbedDimUsed (DimInt 1536))]).
    reflexivity.
Defined.

End PGVectorProofs.

(** ** The query engine *)

Module RetrieverProofs.
Import Retriever.

Ltac run :=
  unfold logger, set_filters, try_except, modify, get, may_fail, raise,
    mbind, mret, exec_bind, exec_ret;
  cbn.

(** *** The framework's pipeline *)

Lemma postprocess_scores p ns n :
  In n (postprocess p ns) -> (similarity_cutoff p <= score n)%Q.
Proof.
  unfold postprocess. intros H. apply filter_In in H as [_ H].
  apply Qle_bool_iff, H.
Qed.

Lemma postprocess_length p ns : (length (postprocess p ns) <= length ns)%nat.
Proof.
  unfold postprocess. induction ns as [|n ns IH]; cbn; [lia|].
  destruct (Qle_bool _ _); cbn; lia.
Qed.

(** What [engine_query] hands back comes from the first [top_k] ranked
    chunks and has passed the cutoff. *)
Lemma engine_query_source_nodes qe q r k c :
  similarity_top_k qe = k ->
  node_postprocessors qe = [ {| similarity_cutoff := c |} ] ->
  engine_query qe q = Ok r ->
  exists ns, source_nodes r = Some ns /\ (length ns <= k)%nat /\
             forall n, In n ns -> (c <= score n)%Q.
Proof.
  intros Hk Hp. unfold engine_query. rewrite Hk, Hp.
  destruct (ranked_matches _ _ _ _ _) as [ranked|e]; [|discriminate].
  cbn [fold_left].
  destruct (complete _ _ _) as [answer|e]; [|discriminate].
  intros [= <-]. cbn. eexists. split; [reflexivity|]. split.
  - etransitivity; [apply postprocess_length|]. apply firstn_le_length.
  - intros n Hn. apply (postprocess_scores _ _ _ Hn).
Qed.

(** *** [query] *)

(** The outcome of [query] is the outcome of the framework engine with
    the per-call filter in place, reformatted. *)
Lemma query_outcome q fs s :
  fst (query q fs s)
  = match engine_query (engine_at_query fs (query_engine (self s))) q with
    | Ok r =>
        Ok [ ("response", RStr (response_str r));
             ("citations", RList (map citation (default [] (source_nodes r)))) ]
    | Raise e => Raise e
    end.
Proof.
  destruct s as [e lg]. unfold query, engine_at_query. run.
  destruct fs as [f|]; cbn.
  - destruct (has_filter_slot (query_engine e)) eqn:Hslot; cbn.
    + destruct (engine_query _ q) as [r|err]; cbn; [|reflexivity].
      destruct (active_filters (query_engine e)); reflexivity.
    + rewrite ?Hslot. destruct (engine_query _ q) as [r|err]; cbn; reflexivity.
  - destruct (engine_query _ q) as [r|err]; cbn; reflexivity.
Qed.

(** The engine after [query] is the engine before it, up to the content
    of the filter slot. *)
Lemma query_engine_after q fs s :
  query_engine (self (snd (query q fs s))) = query_engine (self s) \/
  exists v, query_engine (self (snd (query q fs s)))
            = with_filters v (query_engine (self s)).
Proof.
  destruct s as [e lg]. unfold query. run.
  destruct fs as [f|]; cbn.
  - destruct (has_filter_slot (query_engine e)) eqn:Hslot; cbn.
    + destruct (engine_query _ q) as [r|err]; cbn; [|right; eauto].
      destruct (active_filters (query_engine e)); cbn; right; eauto.
    + destruct (engine_query _ q) as [r|err]; cbn; left; reflexivity.
  - destruct (engine_query _ q) as [r|err]; cbn; left; reflexivity.
Qed.

(** The filter slot after [query]: the per-call filter is taken out
    again only when the call returns and the saved filter is not
    [None]. *)
Lemma query_filter_slot q fs s :
  filter_slot (self (snd (query q fs s)))
  = match fs with
    | None => filter_slot (self s)
    | Some f =>
        if has_filter_slot (query_engine (self s)) then
          match engine_query (with_filters (Some f) (query_engine (self s))) q,
                active_filters (query_engine (self s)) with
          | Ok _, Some saved => Some (Some saved)
          | _, _ => Some (Some f)
          end
        else filter_slot (self s)
    end.
Proof.
  destruct s as [e lg]. unfold query. run.
  destruct fs as [f|]; cbn.
  - destruct (has_filter_slot (query_engine e)) eqn:Hslot; cbn.
    + destruct (engine_query _ q) as [r|err]; cbn; [|reflexivity].
      destruct (active_filters (query_engine e)); reflexivity.
    + destruct (engine_query _ q) as [r|err]; cbn; reflexivity.
  - destruct (engine_query _ q) as [r|err]; cbn; reflexivity.
Qed.

(** What does hold of the restoration: a call without filters leaves the
    slot alone, and a call that returns puts a saved filter back. *)
Lemma query_restores_saved_filter q f s saved r :
  filter_slot (self s) = Some (Some saved) ->
  fst (query q (Some f) s) = Ok r ->
  filter_slot (self (snd (query q (Some f) s))) = Some (Some saved).
Proof.
  intros Hslot Hok. rewrite query_filter_slot.
  rewrite query_outcome in Hok. unfold engine_at_query in Hok.
  unfold filter_slot in Hslot. unfold has_filter_slot, active_filters in *.
  destruct (retriever (query_engine (self s))) as [rt|]; [|discriminate].
  rewrite Hslot in *. cbn in *.
  destruct (engine_query _ q); [reflexivity | discriminate].
Qed.

(** C1. The filter slot after [query] differs from the slot before it on
    an engine built by [__init__] whose filter slot holds [None]: the
    per-call filter stays, and the next call without filters answers under
    it. It differs as well when the call raises after the substitution,
    here on an engine whose default filter was set by [apply_filter]. *)
Theorem query_leaves_filter_behind :
  (exists e,
      Fixtures.engine_over Fixtures.fixed_llm = Ok e /\
      filter_slot e = Some None /\
      is_ok (fst (query "q" (Some Fixtures.only_b_pdf) (Fixtures.started e))) = true /\
      filter_slot (self (snd (query "q" (Some Fixtures.only_b_pdf)
                                (Fixtures.started e))))
        = Some (Some Fixtures.only_b_pdf) /\
      fst (query "q" None
             (snd (query "q" (Some Fixtures.only_b_pdf) (Fixtures.started e))))
        <> fst (query "q" None (Fixtures.started e))) /\
  (exists e,
      Fixtures.engine_over Fixtures.failing_llm = Ok e /\
      filter_slot (self (snd (apply_filter Fixtures.only_a_pdf (Fixtures.started e))))
        = Some (Some Fixtures.only_a_pdf) /\
      fst (query "q" (Some Fixtures.only_b_pdf)
             (snd (apply_filter Fixtures.only_a_pdf (Fixtures.started e))))
        = Raise "rate limit exceeded" /\
      filter_slot (self (snd (query "q" (Some Fixtures.only_b_pdf)
                                (snd (apply_filter Fixtures.only_a_pdf
                                        (Fixtures.started e))))))
        = Some (Some Fixtures.only_b_pdf)).
Proof.
  split.
  - eexists. split; [reflexivity|].
    split; [reflexivity|]. split; [reflexivity|]. split; [reflexivity|].
    intros H. vm_compute in H. discriminate H.
  - eexists. split; [reflexivity|].
    split; [reflexivity|]. split; reflexivity.
Qed.

(** C6. A call of [query] that returns hands back the dictionary with the
    keys "response" and "citations": the response is the string of the
    framework's answer, and the citations are one dictionary per source
    chunk of that answer, in the same order, holding the text of the chunk
    under "content", its score under "score" and its metadata under
    "metadata". The call returns whenever the framework's engine does. *)
Theorem query_result_shape (q : string) (fs : option MetadataFilters) (s : state) :
  (forall r,
      engine_query (engine_at_query fs (query_engine (self s))) q = Ok r ->
      is_ok (fst (query q fs s)) = true) /\
  (forall d s',
      query q fs s = (Ok d, s') ->
      exists r cs,
        engine_query (engine_at_query fs (query_engine (self s))) q = Ok r /\
        map fst d = ["response"; "citations"] /\
        dict_get "response" d = Some (RStr (response_str r)) /\
        dict_get "citations" d = Some (RList cs) /\
        length cs = length (default [] (source_nodes r)) /\
        forall i n,
          default [] (source_nodes r) !! i = Some n ->
          exists c,
            cs !! i = Some c /\
            map fst c = ["content"; "score"; "metadata"] /\
            dict_get "content" c = Some (CStr (text (node n))) /\
            dict_get "score" c = Some (CFloat (score n)) /\
            dict_get "metadata" c = Some (CMetadata (metadata (node n)))).
Proof.
  pose proof (query_outcome q fs s) as Hout. split.
  - intros r Hr. rewrite Hout, Hr. reflexivity.
  - intros d s' Hq. rewrite Hq in Hout. cbn in Hout.
    destruct (engine_query _ q) as [r|e]; [|discriminate].
    injection Hout as ->.
    exists r, (map citation (default [] (source_nodes r))).
    split; [reflexivity|]. split; [reflexivity|]. split; [reflexivity|].
    split; [reflexivity|]. split; [apply length_map|].
    intros i n Hn. exists (citation n). split.
    + rewrite list_lookup_fmap, Hn. reflexivity.
    + repeat split.
Qed.

Lemma query_result_shape_witness :
  exists d s',
    query "q" None (Fixtures.started (Fixtures.default_engine Fixtures.fixed_llm))
      = (Ok d, s') /\
    dict_get "response" d = Some (RStr "an answer") /\
    exists cs, dict_get "citations" d = Some (RList cs) /\ length cs = 2%nat.
Proof.
  destruct (query_result_shape "q" None
              (Fixtures.started (Fixtures.default_engine Fixtures.fixed_llm)))
    as [_ Hshape].
  eexists _, _. split; [reflexivity|].
  destruct (Hshape _ _ eq_refl) as (r & cs & Hr & _ & Hresp & Hcit & Hlen & _).
  injection Hr as <-.
  split; [exact Hresp|]. exists cs. split; [exact Hcit | exact Hlen].
Defined.

(** *** The retrieval configuration *)

Lemma init_configured index l em svc k c mode opts built e lg :
  __init__ index l em svc k c mode opts built = (Ok e, lg) ->
  configured k c e.
Proof.
  unfold __init__, as_query_engine. destruct built as [r|err]; [|discriminate].
  intros [= <- _]. split; reflexivity.
Qed.

Lemma with_filters_configured k c v e :
  configured k c e ->
  configured k c (with_query_engine (with_filters v (query_engine e)) e).
Proof. intros [Hk Hc]. split; assumption. Qed.

Lemma query_configured k c q fs s :
  configured k c (self s) -> configured k c (self (snd (query q fs s))).
Proof.
  intros [Hk Hc]. unfold configured.
  destruct (query_engine_after q fs s) as [-> | [v ->]]; split; assumption.
Qed.

Lemma apply_filter_configured k c f s :
  configured k c (self s) -> configured k c (self (snd (apply_filter f s))).
Proof.
  destruct s as [e lg]. unfold apply_filter. run.
  destruct (has_filter_slot (query_engine e)); cbn; [|auto].
  apply with_filters_configured.
Qed.

Lemma engine_at_query_configured k c fs e :
  configured k c e ->
  similarity_top_k (engine_at_query fs (query_engine e)) = k /\
  node_postprocessors (engine_at_query fs (query_engine e))
    = [ {| similarity_cutoff := c |} ].
Proof.
  intros [Hk Hc]. unfold engine_at_query.
  destruct fs; [destruct (has_filter_slot _)|]; split; assumption.
Qed.

(** Citations of an engine that retrieves at most [k] chunks and cuts
    below [c]. *)
Lemma query_citations_bounded k c q fs s d s' :
  configured k c (self s) ->
  query q fs s = (Ok d, s') ->
  exists cs,
    dict_get "citations" d = Some (RList cs) /\
    (length cs <= k)%nat /\
    forall ci, In ci cs ->
               exists x, dict_get "score" ci = Some (CFloat x) /\ (c <= x)%Q.
Proof.
  intros Hconf Hq.
  destruct (engine_at_query_configured k c fs (self s) Hconf) as [Hk Hc].
  pose proof (query_outcome q fs s) as Hout. rewrite Hq in Hout. cbn in Hout.
  destruct (engine_query _ q) as [r|e] eqn:Hr; [|discriminate].
  injection Hout as ->.
  destruct (engine_query_source_nodes _ q r k c Hk Hc Hr) as (ns & Hns & Hlen & Hsc).
  rewrite Hns. cbn [default].
  exists (map citation ns). split; [reflexivity|].
  split; [rewrite length_map; exact Hlen|].
  intros ci Hci. apply in_map_iff in Hci as (n & <- & Hn).
  exists (score n). split; [reflexivity | apply Hsc, Hn].
Qed.

Lemma after_calls_configured k c history : forall s,
  configured k c (self s) -> configured k c (self (after_calls history s)).
Proof.
  induction history as [|[q fs|f] rest IH]; intros s Hconf; cbn.
  - exact Hconf.
  - apply IH, query_configured, Hconf.
  - apply IH, apply_filter_configured, Hconf.
Qed.

(** C2. On an engine constructed with top-K 4 and cutoff 0.7, whatever
    calls it has served before, a query that is answered has at most 4
    citations, each with a score of at least 0.7. *)
Theorem citations_respect_cutoff_and_top_k
    (index : VectorStoreIndex) (l : LLM) (em : BaseEmbedding)
    (svc : option ServiceContext) (mode : string) (opts : option (gmap string Z))
    (built : result (option BaseRetriever))
    (e : RAGQueryEngine) (lg : list (level * log_msg))
    (history : list call) (q : string) (fs : option MetadataFilters)
    (d : list (string * result_value)) (s' : state) :
  __init__ index l em svc 4 (7 # 10) mode opts built = (Ok e, lg) ->
  query q fs (after_calls history {| self := e; log := lg |}) = (Ok d, s') ->
  exists cs,
    dict_get "citations" d = Some (RList cs) /\
    (length cs <= 4)%nat /\
    forall ci, In ci cs ->
               exists x, dict_get "score" ci = Some (CFloat x) /\ (7 # 10 <= x)%Q.
Proof.
  intros Hinit Hq.
  eapply (query_citations_bounded 4 (7 # 10) q fs); [|exact Hq].
  apply after_calls_configured. cbn.
  apply (init_configured _ _ _ _ _ _ _ _ _ _ _ Hinit).
Qed.

Lemma citations_respect_cutoff_and_top_k_witness :
  exists d s',
    query "q" None
          (after_calls [CallApplyFilter Fixtures.only_a_pdf]
             {| self := Fixtures.default_engine Fixtures.fixed_llm;
                log := [(INFO, QueryModeUsed "hybrid");
                        (INFO, OptionsUsed default_pgvector_options);
                        (INFO, EngineCreated "hybrid")] |})
      = (Ok d, s') /\
    exists cs,
      dict_get "citations" d = Some (RList cs) /\
      (length cs <= 4)%nat /\
      forall ci, In ci cs ->
                 exists x, dict_get "score" ci = Some (CFloat x) /\
                           (7 # 10 <= x)%Q.
Proof.
  assert (Hinit : __init__ Fixtures.small_index Fixtures.fixed_llm Fixtures.embedder
                    None 4 (7 # 10) "hybrid" None
                    (Ok (Some Fixtures.unfiltered_retriever))
                  = (Ok (Fixtures.default_engine Fixtures.fixed_llm),
                     [(INFO, QueryModeUsed "hybrid");
                      (INFO, OptionsUsed default_pgvector_options);
                      (INFO, EngineCreated "hybrid")]))
    by (vm_compute; reflexivity).
  eexists _, _. split; [reflexivity|].
  apply (citations_respect_cutoff_and_top_k _ _ _ _ _ _ _ _ _
           [CallApplyFilter Fixtures.only_a_pdf] "q" None _ _ Hinit eq_refl).
Defined.

(** The end-to-end scenario: of three chunks scored 0.9, 0.75 and 0.5, the
    first two are cited, in that order. *)
Example query_cites_the_two_best :
  fst (query "q" None (Fixtures.started (Fixtures.default_engine Fixtures.fixed_llm)))
  = Ok [ ("response", RStr "an answer");
         ("citations", RList [citation Fixtures.hit_a; citation Fixtures.hit_b]) ].
Proof. reflexivity. Qed.

Example engine_over_default l :
  Fixtures.engine_over l = Ok (Fixtures.default_engine l).
Proof. vm_compute. reflexivity. Qed.

End RetrieverProofs.

Module DecimalProofs.
Import Numeral.

Ltac eval_digit :=
  match goal with
  | |- context [Config.digit_of ?c] =>
      let v := eval vm_compute in (Config.digit_of c) in
      change (Config.digit_of c) with v; cbv beta iota
  end.

(** Split a fact about a digit of ASCII into its ten cases. *)
Ltac digit_cases c H :=
  let Hc := fresh in
  assert (Hc : (c = 48 \/ c = 49 \/ c = 50 \/ c = 51 \/ c = 52 \/ c = 53 \/
                c = 54 \/ c = 55 \/ c = 56 \/ c = 57)%N)
    by (unfold is_digit in H; lia);
  clear H;
  repeat (destruct Hc as [Hc | Hc]; [subst c|]); [..|subst c].

Lemma digits_value_acc d : forall prev p,
  (d <> Decimal.Nil \/ prev = true) ->
  Config.digits_value prev (Zpos p) (digits d) = Some (Zpos (Pos.of_uint_acc d p)).
Proof.
  unfold digits, Text.bytes.
  induction d; intros prev p H;
    cbn [NilEmpty.string_of_uint list_ascii_of_string map
         Config.digits_value Pos.of_uint_acc];
    try (eval_digit;
         match goal with
         | |- Config.digits_value true ?a _ = Some (Zpos (Pos.of_uint_acc _ ?q)) =>
             replace a with (Zpos q) by lia
         end;
         apply IHd; right; reflexivity).
  destruct H as [H | ->]; [contradiction | reflexivity].
Qed.

Lemma digits_value_zero d : forall prev,
  (d <> Decimal.Nil \/ prev = true) ->
  Config.digits_value prev 0 (digits d) = Some (Z.of_N (Pos.of_uint d)).
Proof.
  unfold digits, Text.bytes.
  induction d; intros prev H;
    cbn [NilEmpty.string_of_uint list_ascii_of_string map
         Config.digits_value Pos.of_uint];
    try eval_digit.
  - destruct H as [H | ->]; [contradiction | reflexivity].
  - apply IHd. right. reflexivity.
  - apply (digits_value_acc d true 1%positive). right. reflexivity.
  - apply (digits_value_acc d true 2%positive). right. reflexivity.
  - apply (digits_value_acc d true 3%positive). right. reflexivity.
  - apply (digits_value_acc d true 4%positive). right. reflexivity.
  - apply (digits_value_acc d true 5%positive). right. reflexivity.
  - apply (digits_value_acc d true 6%positive). right. reflexivity.
  - apply (digits_value_acc d true 7%positive). right. reflexivity.
  - apply (digits_value_acc d true 8%positive). right. reflexivity.
  - apply (digits_value_acc d true 9%positive). right. reflexivity.
Qed.

(** A numeral is made of digits of ASCII. *)
Lemma digits_are_digits d : Forall is_digit (digits d).
Proof.
  unfold digits, Text.bytes, is_digit.
  induction d; cbn [NilEmpty.string_of_uint list_ascii_of_string map];
    constructor; try exact IHd; cbn; lia.
Qed.

Lemma digits_nonempty d : d <> Decimal.Nil -> exists c r, digits d = c :: r /\ is_digit c.
Proof.
  intros H. pose proof (digits_are_digits d) as Hd.
  destruct (digits d) as [|c r] eqn:E.
  - destruct d; cbn in E; try discriminate. contradiction.
  - inversion Hd; subst. eauto.
Qed.

Lemma bytes_length s : length (Text.bytes s) = String.length s.
Proof.
  unfold Text.bytes. rewrite length_map.
  induction s as [|a s IH]; cbn; [reflexivity | rewrite IH; reflexivity].
Qed.

(** The characters of a numeral: digits, after a minus sign for a negative
    number. *)
Lemma py_str_chars (n : Z) :
  Forall (fun c => is_digit c \/ c = 45%N) (Text.bytes (py_str n)).
Proof.
  unfold py_str.
  destruct n as [|p|p]; cbn [Z.to_int NilEmpty.string_of_int].
  - constructor; [left; unfold is_digit; cbn; lia | constructor].
  - eapply Forall_impl; [apply digits_are_digits | auto].
  - change (Text.bytes (String "-" (NilEmpty.string_of_uint (Pos.to_uint p))))
      with (45%N :: digits (Pos.to_uint p)).
    constructor; [right; reflexivity|].
    eapply Forall_impl; [apply digits_are_digits | auto].
Qed.

(** Decoding leaves ASCII as it is. *)
Lemma decode_ascii bs :
  Forall (fun b => (b < 128)%N) bs -> Text.decode_bytes bs = bs.
Proof.
  induction 1 as [|b r Hb _ IH]; [reflexivity|].
  cbn [Text.decode_bytes]. apply N.ltb_lt in Hb. rewrite Hb, IH. reflexivity.
Qed.

Lemma decode_py_str n : Text.decode (py_str n) = Text.bytes (py_str n).
Proof.
  apply decode_ascii. eapply Forall_impl; [apply py_str_chars|].
  intros c [[H1 H2] | ->]; lia.
Qed.

(** Neither [strip] nor [int] takes anything off a numeral. *)
Lemma numeral_char_not_space c :
  is_digit c \/ c = 45%N ->
  Config.py_isspace c = false /\ Config.int_space c = false.
Proof.
  intros [H | ->]; [|split; reflexivity].
  digit_cases c H; split; reflexivity.
Qed.

Lemma strip_of_id space cs :
  Forall (fun c => space c = false) cs -> Config.strip_of space cs = cs.
Proof.
  intros H. unfold Config.strip_of.
  assert (Hl : forall l, Forall (fun c => space c = false) l -> Config.lstrip space l = l).
  { intros l Hf. destruct Hf as [|c r Hc _]; [reflexivity|]. cbn. rewrite Hc. reflexivity. }
  rewrite (Hl cs H), (Hl _ (Forall_rev H)). apply rev_involutive.
Qed.

Lemma digit_not_sign c :
  is_digit c -> ((c =? 45) || (c =? 43))%N = false /\ (c =? 45)%N = false.
Proof. intros H. digit_cases c H; split; reflexivity. Qed.

Lemma digit_count_digits d :
  Config.digit_count (digits d) = N.of_nat (length (digits d)).
Proof.
  unfold Config.digit_count. f_equal. f_equal.
  pose proof (digits_are_digits d) as H.
  induction H as [|c r Hc _ IH]; [reflexivity|].
  cbn [List.filter]. rewrite IH.
  digit_cases c Hc; reflexivity.
Qed.

(** [int] on an unsigned numeral, after an optional minus sign. *)
Lemma py_int_numeral (neg : bool) d :
  d <> Decimal.Nil ->
  Config.py_int ((if neg then String "-" else id) (NilEmpty.string_of_uint d))
  = if (4300 <? N.of_nat (length (digits d)))%N then None
    else Some (if neg then - Z.of_N (Pos.of_uint d) else Z.of_N (Pos.of_uint d)).
Proof.
  intros H.
  assert (Hf : Forall (fun c => is_digit c \/ c = 45%N) (digits d))
    by (eapply Forall_impl; [apply digits_are_digits | auto]).
  destruct (digits_nonempty d H) as (c & r & E & Hc).
  destruct (digit_not_sign c Hc) as [Hs Hm].
  unfold Config.py_int, Text.decode.
  destruct neg.
  - change (Text.bytes (String "-" (NilEmpty.string_of_uint d)))
      with (45%N :: digits d).
    rewrite decode_ascii
      by (constructor; [lia|]; eapply Forall_impl; [exact Hf|];
          intros x [[? ?] | ->]; lia).
    rewrite strip_of_id
      by (constructor; [reflexivity|]; eapply Forall_impl; [exact Hf|];
          intros x Hx; apply numeral_char_not_space; exact Hx).
    cbv beta iota zeta. change ((45 =? 45) || (45 =? 43))%N with true.
    change (45 =? 45)%N with true. cbv iota.
    rewrite digit_count_digits, (digits_value_zero d false (or_introl H)).
    unfold Config.int_max_str_digits. destruct (4300 <? _)%N; reflexivity.
  - unfold id. fold (digits d).
    rewrite decode_ascii
      by (eapply Forall_impl; [exact Hf|]; intros x [[? ?] | ->]; lia).
    rewrite strip_of_id
      by (eapply Forall_impl; [exact Hf|];
          intros x Hx; apply numeral_char_not_space; exact Hx).
    pose proof (digit_count_digits d) as Hn.
    pose proof (digits_value_zero d false (or_introl H)) as Hv.
    rewrite E in *. cbv beta iota zeta. rewrite Hs, Hm, Hn, Hv.
    unfold Config.int_max_str_digits. destruct (4300 <? _)%N; reflexivity.
Qed.

Lemma nb_digits_pos p :
  nb_digits (Z.pos p) = length (digits (Pos.to_uint p)) /\
  nb_digits (Z.neg p) = length (digits (Pos.to_uint p)).
Proof.
  unfold nb_digits, py_str, digits. rewrite bytes_length. split; reflexivity.
Qed.

(** [int(str(n))] is [n] for a numeral within the limit on digits, and a
    [ValueError] beyond it. *)
Lemma py_int_py_str (n : Z) :
  Config.py_int (py_str n)
  = if (nb_digits n <=? 4300)%nat then Some n else None.
Proof.
  destruct n as [|p|p].
  - reflexivity.
  - rewrite (proj1 (nb_digits_pos p)).
    pose proof (py_int_numeral false _ (Unsigned.to_uint_nonnil p)) as Hn.
    cbv beta iota in Hn. unfold id in Hn.
    change (py_str (Z.pos p)) with (NilEmpty.string_of_uint (Pos.to_uint p)).
    rewrite Hn, Unsigned.of_to. clear Hn.
    destruct (Nat.leb_spec (length (digits (Pos.to_uint p))) 4300) as [Hl|Hl].
    + rewrite (proj2 (N.ltb_ge _ _)) by lia. reflexivity.
    + rewrite (proj2 (N.ltb_lt _ _)) by lia. reflexivity.
  - rewrite (proj2 (nb_digits_pos p)).
    pose proof (py_int_numeral true _ (Unsigned.to_uint_nonnil p)) as Hn.
    cbv beta iota in Hn.
    change (py_str (Z.neg p)) with (String "-" (NilEmpty.string_of_uint (Pos.to_uint p))).
    rewrite Hn, Unsigned.of_to. clear Hn.
    destruct (Nat.leb_spec (length (digits (Pos.to_uint p))) 4300) as [Hl|Hl].
    + rewrite (proj2 (N.ltb_ge _ _)) by lia. reflexivity.
    + rewrite (proj2 (N.ltb_lt _ _)) by lia. reflexivity.
Qed.

(** The numeral of a positive number is not a spelling of "none" and is
    not blank. *)
Lemma numeral_not_default (p : positive) :
  Config.use_default (Some (py_str (Zpos p))) = false.
Proof.
  unfold Config.use_default. rewrite decode_py_str.
  unfold py_str. cbn [Z.to_int NilEmpty.string_of_int].
  fold (digits (Pos.to_uint p)).
  pose proof (digits_are_digits (Pos.to_uint p)) as Hd.
  destruct (digits_nonempty (Pos.to_uint p) (Unsigned.to_uint_nonnil p))
    as (c & r & E & Hc).
  unfold Config.strip. rewrite strip_of_id
    by (eapply Forall_impl; [exact Hd|]; intros x Hx;
        apply numeral_char_not_space; left; exact Hx).
  rewrite E. apply orb_false_iff. split; apply bool_decide_eq_false_2.
  - intros Heq. apply (f_equal (@head N)) in Heq. cbn in Heq.
    digit_cases c Hc; vm_compute in Heq; discriminate.
  - discriminate.
Qed.

(** X1. A positive dimension written as a decimal numeral is read back as
    that number, without a warning, when the numeral has at most 4300
    digits; a longer one is refused by [int] and gives the default with
    the warning of line 54. *)
Theorem decimal_dimension_round_trip (n : Z) :
  0 < n ->
  Config.OPENAI_EMBEDDING_MODEL_DIM (Some (py_str n))
  = if (nb_digits n <=? 4300)%nat then (n, [])
    else (1536, [Config.WarnDimNotInteger (py_str n)]).
Proof.
  intros Hn. destruct n as [|p|p]; try lia.
  unfold Config.OPENAI_EMBEDDING_MODEL_DIM.
  rewrite numeral_not_default, py_int_py_str.
  destruct (nb_digits (Z.pos p) <=? 4300)%nat; reflexivity.
Qed.

Lemma decimal_dimension_round_trip_witness :
  Config.OPENAI_EMBEDDING_MODEL_DIM (Some "3072") = (3072, []).
Proof. exact (decimal_dimension_round_trip 3072 eq_refl). Defined.

End DecimalProofs.

Module SettingsProofs.
Import Settings.

Lemma default_model_valid : valid_model DEFAULT_OPENAI_MODEL = true.
Proof. vm_compute. reflexivity. Qed.

(** A configuration loads only once its three integers are read. *)
Lemma load_inv (env : gmap string string) (c : Config) (out : list printed) :
  load env = (Ok c, out) ->
  exists port size overlap,
    getenv_int env "APP_PORT" "7860" = Ok port /\
    getenv_int env "CHUNK_SIZE" "1000" = Ok size /\
    getenv_int env "CHUNK_OVERLAP" "200" = Ok overlap /\
    c = {| PGVECTOR_URL := env !! "PGVECTOR_URL";
           OPENAI_API_KEY := env !! "OPENAI_API_KEY";
           OPENAI_MODEL_NAME :=
             (let n := getenv env "OPENAI_MODEL_NAME" DEFAULT_OPENAI_MODEL in
              if valid_model n then n else DEFAULT_OPENAI_MODEL);
           OPENAI_EMBEDDING_MODEL_NAME :=
             getenv env "OPENAI_EMBEDDING_MODEL_NAME" "text-embedding-3-small";
           OPENAI_EMBEDDING_MODEL_DIM :=
             fst (Config.OPENAI_EMBEDDING_MODEL_DIM (env !! "OPENAI_EMBEDDING_MODEL_DIM"));
           APP_PORT := port;
           APP_HOST := getenv env "APP_HOST" "0.0.0.0";
           CHUNK_SIZE := size;
           CHUNK_OVERLAP := overlap |}.
Proof.
  unfold load.
  destruct (getenv_int env "APP_PORT" "7860") as [port|]; [|discriminate].
  destruct (getenv_int env "CHUNK_SIZE" "1000") as [size|]; [|discriminate].
  destruct (getenv_int env "CHUNK_OVERLAP" "200") as [overlap|]; [|discriminate].
  intros [= <- _]. eauto 10.
Qed.

Lemma load_model_name_valid (env : gmap string string) (c : Config)
    (out : list printed) :
  load env = (Ok c, out) -> OPENAI_MODEL_NAME c ∈ VALID_OPENAI_MODELS.
Proof.
  intros H. destruct (load_inv env c out H) as (? & ? & ? & _ & _ & _ & ->).
  cbn [OPENAI_MODEL_NAME]. unfold valid_model.
  case_bool_decide as Hv; [exact Hv|].
  eapply bool_decide_eq_true_1, default_model_valid.
Qed.

(** X2. The model name of a loaded configuration is always on the allow
    list: it is the name from the environment when that name is on the list,
    and the default model otherwise. *)
Theorem model_name_on_allow_list (env : gmap string string) (c : Config)
    (out : list printed) :
  load env = (Ok c, out) ->
  OPENAI_MODEL_NAME c ∈ VALID_OPENAI_MODELS /\
  (forall name, env !! "OPENAI_MODEL_NAME" = Some name ->
                name ∈ VALID_OPENAI_MODELS -> OPENAI_MODEL_NAME c = name) /\
  (forall name, env !! "OPENAI_MODEL_NAME" = Some name ->
                name ∉ VALID_OPENAI_MODELS ->
                OPENAI_MODEL_NAME c = DEFAULT_OPENAI_MODEL) /\
  (env !! "OPENAI_MODEL_NAME" = None -> OPENAI_MODEL_NAME c = DEFAULT_OPENAI_MODEL).
Proof.
  intros H. split; [exact (load_model_name_valid env c out H)|].
  destruct (load_inv env c out H) as (? & ? & ? & _ & _ & _ & ->).
  cbn [OPENAI_MODEL_NAME]. unfold getenv, valid_model.
  split; [|split].
  - intros name -> Hin. cbn. rewrite bool_decide_eq_true_2 by exact Hin. reflexivity.
  - intros name -> Hin. cbn. rewrite bool_decide_eq_false_2 by exact Hin. reflexivity.
  - intros ->. cbn. fold (valid_model DEFAULT_OPENAI_MODEL).
    rewrite default_model_valid. reflexivity.
Qed.

Lemma model_name_on_allow_list_witness :
  exists c, fst (load {[ "OPENAI_MODEL_NAME" := "gpt-5-preview" ]}) = Ok c /\
            OPENAI_MODEL_NAME c = "gpt-3.5-turbo".
Proof.
  destruct (load {[ "OPENAI_MODEL_NAME" := "gpt-5-preview" ]}) as [[c|e] out] eqn:E.
  - exists c. split; [reflexivity|].
    destruct (model_name_on_allow_list _ c out E) as (_ & _ & Hbad & _).
    apply (Hbad "gpt-5-preview"); [reflexivity|].
    intros H.
    assert (Hb : valid_model "gpt-5-preview" = true)
      by (apply bool_decide_eq_true_2; exact H).
    vm_compute in Hb. discriminate Hb.
  - vm_compute in E. discriminate E.
Defined.

(** The decimal defaults are integers. *)
Lemma defaults_parse :
  Config.py_int "7860" = Some 7860 /\ Config.py_int "1000" = Some 1000 /\
  Config.py_int "200" = Some 200.
Proof. repeat split. Qed.

(** The class body on integers written in other ways: digits of another
    script are read, white space of Unicode is skipped, a separator
    character of ASCII is not. *)
Example load_examples :
  (exists c, fst (load {[ "APP_PORT" := "７８６０" ]}) = Ok c /\ APP_PORT c = 7860) /\
  (exists c, fst (load {[ "CHUNK_SIZE" := "　512" ]}) = Ok c /\ CHUNK_SIZE c = 512) /\
  is_ok (fst (load {[ "APP_PORT" := String (ascii_of_N 28) "5" ]})) = false /\
  is_ok (fst (load {[ "CHUNK_OVERLAP" := "2OO" ]})) = false.
Proof.
  vm_compute. split; [eexists; split; reflexivity|].
  split; [eexists; split; reflexivity|]. split; reflexivity.
Qed.



(** X4. On a loaded configuration, [validate_config] raises exactly when the
    API key or the connection URL is unset or empty, the API key being
    tested first; it never changes the configuration and never prints: its
    repair of the model name has nothing left to repair. *)
Theorem validate_config_on_loaded (env : gmap string string) (c : Config)
    (out : list printed) :
  load env = (Ok c, out) ->
  snd (fst (validate_config c)) = c /\
  snd (validate_config c) = [] /\
  (is_ok (fst (fst (validate_config c))) = true <->
   unset (OPENAI_API_KEY c) = false /\ unset (PGVECTOR_URL c) = false) /\
  (unset (OPENAI_API_KEY c) = true ->
   fst (fst (validate_config c)) = Raise "OPENAI_API_KEY is not set") /\
  (unset (OPENAI_API_KEY c) = false -> unset (PGVECTOR_URL c) = true ->
   fst (fst (validate_config c)) = Raise "PGVECTOR_URL is not set").
Proof.
  intros Hload.
  pose proof (load_model_name_valid env c out Hload) as Hvalid.
  unfold validate_config, valid_model. rewrite (bool_decide_eq_true_2 _ Hvalid). cbn.
  destruct (unset (OPENAI_API_KEY c)), (unset (PGVECTOR_URL c)); cbn;
    repeat split; try discriminate; try reflexivity; intros [? ?]; discriminate.
Qed.


Lemma validate_config_on_loaded_witness :
  exists c out,
    load {[ "PGVECTOR_URL" := "postgresql://localhost/pdf" ]} = (Ok c, out) /\
    fst (fst (validate_config c)) = Raise "OPENAI_API_KEY is not set" /\
    snd (fst (validate_config c)) = c.
Proof.
  destruct (load {[ "PGVECTOR_URL" := "postgresql://localhost/pdf" ]})
    as [[c|e] out] eqn:E; [|vm_compute in E; discriminate E].
  exists c, out. split; [reflexivity|].
  destruct (validate_config_on_loaded _ c out E) as (Hsame & _ & _ & Hkey & _).
  split; [|exact Hsame].
  apply Hkey. vm_compute in E. injection E as <- _. reflexivity.
Defined.



(** X6. A loaded configuration that passes [validate_config] is usable
    downstream: [get_active_llm_config] returns the OpenAI entry with the
    key and an allow-listed model, and the vector-store manager can be
    constructed from it, with a positive embedding dimension. *)
Theorem validated_config_is_usable (env : gmap string string) (c : Config)
    (out : list printed) (table : string) :
  load env = (Ok c, out) ->
  fst (fst (validate_config c)) = Ok tt ->
  exists key m evs,
    OPENAI_API_KEY c = Some key /\ key <> EmptyString /\
    get_active_llm_config c
      = Ok [("api_key", key); ("model_name", OPENAI_MODEL_NAME c);
            ("provider", "openai")] /\
    OPENAI_MODEL_NAME c ∈ VALID_OPENAI_MODELS /\
    PGVector.__init__ table (PGVECTOR_URL c) (OPENAI_EMBEDDING_MODEL_DIM c)
      = (Ok m, evs) /\
    PGVector.valid_embed_dim (PGVector.embed_dim m) = true.
Proof.
  intros Hload Hok.
  pose proof (load_model_name_valid env c out Hload) as Hvalid.
  assert (Hdim : 0 < OPENAI_EMBEDDING_MODEL_DIM c).
  { destruct (load_inv env c out Hload) as (? & ? & ? & _ & _ & _ & ->).
    apply config_dim_positive. }
  unfold validate_config in Hok. unfold get_active_llm_config, PGVector.__init__.
  destruct (OPENAI_API_KEY c) as [[|a key]|]; cbn in Hok |- *; try discriminate.
  destruct (PGVECTOR_URL c) as [[|b url]|]; cbn in Hok |- *; try discriminate.
  eexists _, _, _. repeat (split; [reflexivity || discriminate || exact Hvalid|]).
  cbn. apply Z.ltb_lt. exact Hdim.
Qed.

Lemma validated_config_is_usable_witness :
  exists c out m evs,
    load {[ "OPENAI_API_KEY" := "sk-test";
            "PGVECTOR_URL" := "postgresql://localhost/pdf";
            "OPENAI_EMBEDDING_MODEL_DIM" := "-5" ]} = (Ok c, out) /\
    PGVector.__init__ "pdf_documents" (PGVECTOR_URL c) (OPENAI_EMBEDDING_MODEL_DIM c)
      = (Ok m, evs) /\
    PGVector.valid_embed_dim (PGVector.embed_dim m) = true.
Proof.
  destruct (load {[ "OPENAI_API_KEY" := "sk-test";
                    "PGVECTOR_URL" := "postgresql://localhost/pdf";
                    "OPENAI_EMBEDDING_MODEL_DIM" := "-5" ]})
    as [[c|e] out] eqn:E; [|vm_compute in E; discriminate E].
  assert (Hok : fst (fst (validate_config c)) = Ok tt).
  { vm_compute in E. injection E as <- _. reflexivity. }
  destruct (validated_config_is_usable _ c out "pdf_documents" E Hok)
    as (key & m & evs & _ & _ & _ & _ & Hm & Hd).
  exists c, out, m, evs. split; [reflexivity|]. split; [exact Hm | exact Hd].
Defined.

End SettingsProofs.

Module PGVectorMore.
Import PGVector PGVectorStates PGVectorProofs.

(** *** More on [initialize] *)

(** The skeleton of [initialize]: what every block keeps, [initialize]
    keeps. *)
Lemma initialize_stable (P : state -> Prop) f :
  stable P validate_embed_dim ->
  (forall l m, (forall d, m <> InvalidEmbedDim d) -> stable P (log l m)) ->
  stable P (open_aux_connection f) ->
  stable P (create_vector_store f) ->
  stable P (ensure_table f) ->
  (forall c, stable P (set_self (with_storage_context c))) ->
  stable P (initialize f).
Proof.
  intros Hv Hl Ha Hc Ht Hs. unfold initialize.
  apply stable_try_except.
  - apply stable_bind; [exact Hv | intros _].
    apply stable_bind; [apply Hl; discriminate | intros _].
    apply stable_bind; [exact Ha | intros _].
    apply stable_bind; [exact Hc | intros _].
    apply stable_bind; [exact Ht | intros _].
    apply stable_bind; [apply stable_may_fail | intros _].
    apply stable_bind; [apply stable_get | intros s0].
    apply stable_bind; [apply Hs | intros _]. apply Hl. discriminate.
  - intros e. apply stable_bind; [apply Hl; discriminate | intros _].
    apply stable_raise.
Qed.

Lemma ensure_table_keeps_rows f t rows : stable (holds_rows t rows) (ensure_table f).
Proof.
  intros [m tb ext tr] H. unfold holds_rows in *. cbn in H.
  unfold_ops. run.
  destruct (conn m); cbn; [|exact H].
  destruct (check_cursor_fails f); cbn; [exact H|].
  destruct (table_check_fails f); cbn; [exact H|].
  destruct (tb !! table_name m) eqn:Hn; cbn; [exact H|].
  destruct (create_table_fails f); cbn; [exact H|].
  destruct ext; cbn; [|exact H].
  rewrite Hn. cbn. rewrite lookup_insert_ne; [exact H|].
  intros <-. congruence.
Qed.

Lemma ensure_table_absent_or_new f n t : stable (absent_or_new n t) (ensure_table f).
Proof.
  intros [m tb ext tr] [Hname H]. unfold absent_or_new in *. cbn in Hname, H.
  unfold_ops. run.
  destruct (conn m); cbn; [|auto].
  destruct (check_cursor_fails f); cbn; [auto|].
  destruct (table_check_fails f); cbn; [auto|].
  destruct (tb !! table_name m) eqn:Hn; cbn; [auto|].
  destruct (create_table_fails f); cbn; [auto|].
  destruct ext; cbn; [|auto].
  rewrite Hn. cbn. split; [exact Hname|].
  destruct (decide (t = n)) as [->|Hne].
  - right. split; [reflexivity|]. rewrite Hname. apply lookup_insert_eq.
  - rewrite lookup_insert_ne by congruence.
    destruct H as [H | [? _]]; [auto | contradiction].
Qed.

(** X7. [initialize] never deletes or changes rows: a table keeps its rows,
    and a table that was absent is still absent afterwards, unless it is the
    manager's own table, which may have been created empty. *)
Theorem initialize_keeps_data (f : init_faults) (s : state) (t : string) :
  (forall rows, tables s !! t = Some rows ->
                tables (snd (initialize f s)) !! t = Some rows) /\
  (tables s !! t = None ->
   tables (snd (initialize f s)) !! t = None \/
   (t = table_name (self s) /\ tables (snd (initialize f s)) !! t = Some [])).
Proof.
  split.
  - intros rows H. apply (initialize_stable (holds_rows t rows)); [..|exact H].
    + apply stable_validate_embed_dim; intros; exact H0.
    + intros l m _. stable_block assumption.
    + stable_block assumption.
    + stable_block assumption.
    + apply ensure_table_keeps_rows.
    + intros c. stable_block assumption.
  - intros H.
    assert (Hq : absent_or_new (table_name (self s)) t (snd (initialize f s))).
    { apply (initialize_stable (absent_or_new (table_name (self s)) t)).
      - apply stable_validate_embed_dim; intros; exact H0.
      - intros l m _. stable_block assumption.
      - stable_block assumption.
      - stable_block assumption.
      - apply ensure_table_absent_or_new.
      - intros c. stable_block assumption.
      - split; [reflexivity | left; exact H]. }
    destruct Hq as [_ Hq]. exact Hq.
Qed.


Lemma initialize_keeps_data_witness :
  tables (snd (initialize Fixtures.extension_and_table_fail
                 (fresh Fixtures.new_manager Fixtures.two_rows true)))
    !! "pdf_documents" = Some [Fixtures.chunk_a; Fixtures.chunk_b].
Proof.
  apply (initialize_keeps_data Fixtures.extension_and_table_fail
           (fresh Fixtures.new_manager Fixtures.two_rows true) "pdf_documents").
  reflexivity.
Defined.

Ltac keep_never_closed :=
  unfold never_closed in *; cbn in *;
  first [ assumption
        | let Hin := fresh in
          intros Hin; apply elem_of_app in Hin as [Hin|Hin];
          [ contradiction | apply list_elem_of_singleton in Hin; discriminate Hin ] ].

Lemma open_aux_connection_conn f s :
  aux_conn (snd (open_aux_connection f s)) = connection_after f.
Proof.
  unfold aux_conn, connection_after. unfold_ops.
  destruct (connect_fails f); [run; reflexivity|].
  destruct (extension_cursor_fails f), (extension_fails f); run; reflexivity.
Qed.

(** X8. [initialize] never closes a connection: it puts a new open
    connection with autocommit in [self.conn], or [None] when the connection
    cannot be opened, whatever [self.conn] held before. *)
Theorem initialize_replaces_connection (f : init_faults) (s : state) :
  aux_conn (snd (initialize f s)) = connection_after f /\
  (Close ∉ trace s -> Close ∉ trace (snd (initialize f s))).
Proof.
  split.
  - unfold initialize.
    enter_try validate_embed_dim_returns.
    enter_try (log_returns INFO InitStart).
    enter_try (open_aux_connection_returns f).
    match goal with
    | |- context [open_aux_connection f ?t] =>
        pose proof (open_aux_connection_conn f t) as H
    end.
    revert H. apply (stable_try_except (fun s => aux_conn s = _)).
    + stable_block assumption.
    + intros e. stable_block assumption.
  - apply (initialize_stable never_closed).
    + intros [m tb ext tr] H. unfold validate_embed_dim. unfold_state_ops. run.
      destruct (valid_embed_dim (embed_dim m)); keep_never_closed.
    + intros l m _. stable_block keep_never_closed.
    + stable_block keep_never_closed.
    + stable_block keep_never_closed.
    + stable_block keep_never_closed.
    + intros c. stable_block keep_never_closed.
Qed.

Lemma initialize_replaces_connection_witness :
  Close ∉ trace (snd (initialize Fixtures.no_init_faults Fixtures.ready)).
Proof.
  destruct (initialize_replaces_connection Fixtures.no_init_faults Fixtures.ready)
    as [_ Hkeep].
  apply Hkeep. intros H. inversion H.
Defined.


Lemma validate_embed_dim_run m tb ext tr :
  exists tr',
    validate_embed_dim {| self := m; tables := tb; vector_extension := ext; trace := tr |}
    = (Ok tt, {| self := with_embed_dim (repaired_dim m) m; tables := tb;
                 vector_extension := ext; trace := tr' |}).
Proof.
  unfold validate_embed_dim, repaired_dim. unfold_state_ops. run.
  destruct m as [tn cs d vs sc ix cn]. cbn.
  destruct (valid_embed_dim d); cbn; eexists; reflexivity.
Qed.

Lemma log_run l msg m tb ext tr :
  log l msg {| self := m; tables := tb; vector_extension := ext; trace := tr |}
  = (Ok tt, {| self := m; tables := tb; vector_extension := ext;
               trace := tr ++ [Log l msg] |}).
Proof. reflexivity. Qed.

Lemma open_aux_connection_run m tb ext tr :
  exists tr',
    open_aux_connection Fixtures.no_init_faults
      {| self := m; tables := tb; vector_extension := ext; trace := tr |}
    = (Ok tt, {| self := with_conn (Some {| closed := false; autocommit := true |}) m;
                 tables := tb; vector_extension := true; trace := tr' |}).
Proof. unfold_ops. run. eexists. reflexivity. Qed.

Lemma create_vector_store_run m tb ext tr :
  exists tr',
    create_vector_store Fixtures.no_init_faults
      {| self := m; tables := tb; vector_extension := ext; trace := tr |}
    = (Ok tt,
       {| self := with_vector_store
                    (Some {| vs_table_name := table_name m; vs_embed_dim := embed_dim m;
                             vs_hybrid_search := true;
                             vs_text_search_config := "chinese" |}) m;
          tables := tb; vector_extension := ext; trace := tr' |}).
Proof. unfold_ops. run. eexists. reflexivity. Qed.

Lemma ensure_table_run m tb tr c :
  conn m = Some c ->
  exists tr',
    ensure_table Fixtures.no_init_faults
      {| self := m; tables := tb; vector_extension := true; trace := tr |}
    = (Ok tt, {| self := m; tables := with_table (table_name m) tb;
                 vector_extension := true; trace := tr' |}).
Proof.
  intros Hc. unfold with_table. unfold_ops. run. rewrite Hc. cbn.
  destruct (tb !! table_name m) eqn:Hn; cbn; rewrite ?Hn; cbn; eexists; reflexivity.
Qed.

Lemma initialize_no_faults s :
  fst (initialize Fixtures.no_init_faults s) = Ok tt /\
  self (snd (initialize Fixtures.no_init_faults s)) = after_initialize (self s) /\
  tables (snd (initialize Fixtures.no_init_faults s))
    = with_table (table_name (self s)) (tables s) /\
  vector_extension (snd (initialize Fixtures.no_init_faults s)) = true.
Proof.
  destruct s as [m tb ext tr]. unfold initialize.
  enter_try validate_embed_dim_returns.
  destruct (validate_embed_dim_run m tb ext tr) as [tr1 E1]. rewrite E1. cbn [snd].
  enter_try (log_returns INFO InitStart).
  rewrite log_run. cbn [snd].
  enter_try (open_aux_connection_returns Fixtures.no_init_faults).
  destruct (open_aux_connection_run (with_embed_dim (repaired_dim m) m) tb ext
              (tr1 ++ [Log INFO InitStart])) as [tr2 E2]. rewrite E2. cbn [snd].
  enter_try (create_vector_store_returns Fixtures.no_init_faults eq_refl).
  destruct (create_vector_store_run
              (with_conn (Some {| closed := false; autocommit := true |})
                 (with_embed_dim (repaired_dim m) m)) tb true tr2) as [tr3 E3].
  rewrite E3. cbn [snd].
  enter_try (ensure_table_returns Fixtures.no_init_faults).
  match goal with
  | |- context [ensure_table _ {| self := ?m4; tables := _; vector_extension := _;
                                  trace := _ |}] =>
      destruct (ensure_table_run m4 tb tr3 {| closed := false; autocommit := true |}
                  eq_refl) as [tr4 E4]
  end.
  rewrite E4. cbn [snd].
  unfold_state_ops. run. unfold after_initialize, repaired_dim.
  destruct m as [tn cs d vs sc ix cn]. cbn. auto.
Qed.

Lemma after_initialize_idempotent m :
  after_initialize (after_initialize m) = after_initialize m.
Proof.
  unfold after_initialize. cbn.
  destruct (valid_embed_dim (embed_dim m)) eqn:Hv; cbn; rewrite ?Hv; reflexivity.
Qed.

Lemma with_table_idempotent t tb : with_table t (with_table t tb) = with_table t tb.
Proof.
  unfold with_table. destruct (tb !! t) eqn:H; [rewrite H; reflexivity|].
  rewrite lookup_insert_eq. reflexivity.
Qed.

(** X9. When nothing fails, a second [initialize] changes neither the
    manager nor the database: the dimension, the handles, the connection
    slot, the tables and the extension are as the first call left them. *)
Theorem initialize_twice (s : state) :
  fst (initialize Fixtures.no_init_faults
         (snd (initialize Fixtures.no_init_faults s))) = Ok tt /\
  self (snd (initialize Fixtures.no_init_faults
               (snd (initialize Fixtures.no_init_faults s))))
    = self (snd (initialize Fixtures.no_init_faults s)) /\
  tables (snd (initialize Fixtures.no_init_faults
                 (snd (initialize Fixtures.no_init_faults s))))
    = tables (snd (initialize Fixtures.no_init_faults s)) /\
  vector_extension (snd (initialize Fixtures.no_init_faults
                           (snd (initialize Fixtures.no_init_faults s))))
    = vector_extension (snd (initialize Fixtures.no_init_faults s)).
Proof.
  destruct (initialize_no_faults s) as (_ & Hs & Ht & Hx).
  destruct (initialize_no_faults (snd (initialize Fixtures.no_init_faults s)))
    as (Hok & Hs2 & Ht2 & Hx2).
  split; [exact Hok|].
  split; [rewrite Hs2, Hs; apply after_initialize_idempotent|].
  split; [|rewrite Hx2, Hx; reflexivity].
  rewrite Ht2, Ht, Hs. cbn. apply with_table_idempotent.
Qed.

(** *** Reading and clearing *)

(** [get_document_count] only reads: the manager, the tables and the
    extension are after the call what they were before, whatever the call
    returns. *)
Lemma get_document_count_reads_only (f : count_faults) (s : state) :
  self (snd (get_document_count f s)) = self s /\
  tables (snd (get_document_count f s)) = tables s /\
  vector_extension (snd (get_document_count f s)) = vector_extension s.
Proof.
  assert (H : preserves (fun s => (self s, tables s, vector_extension s))
                        (get_document_count f)).
  { apply preserves_stable. intros x. unfold get_document_count.
    stable_block assumption. }
  specialize (H s). cbn beta in H. injection H as -> -> ->. auto.
Qed.

(** X10. [clear_data] on an initialized manager touches no table but the
    manager's own, and leaves the manager and the extension alone. *)
Theorem clear_data_touches_own_table_only (f : clear_faults) (s : state) (t : string) :
  initialized (self s) ->
  t <> table_name (self s) ->
  tables (snd (clear_data f s)) !! t = tables s !! t /\
  self (snd (clear_data f s)) = self s /\
  vector_extension (snd (clear_data f s)) = vector_extension s.
Proof.
  destruct s as [m tb ext tr], f as [fd fc ft]. cbn [self tables vector_extension].
  intros (vs & Hvs & Hname & _) Hne.
  unfold clear_data. unfold_ops. run. rewrite Hvs, Hname. cbn.
  destruct fd as [e|]; cbn.
  - destruct (conn_usable (conn m)); cbn; [|auto].
    destruct fc; cbn; [auto|]. destruct ft; cbn; [auto|].
    destruct (tb !! table_name m); cbn; [|auto].
    rewrite lookup_insert_ne by congruence. auto.
  - destruct (tb !! table_name m); cbn; [|auto].
    rewrite lookup_insert_ne by congruence. auto.
Qed.

Lemma clear_data_touches_own_table_only_witness :
  tables (snd (clear_data Fixtures.no_clear_faults
                 (fresh Fixtures.ready_manager
                    (<["other" := [Fixtures.chunk_c]]> Fixtures.two_rows) true)))
    !! "other" = Some [Fixtures.chunk_c].
Proof.
  destruct (clear_data_touches_own_table_only Fixtures.no_clear_faults
              (fresh Fixtures.ready_manager
                 (<["other" := [Fixtures.chunk_c]]> Fixtures.two_rows) true)
              "other") as [H _].
  - eexists. split; [reflexivity|]. split; reflexivity.
  - discriminate.
  - rewrite H. reflexivity.
Defined.


(** *** Teardown *)

(** X11. [__del__] never raises. On a manager whose constructor has
    returned it closes an open connection, and logs a failure of the close;
    it does nothing when [self.conn] is [None] or closed already, so a
    second teardown after a successful one changes nothing. On the object
    left by a constructor that raised, [self.conn] does not exist: the
    attribute error is caught and logged, and nothing else happens. *)
Theorem teardown_closes_once (obj : finalized) (close_fails : option exn)
    (s : state) :
  fst (__del__ obj close_fails s) = Ok tt /\
  (obj = Abandoned ->
   exists e,
     snd (__del__ obj close_fails s)
     = {| self := self s; tables := tables s;
          vector_extension := vector_extension s;
          trace := trace s ++ [Log ERROR (CloseFailed e)] |}) /\
  (obj = Constructed -> conn_usable (conn (self s)) = false ->
   snd (__del__ obj close_fails s) = s) /\
  (obj = Constructed -> conn_usable (conn (self s)) = true -> close_fails = None ->
   conn_usable (conn (self (snd (__del__ obj close_fails s)))) = false /\
   trace (snd (__del__ obj close_fails s)) = trace s ++ [Close; Log INFO ConnectionClosed] /\
   __del__ Constructed None (snd (__del__ obj close_fails s))
     = (Ok tt, snd (__del__ obj close_fails s))) /\
  (forall e, obj = Constructed -> conn_usable (conn (self s)) = true ->
   close_fails = Some e ->
   self (snd (__del__ obj close_fails s)) = self s /\
   trace (snd (__del__ obj close_fails s)) = trace s ++ [Close; Log ERROR (CloseFailed e)]).
Proof.
  destruct s as [m tb ext tr]. unfold __del__. unfold_ops. run.
  destruct obj; cbn.
  - destruct (conn m) as [[[] ac]|] eqn:Hc; cbn.
    + split; [reflexivity|]. split; [discriminate|]. split; [reflexivity|].
      split; [discriminate | intros e0 _; discriminate].
    + destruct close_fails as [e|]; cbn.
      * split; [reflexivity|]. split; [discriminate|]. split; [discriminate|].
        split; [intros _ _; discriminate|].
        intros e0 _ _ [= <-]. rewrite <- app_assoc. auto.
      * split; [reflexivity|]. split; [discriminate|]. split; [discriminate|].
        split; [|intros e0 _ _; discriminate].
        intros _ _ _. rewrite <- app_assoc. auto.
    + split; [reflexivity|]. split; [discriminate|]. split; [reflexivity|].
      split; [discriminate | intros e0 _; discriminate].
  - split; [reflexivity|]. split; [intros _; eexists; reflexivity|].
    split; [discriminate|]. split; [discriminate | intros e0; discriminate].
Qed.

Lemma teardown_closes_once_witness :
  conn_usable (conn (self (snd (__del__ Constructed None Fixtures.ready)))) = false /\
  __del__ Constructed None (snd (__del__ Constructed None Fixtures.ready))
    = (Ok tt, snd (__del__ Constructed None Fixtures.ready)) /\
  exists e, trace (snd (__del__ Abandoned None Fixtures.ready))
            = trace Fixtures.ready ++ [Log ERROR (CloseFailed e)].
Proof.
  destruct (teardown_closes_once Constructed None Fixtures.ready)
    as (_ & _ & _ & Hclose & _).
  destruct (Hclose eq_refl eq_refl eq_refl) as (Hc & _ & Hagain).
  destruct (teardown_closes_once Abandoned None Fixtures.ready)
    as (_ & Hab & _).
  destruct (Hab eq_refl) as [e He].
  split; [exact Hc|]. split; [exact Hagain|].
  exists e. rewrite He. reflexivity.
Defined.

(** X12. After a teardown that closed the connection, the manager reports 0
    documents whatever its table holds, and a failed bulk delete is not
    followed by a truncate: the rows stay. *)
Theorem after_teardown (s : state) (fq : count_faults) (fc : clear_faults) (e : exn) :
  conn_usable (conn (self s)) = true ->
  is_Some (vector_store (self s)) ->
  delete_fails fc = Some e ->
  fst (get_document_count fq (snd (__del__ Constructed None s))) = Ok 0 /\
  fst (clear_data fc (snd (__del__ Constructed None s))) = Ok tt /\
  tables (snd (clear_data fc (snd (__del__ Constructed None s)))) = tables s /\
  Execute (TruncateTable (table_name (self s)))
    ∉ skipn (length (trace s)) (trace (snd (clear_data fc (snd (__del__ Constructed None s))))).
Proof.
  destruct s as [m tb ext tr], fc as [fd fcc ft]. cbn [self conn delete_fails].
  intros Hu [vs Hvs] ->.
  unfold __del__, get_document_count, clear_data. unfold_ops. run.
  destruct (conn m) as [[[] ac]|]; try discriminate. cbn. rewrite Hvs. cbn.
  repeat split.
  rewrite <- !app_assoc, skipn_app, Nat.sub_diag, skipn_all. cbn.
  intros Hin. apply list_elem_of_In in Hin. cbn in Hin.
  repeat (destruct Hin as [Hin|Hin]; [discriminate Hin|]). exact Hin.
Qed.

Lemma after_teardown_witness :
  fst (get_document_count Fixtures.no_count_faults (snd (__del__ Constructed None Fixtures.ready)))
    = Ok 0 /\
  tables (snd (clear_data Fixtures.delete_raises (snd (__del__ Constructed None Fixtures.ready))))
    = Fixtures.two_rows.
Proof.
  destruct (after_teardown Fixtures.ready Fixtures.no_count_faults
              Fixtures.delete_raises
              "delete() got an unexpected keyword argument" eq_refl
              (ex_intro _ Fixtures.store_handle eq_refl) eq_refl)
    as (Hcount & _ & Hrows & _).
  split; [exact Hcount | exact Hrows].
Defined.

(** *** Index creation on a manager that cannot be initialized *)

(** X13. On a manager without a storage context, when the vector-store client
    cannot be constructed, [create_index_from_nodes] raises that exception
    without attempting to build an index, and [get_index] is unchanged. *)
Theorem create_index_needs_store (nodes : list BaseNode)
    (sc : option ServiceContext) (f : index_faults) (s : state) (e : exn) :
  storage_context (self s) = None ->
  from_params_fails (index_init f) = Some e ->
  fst (create_index_from_nodes nodes sc f s) = Raise e /\
  index (self (snd (create_index_from_nodes nodes sc f s))) = index (self s) /\
  (forall n, BuildIndex n ∉ trace s ->
             BuildIndex n ∉ trace (snd (create_index_from_nodes nodes sc f s))).
Proof.
  intros Hnone Hfail.
  pose proof (initialize_raises (index_init f) s e Hfail) as Hr.
  pose proof (initialize_preserves_index (index_init f) s) as Hi. cbn beta in Hi.
  assert (Hev : forall n, stable (fun s => BuildIndex n ∉ trace s)
                                 (initialize (index_init f))).
  { intros n. apply initialize_stable.
    - intros [m tb ext tr] H. unfold validate_embed_dim. unfold_state_ops. run.
      destruct (valid_embed_dim (embed_dim m)); cbn; [exact H|].
      intros Hin. apply elem_of_app in Hin as [Hin|Hin]; [contradiction|].
      apply list_elem_of_singleton in Hin. discriminate.
    - intros l m _. stable_block
        ltac:(first [assumption
                    | intros Hin; apply elem_of_app in Hin as [Hin|Hin];
                      [contradiction | apply list_elem_of_singleton in Hin; discriminate]]).
    - stable_block
        ltac:(first [assumption
                    | intros Hin; apply elem_of_app in Hin as [Hin|Hin];
                      [contradiction | apply list_elem_of_singleton in Hin; discriminate]]).
    - stable_block
        ltac:(first [assumption
                    | intros Hin; apply elem_of_app in Hin as [Hin|Hin];
                      [contradiction | apply list_elem_of_singleton in Hin; discriminate]]).
    - stable_block
        ltac:(first [assumption
                    | intros Hin; apply elem_of_app in Hin as [Hin|Hin];
                      [contradiction | apply list_elem_of_singleton in Hin; discriminate]]).
    - intros c. stable_block assumption. }
  unfold create_index_from_nodes. rewrite run_bind. cbn [get]. rewrite Hnone, run_bind.
  destruct (initialize (index_init f) s) as [r s1] eqn:E. cbn in Hr, Hi. subst r.
  cbn. split; [reflexivity|]. split; [exact Hi|].
  intros n Hn. specialize (Hev n s Hn). rewrite E in Hev. exact Hev.
Qed.

Lemma create_index_needs_store_witness :
  fst (create_index_from_nodes [Fixtures.chunk_a] None
         {| index_init := Fixtures.client_fails; build_fails := None |}
         (fresh Fixtures.new_manager Fixtures.two_rows true))
    = Raise "could not connect to server".
Proof.
  destruct (create_index_needs_store [Fixtures.chunk_a] None
              {| index_init := Fixtures.client_fails; build_fails := None |}
              (fresh Fixtures.new_manager Fixtures.two_rows true)
              "could not connect to server" eq_refl eq_refl) as [H _].
  exact H.
Defined.


(** *** The configured dimension *)

Ltac keep_dim :=
  unfold uses_dim in *; cbn in *;
  lazymatch goal with
  | H : _ /\ _ /\ _ |- _ =>
      let Hd := fresh in
      let Hv := fresh in
      let Hw := fresh in
      destruct H as (Hd & Hv & Hw);
      split; [exact Hd|]; split; [exact Hv|];
      first [ exact Hw
            | let d := fresh in
              let Hin := fresh in
              intros d Hin; apply elem_of_app in Hin as [Hin|Hin];
              [ exact (Hw d Hin)
              | apply list_elem_of_singleton in Hin; discriminate Hin ] ]
  end.

Lemma create_vector_store_dim f n : stable (uses_dim n) (create_vector_store f).
Proof.
  intros [m tb ext tr] (Hd & Hv & Hw). cbn in *. unfold_ops. run.
  destruct (from_params_fails f); cbn.
  - split; [exact Hd|]. split; [exact Hv|]. cbn.
    intros d Hin. rewrite !elem_of_app, !list_elem_of_singleton in Hin.
    destruct Hin as [[[Hin|Hin]|Hin]|Hin]; [exact (Hw d Hin) | discriminate..].
  - split; [exact Hd|]. split; cbn.
    + intros vs [= <-]. exact Hd.
    + intros d Hin. rewrite !elem_of_app, !list_elem_of_singleton in Hin.
      destruct Hin as [[[Hin|Hin]|Hin]|Hin]; [exact (Hw d Hin) | discriminate..].
Qed.

Lemma initialize_keeps_dim f n : 0 < n -> stable (uses_dim n) (initialize f).
Proof.
  intros Hn. apply initialize_stable.
  - intros s H. rewrite validate_embed_dim_valid; [exact H|].
    destruct H as [-> _]. cbn. apply Z.ltb_lt. exact Hn.
  - intros l m Hm [mg tb ext tr] (Hd & Hv & Hw). unfold_state_ops. run.
    split; [exact Hd|]. split; [exact Hv|]. cbn.
    intros d Hin. apply elem_of_app in Hin as [Hin|Hin]; [exact (Hw d Hin)|].
    apply list_elem_of_singleton in Hin. injection Hin as _ Hin. exact (Hm d (eq_sym Hin)).
  - stable_block keep_dim.
  - apply create_vector_store_dim.
  - stable_block keep_dim.
  - intros c. stable_block keep_dim.
Qed.

(** X14. Whatever the environment holds, the manager constructed from the
    configuration works with the configured dimension through [initialize]:
    the manager's own check never repairs it and never warns, and the store
    client is created with it. *)
Theorem configured_dimension_is_kept (e : option string) (table url : string)
    (m : PGVectorManager) (evs : list event)
    (f : init_faults) (tb : gmap string (list BaseNode)) (ext : bool) :
  __init__ table (Some url) (fst (Config.OPENAI_EMBEDDING_MODEL_DIM e)) = (Ok m, evs) ->
  uses_dim (fst (Config.OPENAI_EMBEDDING_MODEL_DIM e))
           (snd (initialize f (fresh m tb ext))).
Proof.
  intros Hm. apply initialize_keeps_dim; [apply config_dim_positive|].
  unfold __init__ in Hm. destruct url; [discriminate|].
  injection Hm as <- _. split; [reflexivity|]. split; cbn.
  - discriminate.
  - intros d Hin. inversion Hin.
Qed.

Lemma configured_dimension_is_kept_witness :
  uses_dim 768
    (snd (initialize Fixtures.client_fails
            (fresh {| table_name := "pdf_documents";
                      connection_string := Fixtures.url;
                      embed_dim := DimInt 768; vector_store := None;
                      storage_context := None; index := None; conn := None |}
                   Fixtures.two_rows true))).
Proof.
  apply (configured_dimension_is_kept (Some "768") "pdf_documents" Fixtures.url
           _ [Log INFO (EmbedDimUsed (DimInt 768))]).
  reflexivity.
Defined.

End PGVectorMore.

Module RetrieverMore.
Import Retriever RetrieverProofs.

(** *** Store options *)

(** X15. The options handed to the framework are the caller's options over
    the two defaults: a key the caller gives keeps the caller's value, a key
    the caller leaves out has its default, and the engine is built with
    exactly these options. *)
Theorem pgvector_options_merge index l em svc k c mode opts built e lg (key : string) :
  __init__ index l em svc k c mode opts built = (Ok e, lg) ->
  pgvector_options e !! key
    = match default ∅ opts !! key with
      | Some v => Some v
      | None => default_pgvector_options !! key
      end /\
  vector_store_kwargs (query_engine e) = pgvector_options e.
Proof.
  unfold __init__, as_query_engine. destruct built as [r|err]; [|discriminate].
  intros [= <- _]. cbn. split; [|reflexivity].
  rewrite lookup_union.
  destruct (default ∅ opts !! key), (default_pgvector_options !! key); reflexivity.
Qed.

Lemma pgvector_options_merge_witness :
  exists e lg,
    __init__ Fixtures.small_index Fixtures.fixed_llm Fixtures.embedder None 4 (7 # 10)
             "hybrid" (Some {[ "hnsw_ef_search" := 200 ]})
             (Ok (Some Fixtures.unfiltered_retriever)) = (Ok e, lg) /\
    pgvector_options e !! "hnsw_ef_search" = Some 200 /\
    pgvector_options e !! "ivfflat_probes" = Some 10.
Proof.
  eexists _, _. split; [reflexivity|].
  split.
  - destruct (pgvector_options_merge Fixtures.small_index Fixtures.fixed_llm
                Fixtures.embedder None 4 (7 # 10) "hybrid"
                (Some {[ "hnsw_ef_search" := 200 ]})
                (Ok (Some Fixtures.unfiltered_retriever)) _ _ "hnsw_ef_search" eq_refl)
      as [H _].
    rewrite H. reflexivity.
  - destruct (pgvector_options_merge Fixtures.small_index Fixtures.fixed_llm
                Fixtures.embedder None 4 (7 # 10) "hybrid"
                (Some {[ "hnsw_ef_search" := 200 ]})
                (Ok (Some Fixtures.unfiltered_retriever)) _ _ "ivfflat_probes" eq_refl)
      as [H _].
    rewrite H. reflexivity.
Defined.

(** *** Queries and the engine *)

(** X16. A query without per-call filters never changes the engine, whether
    it returns or raises; it only writes to the log. *)
Theorem query_without_filters_keeps_engine (q : string) (s : state) :
  self (snd (query q None s)) = self s /\
  exists more, log (snd (query q None s)) = log s ++ more.
Proof.
  destruct s as [e lg]. unfold query. run.
  destruct (engine_query (query_engine e) q) as [r|err]; cbn.
  - split; [reflexivity|]. eexists. reflexivity.
  - split; [reflexivity|]. rewrite <- app_assoc. eexists. reflexivity.
Qed.

(** X17. On an engine without a filter slot, filters are ignored: [query]
    with a per-call filter answers as without it and leaves the engine as it
    was, and [apply_filter] changes nothing and logs a warning. *)
Theorem filters_ignored_without_slot (q : string) (f : MetadataFilters) (s : state) :
  has_filter_slot (query_engine (self s)) = false ->
  query q (Some f) s = query q None s /\
  apply_filter f s
    = (Ok tt, {| self := self s; log := log s ++ [(WARNING, FilterUnsupported)] |}).
Proof.
  destruct s as [e lg]. cbn [self log]. intros H.
  unfold query, apply_filter. run. rewrite H. cbn.
  split; [|reflexivity].
  destruct (engine_query (query_engine e) q) as [r|err]; cbn; reflexivity.
Qed.

Lemma filters_ignored_without_slot_witness :
  fst (query "q" (Some Fixtures.only_b_pdf) (Fixtures.started Samples.slotless_engine))
  = fst (query "q" None (Fixtures.started Samples.slotless_engine)) /\
  self (snd (apply_filter Fixtures.only_b_pdf (Fixtures.started Samples.slotless_engine)))
  = Samples.slotless_engine.
Proof.
  destruct (filters_ignored_without_slot "q" Fixtures.only_b_pdf
              (Fixtures.started Samples.slotless_engine) eq_refl) as [Hq Ha].
  split; [rewrite Hq | rewrite Ha]; reflexivity.
Defined.

(** X18. On an engine with a filter slot, [apply_filter] sets the default
    filter: the next query without per-call filters is answered as a query
    with that filter as per-call filter would have been, and the default is
    still in place after it. *)
Theorem apply_filter_sets_default (q : string) (f : MetadataFilters) (s : state) :
  has_filter_slot (query_engine (self s)) = true ->
  filter_slot (self (snd (apply_filter f s))) = Some (Some f) /\
  fst (query q None (snd (apply_filter f s))) = fst (query q (Some f) s) /\
  filter_slot (self (snd (query q None (snd (apply_filter f s))))) = Some (Some f).
Proof.
  destruct s as [e lg]. cbn [self]. intros H.
  rewrite !query_outcome, query_filter_slot.
  unfold apply_filter, engine_at_query. run. rewrite H. cbn.
  auto.
Qed.

Lemma apply_filter_sets_default_witness :
  filter_slot (self (snd (apply_filter Fixtures.only_a_pdf
                            (Fixtures.started (Fixtures.default_engine Fixtures.fixed_llm)))))
  = Some (Some Fixtures.only_a_pdf).
Proof.
  destruct (apply_filter_sets_default "q" Fixtures.only_a_pdf
              (Fixtures.started (Fixtures.default_engine Fixtures.fixed_llm)) eq_refl)
    as [H _].
  exact H.
Defined.

(** X19. [query] raises exactly what the framework's engine raises, after
    logging it as an error; a query that returns logs only that it was
    received. *)
Theorem query_logs_and_reraises (q : string) (fs : option MetadataFilters) (s : state) :
  match engine_query (engine_at_query fs (query_engine (self s))) q with
  | Ok _ =>
      is_ok (fst (query q fs s)) = true /\
      log (snd (query q fs s)) = log s ++ [(INFO, QueryReceived q)]
  | Raise e =>
      fst (query q fs s) = Raise e /\
      log (snd (query q fs s))
        = log s ++ [(INFO, QueryReceived q); (ERROR, QueryFailed e)]
  end.
Proof.
  destruct s as [e lg]. unfold query, engine_at_query. run.
  destruct fs as [f|]; cbn.
  - destruct (has_filter_slot (query_engine e)) eqn:Hslot; cbn.
    + destruct (engine_query _ q) as [r|err]; cbn.
      * destruct (active_filters (query_engine e)); cbn; auto.
      * rewrite <- app_assoc. auto.
    + destruct (engine_query _ q) as [r|err]; cbn; rewrite <- ?app_assoc; auto.
  - destruct (engine_query _ q) as [r|err]; cbn; rewrite <- ?app_assoc; auto.
Qed.

End RetrieverMore.

Module WebProofs.
Import Web.

(** *** Names *)

Lemma safe_filename_ascii s : ascii_only (safe_filename s).
Proof.
  unfold ascii_only, safe_filename. apply Forall_map, Forall_forall. intros c _.
  cbn. destruct (N.ltb_spec c 128); [assumption | reflexivity].
Qed.

Lemma safe_filename_id s : ascii_only s -> safe_filename s = s.
Proof.
  unfold ascii_only, safe_filename. induction 1 as [|c r Hc _ IH]; [reflexivity|].
  cbn. rewrite IH. apply N.ltb_lt in Hc. rewrite Hc. reflexivity.
Qed.

(** Lines 113-116 leave the sanitised name in [filename] either way. *)
Lemma sanitised s :
  (if bool_decide (safe_filename s <> s) then safe_filename s else s)
  = safe_filename s.
Proof.
  case_bool_decide as H; [reflexivity|].
  destruct (decide (safe_filename s = s)) as [->|Hn]; [reflexivity|contradiction].
Qed.

(** The characters of a numeral are ASCII and none is a separator or an
    underscore. *)
Lemma numeral_codes (n : Z) :
  Forall (fun c => (c < 128)%N /\ c <> sep /\ c <> underscore) (of_string (py_str n)).
Proof.
  eapply Forall_impl; [apply DecimalProofs.py_str_chars|].
  unfold sep, underscore, Numeral.is_digit. intros c [Hd | ->]; lia.
Qed.

Lemma ascii_only_app a b : ascii_only a -> ascii_only b -> ascii_only (a ++ b).
Proof. unfold ascii_only. intros. apply Forall_app; auto. Qed.

Lemma stamped_ascii prefix n :
  ascii_only (of_string prefix) -> ascii_only (stamped prefix n).
Proof.
  intros Hp. unfold stamped. apply ascii_only_app; [exact Hp|].
  apply ascii_only_app.
  - eapply Forall_impl; [apply numeral_codes|]. intros c (H & _). exact H.
  - unfold ascii_only. repeat constructor.
Qed.

Lemma lower_app a b : lower (a ++ b) = lower a ++ lower b.
Proof. unfold lower. apply map_app. Qed.

Lemma endswith_app a b : endswith (a ++ b) b = true.
Proof. apply bool_decide_eq_true_2. exists a. reflexivity. Qed.

Lemma stamped_pdf prefix n :
  endswith (lower (stamped prefix n)) (of_string ".pdf") = true.
Proof.
  unfold stamped. rewrite app_assoc, lower_app.
  change (lower (of_string ".pdf")) with (of_string ".pdf"). apply endswith_app.
Qed.

(** The second step of [pdf_name], on the sanitised name. *)
Lemma pdf_name_unfold t s :
  pdf_name t s =
  let f := if bool_decide (strip_char underscore (safe_filename s) = [])
           then stamped "chinese_filename_" t else safe_filename s in
  if negb (endswith (lower f) (of_string ".pdf")) then f ++ of_string ".pdf" else f.
Proof. unfold pdf_name. rewrite sanitised. reflexivity. Qed.

Lemma pdf_name_ascii t s : ascii_only (pdf_name t s).
Proof.
  rewrite pdf_name_unfold. cbv zeta.
  assert (Hf : ascii_only
                 (if bool_decide (strip_char underscore (safe_filename s) = [])
                  then stamped "chinese_filename_" t else safe_filename s)).
  { case_bool_decide; [|apply safe_filename_ascii].
    apply stamped_ascii. unfold ascii_only. repeat constructor. }
  destruct (negb _); [|exact Hf].
  apply ascii_only_app; [exact Hf|]. unfold ascii_only. repeat constructor.
Qed.

Lemma pdf_name_pdf t s : endswith (lower (pdf_name t s)) (of_string ".pdf") = true.
Proof.
  rewrite pdf_name_unfold. cbv zeta.
  set (f := if bool_decide _ then _ else _).
  destruct (endswith (lower f) (of_string ".pdf")) eqn:E; cbn [negb].
  - exact E.
  - rewrite lower_app. change (lower (of_string ".pdf")) with (of_string ".pdf").
    apply endswith_app.
Qed.


Lemma lstrip_char_all ch s : Forall (eq ch) (lstrip_char ch s) <-> Forall (eq ch) s.
Proof.
  induction s as [|c r IH]; [reflexivity|]. cbn.
  destruct (N.eqb_spec c ch) as [->|Hne]; [|reflexivity].
  rewrite IH. split; [intros H; constructor; auto | intros H; inversion H; auto].
Qed.

Lemma lstrip_char_nil ch s : lstrip_char ch s = [] <-> Forall (eq ch) s.
Proof.
  induction s as [|c r IH]; [split; auto|]. cbn.
  destruct (N.eqb_spec c ch) as [->|Hne].
  - rewrite IH. split; [intros H; constructor; auto | intros H; inversion H; auto].
  - split; [discriminate | intros H; inversion H; congruence].
Qed.

Lemma Forall_rev_iff {A} (P : A -> Prop) (l : list A) :
  Forall P (rev l) <-> Forall P l.
Proof.
  split; intros H; [|apply Forall_rev; exact H].
  rewrite <- (rev_involutive l). apply Forall_rev. exact H.
Qed.

(** [s.strip(ch)] is empty exactly when [s] is made of [ch] only. *)
Lemma strip_char_nil ch s : strip_char ch s = [] <-> Forall (eq ch) s.
Proof.
  unfold strip_char.
  rewrite <- (lstrip_char_all ch s), <- (Forall_rev_iff (eq ch) (lstrip_char ch s)).
  rewrite <- lstrip_char_nil.
  split; intros H.
  - apply (f_equal (@rev N)) in H. rewrite rev_involutive in H. exact H.
  - rewrite H. reflexivity.
Qed.

Lemma lower_underscores s : Forall (eq underscore) s -> Forall (eq underscore) (lower s).
Proof.
  unfold lower. intros H. apply Forall_map. eapply Forall_impl; [exact H|].
  intros c <-. reflexivity.
Qed.

(** A name ending in [.pdf], in any case, is not made of underscores. *)
Lemma pdf_not_underscores s :
  endswith (lower s) (of_string ".pdf") = true -> strip_char underscore s <> [].
Proof.
  intros H Hs. apply strip_char_nil, lower_underscores in Hs.
  apply bool_decide_eq_true_1 in H. destruct H as [x Hx]. rewrite Hx in Hs.
  apply Forall_app in Hs as [_ Hs]. inversion Hs; subst. discriminate.
Qed.

Lemma pdf_name_fixed t s :
  ascii_only s -> endswith (lower s) (of_string ".pdf") = true -> pdf_name t s = s.
Proof.
  intros Ha Hp. rewrite pdf_name_unfold, (safe_filename_id s Ha). cbv zeta.
  rewrite bool_decide_eq_false_2 by (apply pdf_not_underscores; exact Hp).
  rewrite Hp. reflexivity.
Qed.

(** X20. The name under which an upload is saved is made of ASCII characters
    and ends in [.pdf] (in any case), whatever the uploaded name was; and
    sanitising a saved name again, at any time, gives the same name. *)
Theorem pdf_name_shape (t t' : Z) (s : list N) :
  ascii_only (pdf_name t s) /\
  endswith (lower (pdf_name t s)) (of_string ".pdf") = true /\
  pdf_name t' (pdf_name t s) = pdf_name t s.
Proof.
  split; [apply pdf_name_ascii|]. split; [apply pdf_name_pdf|].
  apply pdf_name_fixed; [apply pdf_name_ascii | apply pdf_name_pdf].
Qed.

Lemma safe_filename_same s1 s2 :
  same_ascii s1 s2 -> safe_filename s1 = safe_filename s2.
Proof.
  unfold same_ascii, safe_filename. induction 1 as [|a b r1 r2 H _ IH]; [reflexivity|].
  cbn. rewrite IH. f_equal.
  destruct H as [-> | [Ha Hb]]; [reflexivity|].
  destruct (N.ltb_spec a 128), (N.ltb_spec b 128); reflexivity || lia.
Qed.

(** X21. Two uploads whose names differ only in characters outside ASCII are
    saved under the same name, hence at the same path: the later upload
    overwrites the earlier one. When the common name is not made of
    underscores only this holds whenever the two uploads happen. *)
Theorem pdf_name_collision (temp_dir : list N) (t t' : Z) (s1 s2 : list N) :
  same_ascii s1 s2 ->
  file_path temp_dir t (WithName s1) = file_path temp_dir t (WithName s2) /\
  (strip_char underscore (safe_filename s1) <> [] ->
   file_path temp_dir t' (WithName s2) = file_path temp_dir t (WithName s1)).
Proof.
  intros H. apply safe_filename_same in H.
  unfold file_path, file_name. rewrite !pdf_name_unfold, <- H. cbv zeta.
  split; [reflexivity|]. intros Hs.
  rewrite !bool_decide_eq_false_2 by exact Hs. reflexivity.
Qed.

Lemma pdf_name_collision_witness :
  file_path (of_string "/tmp/up") 1700000000 (WithName ([25253; 21578]%N ++ of_string ".pdf"))
  = file_path (of_string "/tmp/up") 1700000000 (WithName ([21512; 21516]%N ++ of_string ".pdf"))
  /\ [25253; 21578]%N <> [21512; 21516]%N.
Proof.
  split; [|discriminate].
  destruct (pdf_name_collision (of_string "/tmp/up") 1700000000 1700000000
              ([25253; 21578]%N ++ of_string ".pdf") ([21512; 21516]%N ++ of_string ".pdf"))
    as [H _]; [|exact H].
  unfold same_ascii. cbn.
  repeat (constructor; [first [left; reflexivity | right; split; discriminate]|]).
  constructor.
Defined.


(** *** Paths *)

Lemma basename_no_sep p : no_sep (basename p).
Proof.
  unfold basename, no_sep.
  assert (H : forall acc, Forall (fun c => c <> sep) acc ->
            Forall (fun c => c <> sep)
              (fold_left (fun acc c => if (c =? sep)%N then [] else acc ++ [c]) p acc)).
  { induction p as [|c r IH]; intros acc Hacc; [exact Hacc|]. cbn [fold_left].
    apply IH. destruct (N.eqb_spec c sep); [constructor|].
    apply Forall_app; split; [exact Hacc | repeat constructor; assumption]. }
  apply H. constructor.
Qed.

Lemma stamped_no_sep prefix n : no_sep (of_string prefix) -> no_sep (stamped prefix n).
Proof.
  intros Hp. unfold stamped, no_sep. apply Forall_app; split; [exact Hp|].
  apply Forall_app; split.
  - eapply Forall_impl; [apply numeral_codes|]. intros c (_ & H & _). exact H.
  - repeat constructor; discriminate.
Qed.

Lemma safe_filename_no_sep s : no_sep s -> no_sep (safe_filename s).
Proof.
  unfold no_sep, safe_filename. intros H. apply Forall_map.
  eapply Forall_impl; [exact H|]. intros c Hc. cbn.
  destruct (c <? 128)%N; [exact Hc | discriminate].
Qed.

Lemma pdf_name_no_sep t s : no_sep s -> no_sep (pdf_name t s).
Proof.
  intros H. rewrite pdf_name_unfold. cbv zeta.
  set (f := if bool_decide _ then _ else _).
  assert (Hf : no_sep f).
  { subst f. case_bool_decide; [|apply safe_filename_no_sep; exact H].
    apply stamped_no_sep. unfold no_sep. repeat constructor; discriminate. }
  destruct (negb _); [|exact Hf].
  apply Forall_app; split; [exact Hf | repeat constructor; discriminate].
Qed.

Lemma file_name_tuple_no_sep t items : no_sep (file_name t (PathTuple items)).
Proof.
  assert (Hg : no_sep (stamped "uploaded_file_" t)).
  { apply stamped_no_sep. unfold no_sep. repeat constructor; discriminate. }
  destruct items as [|p0 [|p rest]]; cbn [file_name]; [exact Hg..|].
  apply basename_no_sep.
Qed.

Lemma path_join_relative a b :
  a <> [] -> b <> [] -> no_sep b ->
  path_join a b = a ++ (if endswith a [sep] then [] else [sep]) ++ b.
Proof.
  intros Ha Hb Hs. destruct b as [|c r]; [contradiction|].
  inversion Hs as [|? ? Hc _]; subst. unfold path_join.
  apply N.eqb_neq in Hc. rewrite Hc.
  rewrite (bool_decide_eq_false_2 _ Ha). cbn [orb].
  destruct (endswith a [sep]); reflexivity.
Qed.

Lemma pdf_name_nonempty t s : pdf_name t s <> [].
Proof.
  intros H. pose proof (pdf_name_pdf t s) as Hp. rewrite H in Hp.
  vm_compute in Hp. discriminate.
Qed.

(** X22. An upload that comes as a tuple is saved directly inside the
    temporary directory: its path is the directory, one separator, and a
    name without separators that ends in [.pdf] (so it is neither [.] nor
    [..]), because the name is cut down to its base name first. *)
Theorem tuple_upload_stays_in_temp_dir (temp_dir : list N) (t : Z)
    (items : list (list N)) :
  temp_dir <> [] ->
  exists name,
    file_path temp_dir t (PathTuple items)
      = temp_dir ++ (if endswith temp_dir [sep] then [] else [sep]) ++ name /\
    no_sep name /\ endswith (lower name) (of_string ".pdf") = true.
Proof.
  intros Hd. exists (pdf_name t (file_name t (PathTuple items))).
  split; [|split].
  - unfold file_path. apply path_join_relative; [exact Hd | apply pdf_name_nonempty|].
    apply pdf_name_no_sep, file_name_tuple_no_sep.
  - apply pdf_name_no_sep, file_name_tuple_no_sep.
  - apply pdf_name_pdf.
Qed.

Lemma tuple_upload_stays_in_temp_dir_witness :
  exists name,
    file_path (of_string "/tmp/up") 1700000000
      (PathTuple [of_string "/tmp/gradio/x.pdf"; of_string "../../etc/cron.d/job"])
    = of_string "/tmp/up/" ++ name /\ no_sep name.
Proof.
  destruct (tuple_upload_stays_in_temp_dir (of_string "/tmp/up") 1700000000
              [of_string "/tmp/gradio/x.pdf"; of_string "../../etc/cron.d/job"])
    as (name & H & Hs & _); [discriminate|].
  exists name. split; [|exact Hs].
  rewrite H. reflexivity.
Defined.

Lemma pdf_name_absolute t r : exists rest, pdf_name t (sep :: r) = sep :: rest.
Proof.
  rewrite pdf_name_unfold. cbv zeta.
  rewrite bool_decide_eq_false_2.
  - cbn [safe_filename map]. change (sep <? 128)%N with true. cbv iota.
    destruct (negb _); eexists; reflexivity.
  - rewrite strip_char_nil. cbn [safe_filename map]. intros H.
    inversion H; subst. discriminate.
Qed.

(** X23. An upload whose [name] attribute (or ['name'] entry) is an absolute
    path is not saved in the temporary directory: the name is not cut down
    to its base name on these two branches, and the path joined to the
    directory is the sanitised name itself. An absolute ASCII name that
    ends in [.pdf] is written to as it stands. *)
Theorem named_upload_escapes_temp_dir (temp_dir : list N) (t : Z)
    (f : file_obj) (r : list N) :
  f = WithName (sep :: r) \/ f = Mapping (Some (sep :: r)) ->
  file_path temp_dir t f = pdf_name t (sep :: r) /\
  (exists rest, file_path temp_dir t f = sep :: rest) /\
  (ascii_only r -> endswith (lower r) (of_string ".pdf") = true ->
   file_path temp_dir t f = sep :: r).
Proof.
  intros Hf.
  assert (Hn : file_name t f = sep :: r) by (destruct Hf as [-> | ->]; reflexivity).
  unfold file_path. rewrite Hn.
  destruct (pdf_name_absolute t r) as [rest Hrest].
  assert (Hj : path_join temp_dir (pdf_name t (sep :: r)) = pdf_name t (sep :: r)).
  { rewrite Hrest. unfold path_join. rewrite N.eqb_refl. reflexivity. }
  rewrite Hj. split; [reflexivity|]. split; [eauto|].
  intros Ha Hp. apply pdf_name_fixed.
  - constructor; [reflexivity | exact Ha].
  - apply bool_decide_eq_true_1 in Hp. apply bool_decide_eq_true_2.
    destruct Hp as [x Hx]. exists (sep :: x).
    change (lower (sep :: r)) with (sep :: lower r). rewrite Hx. reflexivity.
Qed.

Lemma named_upload_escapes_temp_dir_witness :
  file_path (of_string "/tmp/up") 1700000000 (WithName (of_string "/srv/data/report.PDF"))
  = of_string "/srv/data/report.PDF".
Proof.
  destruct (named_upload_escapes_temp_dir (of_string "/tmp/up") 1700000000
              (WithName (of_string "/srv/data/report.PDF"))
              (of_string "srv/data/report.PDF") (or_introl eq_refl))
    as (_ & _ & H).
  apply H; [unfold ascii_only; repeat constructor | vm_compute; reflexivity].
Defined.


(** *** The handlers *)

(** Unfold the operations on the state down to [modify]. *)
Ltac web_ops :=
  unfold say, log, emit, set_knowledge_base, set_temp_dir, set_file_paths,
    document_count.

Section Returning.
Context {K W : Type} (o : Outside K W).

(** A handler ends in a [try] whose [except] returns. *)
Lemma initialize_knowledge_base_returns rebuild :
  returns (initialize_knowledge_base o rebuild).
Proof. unfold initialize_knowledge_base. web_ops. repeat returns_step. Qed.

Lemma upload_pdf_returns files : returns (upload_pdf o files).
Proof.
  unfold upload_pdf. destruct files as [[|f r]|]; try apply returns_ret.
  web_ops. repeat returns_step.
Qed.

Lemma process_directory_returns d : returns (process_directory o d).
Proof.
  unfold process_directory. destruct d as [[|a d]|]; try apply returns_ret.
  web_ops. repeat returns_step.
Qed.

Lemma query_knowledge_base_returns q : returns (query_knowledge_base o q).
Proof.
  unfold query_knowledge_base. destruct (blank q); [apply returns_ret|].
  web_ops. repeat returns_step.
Qed.

Lemma clear_knowledge_base_returns : returns (clear_knowledge_base o).
Proof. unfold clear_knowledge_base. web_ops. repeat returns_step. Qed.

Lemma handle_returns c : returns (handle o c).
Proof.
  destruct c; cbn [handle]; (apply returns_bind; [|intros ?; apply returns_ret]).
  - apply upload_pdf_returns.
  - apply process_directory_returns.
  - apply clear_knowledge_base_returns.
  - apply query_knowledge_base_returns.
Qed.

Lemma session_returns cs : returns (session o cs).
Proof.
  induction cs as [|c cs IH]; cbn [session]; [apply returns_ret|].
  apply returns_bind; [apply handle_returns | intros ?; exact IH].
Qed.

End Returning.

(** *** What a session keeps

    A property of the state that no update made by a handler breaks:
    adding an event other than a request to rebuild, a call to the outside
    other than that request, and setting the knowledge base or the list of
    saved paths. *)

Section Kept.
Context {K W : Type} (o : Outside K W) (P : state K W -> Prop).
Hypothesis P_emit : forall e, e <> Called (NewKnowledgeBase true) -> stable P (emit e).
Hypothesis P_call : forall A c (op : exec W A),
  c <> NewKnowledgeBase true -> stable P (outside_call c op).
Hypothesis P_set_knowledge_base : forall k, stable P (set_knowledge_base k).
Hypothesis P_set_file_paths : forall l, stable P (set_file_paths l).

Ltac kept_step :=
  first [ apply P_emit; discriminate
        | apply P_call; discriminate
        | apply P_set_knowledge_base
        | apply P_set_file_paths
        | assumption
        | progress cbv zeta
        | stable_step ].

Ltac kept := unfold say, log, document_count; repeat kept_step.

Lemma initialize_knowledge_base_kept : stable P (initialize_knowledge_base o false).
Proof. unfold initialize_knowledge_base. kept. Qed.

Lemma choose_name_kept f : stable P (choose_name o f).
Proof. unfold choose_name. kept. Qed.

Lemma upload_file_kept f : stable P (upload_file o f).
Proof.
  pose proof initialize_knowledge_base_kept. pose proof (choose_name_kept f).
  unfold upload_file. kept.
Qed.

Lemma upload_files_kept files : stable P (upload_files o files).
Proof.
  induction files as [|f r IH]; cbn [upload_files]; [apply stable_ret|].
  apply stable_bind; [apply upload_file_kept | intros ?; exact IH].
Qed.

Lemma upload_pdf_kept files : stable P (upload_pdf o files).
Proof.
  pose proof initialize_knowledge_base_kept.
  unfold upload_pdf. destruct files as [[|f r]|]; try apply stable_ret.
  pose proof (upload_files_kept (f :: r)).
  generalize dependent (f :: r). intros files Hfiles. kept.
Qed.

Lemma process_directory_kept d : stable P (process_directory o d).
Proof.
  pose proof initialize_knowledge_base_kept.
  unfold process_directory. destruct d as [[|a d]|]; try apply stable_ret. kept.
Qed.

Lemma query_knowledge_base_kept q : stable P (query_knowledge_base o q).
Proof. unfold query_knowledge_base. kept. Qed.

Lemma clear_knowledge_base_kept : stable P (clear_knowledge_base o).
Proof. unfold clear_knowledge_base. kept. Qed.

Lemma session_kept cs : stable P (session o cs).
Proof.
  induction cs as [|c cs IH]; cbn [session]; [apply stable_ret|].
  apply stable_bind; [|intros ?; exact IH].
  destruct c; cbn [handle]; (apply stable_bind; [|intros ?; apply stable_ret]).
  - apply upload_pdf_kept.
  - apply process_directory_kept.
  - apply clear_knowledge_base_kept.
  - apply query_knowledge_base_kept.
Qed.

Lemma launch_kept cfg port host : stable P (launch o cfg port host).
Proof. unfold launch. kept. Qed.

End Kept.

(** Evaluate a handler on the state at hand. *)
Ltac web_run :=
  unfold say, log, emit, set_knowledge_base, set_temp_dir, set_file_paths,
    document_count, outside_call, try_except, modify, get, raise,
    mbind, mret, exec_bind, exec_ret;
  cbn.

Section Outcomes.
Context {K W : Type} (o : Outside K W).

Lemma has_knowledge_base_kept cs : stable has_knowledge_base (session o cs).
Proof.
  apply session_kept.
  - intros e _ [g w tr fp] H. exact H.
  - intros A c op _ [g w tr fp] H. exact H.
  - intros k [g w tr fp] _. eexists. reflexivity.
  - intros l [g w tr fp] H. exact H.
Qed.

Lemma temp_dir_kept cs d :
  stable (fun s : state K W => temp_dir (self s) = d) (session o cs).
Proof.
  apply session_kept.
  - intros e _ [g w tr fp] H. exact H.
  - intros A c op _ [g w tr fp] H. exact H.
  - intros k [g w tr fp] H. exact H.
  - intros l [g w tr fp] H. exact H.
Qed.

(** X24. No click makes a handler raise, whatever the knowledge base, the
    file system and the uploads do: a session of clicks always returns. It
    never loses the knowledge base once the interface has one, and never
    changes the temporary directory. *)
Theorem session_is_safe (cs : list click) (s : state K W) :
  fst (session o cs s) = Ok tt /\
  (has_knowledge_base s -> has_knowledge_base (snd (session o cs s))) /\
  temp_dir (self (snd (session o cs s))) = temp_dir (self s).
Proof.
  split; [|split].
  - destruct (session_returns o cs s) as [[] H]. exact H.
  - apply has_knowledge_base_kept.
  - apply (temp_dir_kept cs (temp_dir (self s))). reflexivity.
Qed.

(** X25. When the interface has no knowledge base and none can be
    constructed, [process_directory] does not report that failure: it goes
    on to call the missing knowledge base, and what it returns is the
    attribute error of that call. The directory is never handed to a
    knowledge base. *)
Theorem process_directory_without_knowledge_base (dir : string) (s : state K W)
    (e : exn) :
  dir <> EmptyString ->
  knowledge_base (self s) = None ->
  fst (KnowledgeBase o false (outside s)) = Raise e ->
  fst (process_directory o (Some dir) s)
    = Ok {| status := Failure;
            message := DirectoryFailed
              "AttributeError: 'NoneType' object has no attribute 'add_pdf_documents_from_dir'" |} /\
  knowledge_base (self (snd (process_directory o (Some dir) s))) = None /\
  exists evs,
    trace (snd (process_directory o (Some dir) s)) = trace s ++ evs /\
    Log ERROR (InitializeFailed e) ∈ evs /\
    forall d, Called (AddPdfDocumentsFromDir d) ∉ evs.
Proof.
  destruct s as [[kb td] w tr fp]. cbn [self knowledge_base outside trace].
  intros Hdir -> Hnew. destruct dir as [|a dir]; [contradiction|].
  unfold process_directory, initialize_knowledge_base. web_run.
  destruct (KnowledgeBase o false w) as [[k|e'] w']; cbn in Hnew; [discriminate|].
  injection Hnew as ->. cbn.
  split; [reflexivity|]. split; [reflexivity|].
  eexists. split; [rewrite <- !app_assoc; reflexivity|].
  split.
  - apply list_elem_of_In. cbn. auto 10.
  - intros d Hin. apply list_elem_of_In in Hin. cbn in Hin. intuition discriminate.
Qed.

(** *** Rebuilding *)

Lemma never_rebuilt_emit e :
  e <> Called (NewKnowledgeBase true) -> stable (St := state K W) never_rebuilt (emit e).
Proof.
  intros He [g w tr fp] H. unfold never_rebuilt in *. cbn in *.
  intros Hin. apply elem_of_app in Hin as [Hin|Hin]; [exact (H Hin)|].
  apply list_elem_of_singleton in Hin. congruence.
Qed.

Lemma never_rebuilt_call A c (op : exec W A) :
  c <> NewKnowledgeBase true ->
  stable (St := state K W) never_rebuilt (outside_call c op).
Proof.
  intros Hc [g w tr fp] H. unfold never_rebuilt in *. cbn in *.
  intros Hin. apply elem_of_app in Hin as [Hin|Hin]; [exact (H Hin)|].
  apply list_elem_of_singleton in Hin. congruence.
Qed.

Lemma never_rebuilt_frame (g : state K W -> state K W) :
  (forall s, trace (g s) = trace s) -> stable never_rebuilt (modify g).
Proof.
  intros Hg s H. unfold never_rebuilt in *. cbn. rewrite Hg. exact H.
Qed.

Lemma session_never_rebuilt cs : stable never_rebuilt (session o cs).
Proof.
  apply session_kept.
  - apply never_rebuilt_emit.
  - apply never_rebuilt_call.
  - intros k. apply never_rebuilt_frame. reflexivity.
  - intros l. apply never_rebuilt_frame. reflexivity.
Qed.

Lemma launch_never_rebuilt cfg port host :
  stable never_rebuilt (launch o cfg port host).
Proof.
  apply launch_kept.
  - apply never_rebuilt_emit.
  - apply never_rebuilt_call.
Qed.

Lemma init_never_rebuilt : stable never_rebuilt (__init__ o).
Proof.
  unfold __init__, set_temp_dir, say, log.
  repeat first [ apply never_rebuilt_frame; reflexivity
               | apply never_rebuilt_emit; discriminate
               | apply never_rebuilt_call; discriminate
               | apply initialize_knowledge_base_kept;
                 [ apply never_rebuilt_emit | apply never_rebuilt_call
                 | intros k; apply never_rebuilt_frame; reflexivity ]
               | stable_step ].
Qed.

(** *** Uploads *)

Lemma say_run l m (s : state K W) :
  say l m s = (Ok tt, {| self := self s; outside := outside s;
                         trace := (trace s ++ [Log l m]) ++ [Printed m];
                         file_paths := file_paths s |}).
Proof. reflexivity. Qed.

(** [choose_name] computes [pdf_name] of [file_name] at the time of the
    call, and only logs. *)
Lemma choose_name_run f (s : state K W) :
  exists evs,
    choose_name o f s
    = (Ok (pdf_name (clock o (outside s)) (file_name (clock o (outside s)) f)),
       {| self := self s; outside := outside s; trace := trace s ++ evs;
          file_paths := file_paths s |}).
Proof.
  destruct s as [g w tr fp]. unfold choose_name, pdf_name. web_run.
  set (name := file_name (clock o w) f).
  destruct (bool_decide (safe_filename name <> name)); cbn;
    match goal with
    | |- context [bool_decide (strip_char underscore ?x = [])] =>
        destruct (bool_decide (strip_char underscore x = [])); cbn
    end;
    rewrite <- ?app_assoc; eexists; reflexivity.
Qed.

(** One iteration of the loop on an interface that has its knowledge base
    and its directory, when the upload can be read and written: the path
    is appended to [file_paths] whether or not the document can then be
    added. *)
Lemma upload_file_saves f (s : state K W) k d :
  knowledge_base (self s) = Some k ->
  temp_dir (self s) = Some d ->
  (forall f w, is_ok (fst (read_upload o f w)) = true) ->
  (forall p c w, is_ok (fst (write_file o p c w)) = true) ->
  knowledge_base (self (snd (upload_file o f s))) = Some k /\
  temp_dir (self (snd (upload_file o f s))) = Some d /\
  file_paths (snd (upload_file o f s))
    = file_paths s ++ [file_path d (clock o (outside s)) f].
Proof.
  destruct s as [[kb td] w tr fp]. cbn [self knowledge_base temp_dir outside file_paths].
  intros -> -> Hread Hwrite.
  unfold upload_file. rewrite run_bind, say_run. cbv beta iota.
  rewrite run_try_except, run_bind.
  destruct (choose_name_run f
              {| self := {| knowledge_base := Some k; temp_dir := Some d |};
                 outside := w;
                 trace := (tr ++ [Log INFO (FileObjectType f)]) ++ [Printed (FileObjectType f)];
                 file_paths := fp |}) as [evs E].
  cbn [self outside trace file_paths] in E |- *. rewrite E. clear E.
  web_run.
  specialize (Hread f w). destruct (read_upload o f w) as [[c|e] w1]; [|discriminate].
  cbn.
  match goal with
  | |- context [write_file o ?p c w1] =>
      specialize (Hwrite p c w1); destruct (write_file o p c w1) as [[[]|e] w2];
        [|discriminate]
  end.
  cbn.
  match goal with
  | |- context [add_pdf_document o k ?p w2] =>
      destruct (add_pdf_document o k p w2) as [[[]|e] w3]
  end; cbn; auto.
Qed.

Lemma upload_files_saves files : forall (s : state K W) k d,
  knowledge_base (self s) = Some k ->
  temp_dir (self s) = Some d ->
  (forall f w, is_ok (fst (read_upload o f w)) = true) ->
  (forall p c w, is_ok (fst (write_file o p c w)) = true) ->
  fst (upload_files o files s) = Ok tt /\
  knowledge_base (self (snd (upload_files o files s))) = Some k /\
  length (file_paths (snd (upload_files o files s)))
    = (length (file_paths s) + length files)%nat.
Proof.
  induction files as [|f r IH]; intros s k d Hk Hd Hread Hwrite; cbn [upload_files].
  - cbn. auto with arith.
  - rewrite run_bind.
    destruct (upload_file_saves f s k d Hk Hd Hread Hwrite) as (Hk' & Hd' & Hfp).
    assert (Hret : exists u, fst (upload_file o f s) = Ok u).
    { unfold upload_file. rewrite run_bind, say_run. cbv beta iota.
      apply returns_try_except. intros e. unfold say, log, emit. repeat returns_step. }
    destruct Hret as [[] Hret].
    destruct (upload_file o f s) as [r0 s1]. cbn [fst snd] in *. subst r0.
    destruct (IH s1 k d Hk' Hd' Hread Hwrite) as (Hok & Hk2 & Hlen).
    split; [exact Hok|]. split; [exact Hk2|].
    rewrite Hlen, Hfp, length_app. cbn. lia.
Qed.

(** X26. An upload is counted as soon as its file is saved: when every file
    can be read and written and the status can be read, [upload_pdf] on an
    interface with a knowledge base reports success for all the files,
    whatever [add_pdf_document] does with them, also when it raises for
    every one of them. *)
Theorem upload_counts_saved_files (files : list file_obj) (s : state K W) k d :
  files <> [] ->
  knowledge_base (self s) = Some k ->
  temp_dir (self s) = Some d ->
  (forall f w, is_ok (fst (read_upload o f w)) = true) ->
  (forall p c w, is_ok (fst (write_file o p c w)) = true) ->
  (forall k w, exists n, fst (get_status o k w) = Ok (Some n)) ->
  exists count,
    fst (upload_pdf o (Some files) s)
    = Ok {| status := Success; message := Uploaded (length files) count |}.
Proof.
  intros Hne Hk Hd Hread Hwrite Hstatus.
  destruct files as [|f r]; [contradiction|].
  unfold upload_pdf. clear Hne. assert (Hne : f :: r <> []) by discriminate.
  generalize dependent (f :: r). clear f r. intros files Hne.
  destruct s as [[kb td] w tr fp]. cbn [self knowledge_base temp_dir] in Hk, Hd.
  subst kb td.
  rewrite run_try_except, run_bind. web_run.
  match goal with
  | |- context [upload_files o files ?st] =>
      destruct (upload_files_saves files st k d eq_refl eq_refl Hread Hwrite)
        as (Hok & Hk' & Hlen);
      destruct (upload_files o files st) as [r0 [[kb1 td1] w1 tr1 fp1]]
  end.
  cbn [fst snd self knowledge_base file_paths length] in *. subst r0 kb1.
  destruct fp1 as [|p fp1].
  - destruct files; [contradiction | discriminate Hlen].
  - cbn.
    destruct (Hstatus k w1) as [n Hn]. destruct (get_status o k w1) as [r1 w2].
    cbn in Hn. subst r1. cbn. exists n. do 3 f_equal. cbn in Hlen. lia.
Qed.

(** *** Answers *)

Example blank_examples :
  blank EmptyString = true /\ blank "  " = true /\ blank "　" = true /\
  blank (String (ascii_of_N 31) EmptyString) = true /\
  blank "　?" = false /\ blank "what is new?" = false.
Proof. vm_compute. repeat split. Qed.

Lemma format_citations_nodes nodes : forall i acc,
  format_citations i (map Retriever.citation nodes) acc
  = Ok (acc ++ rendered_from i nodes).
Proof.
  induction nodes as [|n r IH]; intros i acc; cbn [map format_citations rendered_from].
  - rewrite app_nil_r. reflexivity.
  - change (citation_pieces i (Retriever.citation n)) with (Ok (rendered i n)).
    cbv iota beta. rewrite IH, <- app_assoc. reflexivity.
Qed.

(** X27. When the knowledge base hands a question to the query engine and
    passes its result on, the interface shows the engine's answer and, if
    the answer has source chunks, a heading followed by one numbered title
    and one body per chunk, in the engine's order: the title carries the
    file name of the chunk's metadata (or the default when it has none), the
    body the text of the chunk. When the engine raises, the interface shows
    the failure text and no citation. *)
Theorem query_knowledge_base_renders (q : string) (s : state K W) (k : K)
    (fs : option Retriever.MetadataFilters) (es : Retriever.state) :
  blank q = false ->
  knowledge_base (self s) = Some k ->
  fst (kb_query o k q (outside s)) = fst (Retriever.query q fs es) ->
  fst (query_knowledge_base o q s)
  = Ok match Retriever.engine_query
               (Retriever.engine_at_query fs
                  (Retriever.query_engine (Retriever.self es))) q with
       | Ok r =>
           (Answer (Retriever.RStr (Retriever.response_str r)),
            match default [] (Retriever.source_nodes r) with
            | [] => []
            | nodes => Heading :: rendered_from 0 nodes
            end)
       | Raise e => (QueryFailed e, [])
       end.
Proof.
  destruct s as [[kb td] w tr fp]. cbn [self knowledge_base outside].
  intros Hq -> Hkb. rewrite RetrieverProofs.query_outcome in Hkb.
  unfold query_knowledge_base. rewrite Hq. web_run.
  destruct (kb_query o k q w) as [r0 w1]. cbn [fst] in Hkb. subst r0.
  destruct (Retriever.engine_query _ q) as [r|e]; cbn; [|reflexivity].
  destruct (default [] (Retriever.source_nodes r)) as [|n nodes]; [reflexivity|].
  cbn [map].
  change (Retriever.citation n :: map Retriever.citation nodes)
    with (map Retriever.citation (n :: nodes)).
  rewrite format_citations_nodes. reflexivity.
Qed.

End Outcomes.

Lemma process_directory_without_knowledge_base_witness :
  fst (process_directory Samples.outside_without_database
         (Some "/data/pdfs") (Samples.interface None))
  = Ok {| status := Failure;
          message := DirectoryFailed
            "AttributeError: 'NoneType' object has no attribute 'add_pdf_documents_from_dir'" |}.
Proof.
  destruct (process_directory_without_knowledge_base Samples.outside_without_database
              "/data/pdfs" (Samples.interface None) "could not connect to server")
    as [H _]; [discriminate | reflexivity | reflexivity |].
  exact H.
Defined.

Lemma upload_counts_saved_files_witness :
  exists count,
    fst (upload_pdf (Samples.outside_with 0 (Raise "not a PDF file") Samples.engine_answer)
           (Some [WithName (of_string "a.pdf"); Unnamed])
           (Samples.interface (Some tt)))
    = Ok {| status := Success; message := Uploaded 2 count |}.
Proof.
  apply (upload_counts_saved_files
           (Samples.outside_with 0 (Raise "not a PDF file") Samples.engine_answer)
           [WithName (of_string "a.pdf"); Unnamed]
           (Samples.interface (Some tt)) tt (of_string "/tmp/tmpab12")).
  - discriminate.
  - reflexivity.
  - reflexivity.
  - intros f w. reflexivity.
  - intros p c w. reflexivity.
  - intros k w. exists 0. reflexivity.
Defined.

Lemma query_knowledge_base_renders_witness :
  exists a ps,
    fst (query_knowledge_base
           (Samples.outside_with 3 (Ok tt) Samples.engine_answer)
           "what is in a.pdf?" (Samples.interface (Some tt)))
    = Ok (Answer a, Heading :: ps).
Proof.
  pose proof (query_knowledge_base_renders
                (Samples.outside_with 3 (Ok tt) Samples.engine_answer)
                "what is in a.pdf?" (Samples.interface (Some tt)) tt None
                (Fixtures.started (Fixtures.default_engine Fixtures.fixed_llm))
                eq_refl eq_refl eq_refl) as H.
  rewrite H. vm_compute. eexists _, _. reflexivity.
Defined.

End WebProofs.

Module AppProofs.
Import Web App.

(** Evaluate [main] on the process at hand. *)
Ltac app_run :=
  unfold logger, validate_config, in_app, try_except, modify, get, raise,
    mbind, mret, exec_bind, exec_ret;
  cbn.

#[local] Arguments Settings.validate_config : simpl never.

Section MainProofs.
Context {K W : Type} (o : Outside K W).

(** What holds of the interface is not touched by the steps of [main]
    that are not the interface's. *)
Lemma in_app_stable {A} (Q : Web.state K W -> Prop) (m : exec (Web.state K W) A) :
  stable Q m -> stable (fun p : process K W => Q (app p)) (in_app m).
Proof. intros H [c out lg a] HQ. cbn in *. apply H. exact HQ. Qed.

Lemma logger_stable (Q : Web.state K W -> Prop) l m :
  stable (fun p : process K W => Q (app p)) (logger l m).
Proof. intros [c out lg a] HQ. exact HQ. Qed.

Lemma validate_config_stable (Q : Web.state K W -> Prop) :
  stable (fun p : process K W => Q (app p)) validate_config.
Proof. intros [c out lg a] HQ. exact HQ. Qed.

Lemma main_never_rebuilt cl :
  stable (fun p : process K W => never_rebuilt (app p)) (main o cl).
Proof.
  unfold main, GradioInterface. apply stable_bind; [apply stable_get | intros p0].
  cbv zeta.
  repeat lazymatch goal with
         | |- stable _ (logger _ _) => apply logger_stable
         | |- stable _ validate_config => apply validate_config_stable
         | |- stable _ (in_app _) => apply in_app_stable
         | |- stable _ (__init__ _) => apply WebProofs.init_never_rebuilt
         | |- stable _ (launch _ _ _ _) => apply WebProofs.launch_never_rebuilt
         | |- stable _ (modify _) => apply WebProofs.never_rebuilt_frame; reflexivity
         | |- stable _ (_ ≫= _) => apply stable_bind; [|intros ?]
         | |- stable _ (try_except _ _) => apply stable_try_except; [|intros ?]
         | |- stable _ (mret _) => apply stable_ret
         | |- stable _ (raise _) => apply stable_raise
         | |- stable _ get => apply stable_get
         | |- stable _ (if ?b then _ else _) => destruct b
         end.
Qed.

(** X28. The [--rebuild] flag has no effect: whatever the command line
    says, neither [main] nor any click that follows asks a knowledge base
    to rebuild; every knowledge base is constructed with [rebuild=False]. *)
Theorem rebuild_is_never_requested (cl : command_line) (cs : list click)
    (p : process K W) :
  never_rebuilt (app p) ->
  never_rebuilt (snd (session o cs (app (snd (main o cl p))))).
Proof.
  intros H. apply WebProofs.session_never_rebuilt.
  apply (main_never_rebuilt cl p H).
Qed.

(** X29. With an API key or a connection URL that is unset or empty, [main]
    logs the error and returns normally: no interface is constructed, no
    temporary directory, no knowledge base, and no server is started. *)
Theorem main_stops_on_invalid_config (cl : command_line) (p : process K W) :
  Settings.unset (Settings.OPENAI_API_KEY (config p)) = true \/
  Settings.unset (Settings.PGVECTOR_URL (config p)) = true ->
  fst (main o cl p) = Ok tt /\
  app (snd (main o cl p)) = app p /\
  config (snd (main o cl p)) = config p /\
  exists e, log (snd (main o cl p)) = log p ++ [(ERROR, ConfigInvalid e)].
Proof.
  destruct p as [c out lg a]. cbn [config app log]. intros H.
  unfold main. app_run. unfold Settings.validate_config.
  destruct (Settings.unset (Settings.OPENAI_API_KEY c)) eqn:Hk; cbn.
  - repeat split; eauto.
  - destruct H as [H|H]; [discriminate|]. rewrite H. cbn. repeat split; eauto.
Qed.

(** [validate_config] on a configuration with a key and a URL returns, and
    leaves the address of the server alone. *)
Lemma validate_config_keeps_address (c : Settings.Config) :
  Settings.unset (Settings.OPENAI_API_KEY c) = false ->
  Settings.unset (Settings.PGVECTOR_URL c) = false ->
  exists c' out,
    Settings.validate_config c = (Ok tt, c', out) /\
    Settings.APP_PORT c' = Settings.APP_PORT c /\
    Settings.APP_HOST c' = Settings.APP_HOST c.
Proof.
  intros Hkey Hurl. unfold Settings.validate_config. rewrite Hkey, Hurl.
  destruct (negb _); eexists _, _; split; reflexivity || (split; reflexivity).
Qed.

(** The constructor on a world where the directory can be made and no
    knowledge base can be constructed. *)
Lemma init_without_knowledge_base (s : Web.state K W) :
  (forall w, is_ok (fst (mkdtemp o w)) = true) ->
  (forall b w, is_ok (fst (KnowledgeBase o b w)) = false) ->
  exists d w' evs,
    __init__ o s
    = (Ok tt, {| self := {| knowledge_base := None; temp_dir := Some d |};
                 outside := w'; trace := trace s ++ evs;
                 file_paths := file_paths s |}).
Proof.
  destruct s as [g w tr fp]. intros Hmk Hkb.
  unfold __init__, initialize_knowledge_base. WebProofs.web_run.
  specialize (Hmk w). destruct (mkdtemp o w) as [[d|e] w1]; [|discriminate]. cbn.
  specialize (Hkb false w1).
  destruct (KnowledgeBase o false w1) as [[k|e] w2]; [discriminate|]. cbn.
  eexists _, _, _. rewrite <- !app_assoc. reflexivity.
Qed.

(** [launch] on a world where the server starts. *)
Lemma launch_starts cfg sp sh (s : Web.state K W) :
  (forall w, is_ok (fst (blocks o w)) = true) ->
  (forall h pt w, is_ok (fst (gr_launch o h pt w)) = true) ->
  exists w',
    launch o cfg sp sh s
    = (Ok tt,
       {| self := self s; outside := w';
          trace := trace s ++
            [ Called Blocks;
              Web.Log INFO (Launching (host_or sh (Settings.APP_HOST cfg))
                                      (port_or sp (Settings.APP_PORT cfg)));
              Called (Launch (Some (host_or sh (Settings.APP_HOST cfg)))
                             (port_or sp (Settings.APP_PORT cfg))) ];
          file_paths := file_paths s |}).
Proof.
  destruct s as [g w tr fp]. intros Hbl Hla.
  unfold launch. WebProofs.web_run.
  specialize (Hbl w). destruct (blocks o w) as [[[]|e] w1]; [|discriminate]. cbn.
  match goal with
  | |- context [gr_launch o ?h ?pt w1] =>
      specialize (Hla h pt w1); destruct (gr_launch o h pt w1) as [[[]|e] w2];
        [|discriminate]
  end. cbn.
  eexists. rewrite <- !app_assoc. reflexivity.
Qed.

(** X30. With a valid configuration, [main] starts the server even when no
    knowledge base can be constructed: the failure is caught inside the
    interface, which is left without a knowledge base. The server is
    launched on the host and port of the command line, or of the
    configuration for an option that is absent, an empty host or port 0. *)
Theorem main_serves_without_knowledge_base (cl : command_line) (p : process K W) :
  Settings.unset (Settings.OPENAI_API_KEY (config p)) = false ->
  Settings.unset (Settings.PGVECTOR_URL (config p)) = false ->
  (forall w, is_ok (fst (mkdtemp o w)) = true) ->
  (forall w, is_ok (fst (blocks o w)) = true) ->
  (forall h pt w, is_ok (fst (gr_launch o h pt w)) = true) ->
  (forall b w, is_ok (fst (KnowledgeBase o b w)) = false) ->
  fst (main o cl p) = Ok tt /\
  knowledge_base (self (app (snd (main o cl p)))) = None /\
  Called (Launch (Some (host_or (cli_host cl) (Settings.APP_HOST (config p))))
                 (port_or (cli_port cl) (Settings.APP_PORT (config p))))
    ∈ trace (app (snd (main o cl p))).
Proof.
  destruct p as [c out lg [g w tr fp]]. cbn [config app].
  intros Hkey Hurl Hmk Hbl Hla Hkb.
  destruct (validate_config_keeps_address c Hkey Hurl) as (c' & out' & E & Hp & Hh).
  assert (Hport : port_or (Some (default (Settings.APP_PORT c) (cli_port cl)))
                          (Settings.APP_PORT c')
                  = port_or (cli_port cl) (Settings.APP_PORT c)).
  { rewrite Hp. destruct (cli_port cl) as [[|q|q]|]; cbn; try reflexivity.
    destruct (Settings.APP_PORT c); reflexivity. }
  assert (Hhost : host_or (Some (default (Settings.APP_HOST c) (cli_host cl)))
                          (Settings.APP_HOST c')
                  = host_or (cli_host cl) (Settings.APP_HOST c)).
  { rewrite Hh. destruct (cli_host cl) as [[|a h]|]; cbn; try reflexivity.
    destruct (Settings.APP_HOST c); reflexivity. }
  unfold main, GradioInterface.
  unfold logger, validate_config, in_app, try_except, modify, get, raise,
    mbind, mret, exec_bind, exec_ret.
  cbn [config app stdout log parse_args port host fst snd]. rewrite E.
  cbn [fst snd config app stdout log Web.self Web.outside Web.trace Web.file_paths].
  match goal with
  | |- context [__init__ o ?st] =>
      destruct (init_without_knowledge_base st Hmk Hkb) as (d & w1 & evs & E1);
      rewrite E1; clear E1
  end.
  cbn [fst snd config app stdout log Web.self Web.outside Web.trace Web.file_paths].
  match goal with
  | |- context [launch o ?cfg ?sp ?sh ?st] =>
      destruct (launch_starts cfg sp sh st Hbl Hla) as (w2 & E2);
      rewrite E2; clear E2
  end.
  cbn [fst snd config app stdout log Web.self Web.outside Web.trace Web.file_paths
       Web.knowledge_base].
  rewrite Hport, Hhost.
  split; [reflexivity|]. split; [reflexivity|].
  apply list_elem_of_In, in_or_app. right. cbn. auto.
Qed.

End MainProofs.

Lemma rebuild_is_never_requested_witness :
  never_rebuilt
    (snd (session Samples.outside_without_database
            [ClickProcessDirectory (Some "/data/pdfs"); ClickQuery "what is new?"]
            (app (snd (main Samples.outside_without_database Samples.port_zero_rebuild
                         (Samples.process_with Samples.valid_config)))))).
Proof.
  apply (rebuild_is_never_requested Samples.outside_without_database
           Samples.port_zero_rebuild
           [ClickProcessDirectory (Some "/data/pdfs"); ClickQuery "what is new?"]
           (Samples.process_with Samples.valid_config)).
  unfold never_rebuilt. cbn. apply not_elem_of_nil.
Defined.

Lemma main_stops_on_invalid_config_witness :
  fst (main Samples.outside_without_database Samples.port_zero_rebuild
         (Samples.process_with Samples.config_without_key)) = Ok tt /\
  app (snd (main Samples.outside_without_database Samples.port_zero_rebuild
              (Samples.process_with Samples.config_without_key)))
  = Samples.blank_interface.
Proof.
  destruct (main_stops_on_invalid_config Samples.outside_without_database
              Samples.port_zero_rebuild
              (Samples.process_with Samples.config_without_key))
    as (Hok & Happ & _); [left; reflexivity|].
  split; [exact Hok | exact Happ].
Defined.

Lemma main_serves_without_knowledge_base_witness :
  Called (Launch (Some "0.0.0.0") 7860)
    ∈ trace (app (snd (main Samples.outside_without_database Samples.port_zero_rebuild
                         (Samples.process_with Samples.valid_config)))).
Proof.
  destruct (main_serves_without_knowledge_base Samples.outside_without_database
              Samples.port_zero_rebuild (Samples.process_with Samples.valid_config))
    as (_ & _ & H);
    [ reflexivity | reflexivity | intros w; reflexivity | intros w; reflexivity
    | intros h pt w; reflexivity | intros b w; reflexivity | exact H ].
Defined.

End AppProofs.
